(** * Quran reminder: the verse fetcher, the settings file and the tray
    application of [src/desktop/app.py], embedded in Rocq.

    The definitions follow the source file from top to bottom:
    - [Py]: the Python values the program handles (text, JSON values,
      subscripting, [str()] and f-string formatting);
    - [Fetcher]: [AyahFetcher.run] as a function of the answers of the
      outside world, with the trace of the steps it takes;
    - [Json]: [json.dump(obj, f, indent=2)] and [json.load(f)] as the
      settings file uses them;
    - [App]: [QuranReminderApp] and [SettingsDialog] over a store of
      dictionary objects and a file system.
    The facts come after them: the retry loop and what it emits, the
    round trip through the settings file, and the invariants of the
    event loop (timer, menu, configuration, defaults). *)

From Stdlib Require Import ZArith NArith List Ascii String Bool Lia.
From Stdlib Require Import DecimalFacts DecimalPos DecimalN DecimalZ.
From stdpp Require Import gmap strings list fin_maps.

Local Open Scope Z_scope.
Set Warnings "-register-all".

(* ===================================================================== *)
(** ** Python values                                                      *)
(* ===================================================================== *)

Module Py.

(** A Python [str] is a sequence of Unicode code points; [len] counts
    code points, so the Arabic and Persian texts are kept as lists of
    code points and not as bytes. *)
Definition codepoint := N.
Definition pystr := list codepoint.

(** An ASCII literal of the source as a [pystr]. *)
Definition text (s : string) : pystr :=
  map N_of_ascii (list_ascii_of_string s).

(** [len(s)] *)
Definition len (s : pystr) : Z := Z.of_nat (length s).

(** The digits of a decimal numeral as characters. *)
Fixpoint uint_text (d : Decimal.uint) : pystr :=
  match d with
  | Decimal.Nil => []
  | Decimal.D0 d => 48%N :: uint_text d
  | Decimal.D1 d => 49%N :: uint_text d
  | Decimal.D2 d => 50%N :: uint_text d
  | Decimal.D3 d => 51%N :: uint_text d
  | Decimal.D4 d => 52%N :: uint_text d
  | Decimal.D5 d => 53%N :: uint_text d
  | Decimal.D6 d => 54%N :: uint_text d
  | Decimal.D7 d => 55%N :: uint_text d
  | Decimal.D8 d => 56%N :: uint_text d
  | Decimal.D9 d => 57%N :: uint_text d
  end.

(** [str(n)] for an [int]: the decimal numeral, with a minus sign for a
    negative number. *)
Definition str_int (z : Z) : pystr :=
  match Z.to_int z with
  | Decimal.Pos d => uint_text d
  | Decimal.Neg d => 45%N :: uint_text d
  end.

(** What [response.json()] and [json.load] build.  A JSON object becomes
    a [dict], kept as the list of its items in insertion order (keys
    are [str] and occur once).  Numbers with a fraction or an exponent
    (Python [float]) are outside the model: no setting and no field of
    the verse API is one. *)
Inductive json :=
| JNull
| JBool (b : bool)
| JInt (n : Z)
| JStr (s : pystr)
| JList (items : list json)
| JDict (items : list (pystr * json)).

(** [d[key]] on the items of a [dict]: the value, or [KeyError]. *)
Fixpoint assoc (key : pystr) (items : list (pystr * json)) : option json :=
  match items with
  | [] => None
  | (k, v) :: rest => if decide (k = key) then Some v else assoc key rest
  end.

(** [v[key]] with a [str] key.  Only a [dict] that has the key answers;
    a [list] or a [str] raises [TypeError] (their indices must be
    integers), the other values are not subscriptable. *)
Definition getitem (v : json) (key : pystr) : option json :=
  match v with
  | JDict items => assoc key items
  | _ => None
  end.

(** [v[i]] with the literal index [i] (0 or 1 in the source).  A [list]
    answers with its element, a [str] with the one-character [str] at
    that place; both raise [IndexError] out of range.  A [dict] raises
    [KeyError] since its keys are [str]; the rest is not subscriptable. *)
Definition getindex (v : json) (i : nat) : option json :=
  match v with
  | JList items => nth_error items i
  | JStr s => option_map (fun c => JStr [c]) (nth_error s i)
  | _ => None
  end.

(** [d.get(key, default)]: defined on a [dict] only ([AttributeError]
    otherwise). *)
Definition dict_get (v : json) (key : pystr) (default : json) : option json :=
  match v with
  | JDict items => Some (match assoc key items with Some x => x | None => default end)
  | _ => None
  end.

(** [d[key] = x] on the items of a [dict]: an existing key keeps its
    place and takes the new value, a new key goes last. *)
Fixpoint assoc_set (key : pystr) (x : json) (items : list (pystr * json))
  : list (pystr * json) :=
  match items with
  | [] => [(key, x)]
  | (k, v) :: rest =>
      if decide (k = key) then (k, x) :: rest else (k, v) :: assoc_set key x rest
  end.

(** [v[key] = x]: a [dict] takes the item; a [list] raises [TypeError]
    for a [str] index and nothing else supports item assignment. *)
Definition setitem (v : json) (key : pystr) (x : json) : option json :=
  match v with
  | JDict items => Some (JDict (assoc_set key x items))
  | _ => None
  end.

(** [sep.join(parts)] *)
Fixpoint join (sep : pystr) (parts : list pystr) : pystr :=
  match parts with
  | [] => []
  | [p] => p
  | p :: rest => p ++ sep ++ join sep rest
  end.

Section Formatting.

(** [repr(s)] of a [str]: the quotes and the escapes Python chooses
    depend on the Unicode tables of the interpreter, which are not
    part of this program; it is a parameter of what follows. *)
Variable repr_str : pystr -> pystr.

(** [repr(v)], which is also [str(v)] for every value but a [str]. *)
Fixpoint repr (v : json) : pystr :=
  match v with
  | JNull => text "None"
  | JBool true => text "True"
  | JBool false => text "False"
  | JInt n => str_int n
  | JStr s => repr_str s
  | JList items =>
      text "[" ++ join (text ", ") (map repr items) ++ text "]"
  | JDict items =>
      text "{"
      ++ join (text ", ")
           (map (fun kv => repr_str (fst kv) ++ text ": " ++ repr (snd kv)) items)
      ++ text "}"
  end.

(** [f"{v}"], that is [format(v, "")], that is [str(v)]. *)
Definition format (v : json) : pystr :=
  match v with
  | JStr s => s
  | _ => repr v
  end.

End Formatting.

(** A value as a Python [int]: an [int] itself, or a [bool], which is a
    subclass of [int] ([True] is 1). *)
Definition as_int (v : json) : option Z :=
  match v with
  | JInt n => Some n
  | JBool b => Some (Z.b2z b)
  | _ => None
  end.

End Py.

(* ===================================================================== *)
(** ** [AyahFetcher]                                                      *)
(* ===================================================================== *)

Module Fetcher.
Import Py.

(** The answer of the network to one [requests.get]: the call raises
    (no route, time-out, ...) or returns a response, of which the
    program reads the status and the body through [response.json()],
    which raises when the body is not JSON. *)
Inductive http_answer :=
| NoAnswer
| Response (status : Z) (body : option json).

(** What happens outside the thread during one [run]. *)
Record world := {
  connectivity : http_answer;          (* the GET of https://www.google.com *)
  randint : nat -> Z;                  (* the k-th random.randint(1, total_ayahs) *)
  api : nat -> pystr -> http_answer    (* the GET of the k-th attempt, by URL *)
}.

(** The steps of a run that the outside can observe, in the order they
    are taken. *)
Inductive step :=
| PickRandom (lo hi drawn : Z)
| HttpGet (url : pystr) (timeout : Z)
| ParseJson
| CheckLength (length_of_message : Z)
| Emit (arabic persian : json) (reference : pystr).

(** A computation of the thread: the steps taken so far and how it
    stands: a value, a raised exception, or still running when the
    fuel of the model ran out. *)
Inductive result (A : Type) :=
| Value (a : A)
| Raised
| Unfinished.
Arguments Value {A} a.
Arguments Raised {A}.
Arguments Unfinished {A}.

Definition M (A : Type) : Type := list step * result A.

#[export] Instance M_ret : MRet M := fun A a => ([], Value a).

#[export] Instance M_bind : MBind M := fun A B f m =>
  match m with
  | (s, Value a) => let '(s', r) := f a in (s ++ s', r)
  | (s, Raised) => (s, Raised)
  | (s, Unfinished) => (s, Unfinished)
  end.

Definition does (s : step) : M unit := ([s], Value tt).
Definition raise {A} : M A := ([], Raised).

(** A lookup that raises [KeyError], [IndexError] or [TypeError]. *)
Definition lookup_or_raise {A} (o : option A) : M A :=
  match o with
  | Some a => mret a
  | None => raise
  end.

(** [try: body except: pass]: a bare [except] catches everything. *)
Definition try_except_pass (body : M unit) : M unit :=
  match body with
  | (s, Raised) => (s, Value tt)
  | other => other
  end.

(** [try: body except: return], seen from the rest of the function:
    [None] when the handler returned. *)
Definition try_except_return {A} (body : M A) : M (option A) :=
  match body with
  | (s, Value a) => (s, Value (Some a))
  | (s, Raised) => (s, Value None)
  | (s, Unfinished) => (s, Unfinished)
  end.

Definition google : pystr := text "https://www.google.com".

(** [self.api_url.format(ayah_number)] *)
Definition api_url (ayah_number : Z) : pystr :=
  text "https://api.alquran.cloud/v1/ayah/"
  ++ str_int ayah_number
  ++ text "/editions/quran-simple,fa.ansarian".

(** [requests.get(url, timeout=t)] *)
Definition requests_get (answer : http_answer) (url : pystr) (timeout : Z)
  : M (Z * option json) :=
  _ ← does (HttpGet url timeout);
  match answer with
  | NoAnswer => raise
  | Response status body => mret (status, body)
  end.

(** [response.raise_for_status()]: [HTTPError] for a 4xx or 5xx status. *)
Definition raise_for_status (response : Z * option json) : M unit :=
  if (400 <=? fst response) && (fst response <? 600) then raise else mret tt.

(** [response.json()] *)
Definition response_json (response : Z * option json) : M json :=
  _ ← does ParseJson;
  lookup_or_raise (snd response).

(** [n <= bound] for an [int] n: defined when the bound is an [int] (or
    a [bool]); [TypeError] for [None], a [str], a [list] or a [dict]. *)
Definition int_le (n : Z) (bound : json) : option bool :=
  option_map (fun m => n <=? m) (as_int bound).

Section Run.

Variable repr_str : pystr -> pystr.

(** [AyahFetcher.__init__(self, max_length)].  The bound is the value
    the caller read from the configuration, whatever its type. *)
Variable max_length : json.
Definition total_ayahs : Z := 6236.

Variable w : world.

(** [reference = f"Quran {surah}:{ayah}"] *)
Definition compose_reference (surah ayah : json) : pystr :=
  text "Quran " ++ format repr_str surah ++ text ":" ++ format repr_str ayah.

(** [message = f"{arabic}\n\n{persian}\n— {reference}"]; the dash
    is U+2014. *)
Definition compose_message (arabic persian : json) (reference : pystr) : pystr :=
  format repr_str arabic ++ [10; 10]%N
  ++ format repr_str persian ++ [10; 8212; 32]%N
  ++ reference.

(** The lines from [data = ...] to [reference = ...]: the two texts
    as the answer holds them and the reference composed from the
    numbers; [None] when a subscript raises. *)
Definition read_verse (root : json) : option (json * json * pystr) :=
  data ← getitem root (text "data");
  arabic ← (d ← getindex data 0; getitem d (text "text"));
  persian ← (d ← getindex data 1; getitem d (text "text"));
  surah ← (d ← getindex data 0; s ← getitem d (text "surah"); getitem s (text "number"));
  ayah ← (d ← getindex data 0; getitem d (text "numberInSurah"));
  Some (arabic, persian, compose_reference surah ayah).

(** The two steps every attempt starts with. *)
Definition opening (k : nat) : list step :=
  [PickRandom 1 total_ayahs (randint w k); HttpGet (api_url (randint w k)) 10].

(** The body of [while True:], for the k-th time.  The value is
    [true] when the body reaches [break]. *)
Definition attempt (k : nat) : M bool :=
  let ayah_number := randint w k in
  _ ← does (PickRandom 1 total_ayahs ayah_number);
  let url := api_url ayah_number in
  response ← requests_get (api w k url) url 10;
  _ ← raise_for_status response;
  root ← response_json response;
  '(arabic, persian, reference) ← lookup_or_raise (read_verse root);
  let message := compose_message arabic persian reference in
  _ ← does (CheckLength (len message));
  within ← lookup_or_raise (int_le (len message) max_length);
  if within : bool then
    _ ← does (Emit arabic persian reference);
    mret true
  else
    mret false.

(** [while True:] from the k-th attempt on, for at most [fuel] turns. *)
Fixpoint loop (fuel : nat) (k : nat) : M unit :=
  match fuel with
  | O => ([], Unfinished)
  | S fuel' =>
      stop ← attempt k;
      if stop : bool then mret tt else loop fuel' (S k)
  end.

(** [AyahFetcher.run] *)
Definition run (fuel : nat) : M unit :=
  try_except_pass (
    test_response ← try_except_return (requests_get (connectivity w) google 3);
    match test_response with
    | None => mret tt                  (* no internet: [return] *)
    | Some _ => loop fuel 0
    end).

(** The answer of the network to the k-th attempt. *)
Definition answer (k : nat) : http_answer :=
  api w k (api_url (randint w k)).

(** The verse an answer yields: the fields of a response whose status
    passes and whose body holds them. *)
Definition verse_of (a : http_answer) : option (json * json * pystr) :=
  match a with
  | Response status (Some root) =>
      if (400 <=? status) && (status <? 600) then None else read_verse root
  | _ => None
  end.

(** The failures of a fetch after the connectivity check: the request
    raises, the status is an error, the body is not JSON, or a field
    is missing. *)
Inductive failure : http_answer -> Prop :=
| request_error : failure NoAnswer
| error_status status body :
    400 <= status < 600 -> failure (Response status body)
| malformed_json status : failure (Response status None)
| missing_field status root :
    read_verse root = None -> failure (Response status (Some root)).


Definition exceeds_bound (k : nat) : Prop :=
  exists a p r, verse_of (answer k) = Some (a, p, r)
    /\ int_le (len (compose_message a p r)) max_length = Some false.

(** A fetch fails within [fuel] attempts: there is no network, or the
    attempts before the k-th are retried and the k-th fails. *)
Definition fetch_fails (fuel : nat) : Prop :=
  connectivity w = NoAnswer
  \/ exists k, (k < fuel)%nat
       /\ (forall j, (j < k)%nat -> exceeds_bound j)
       /\ failure (answer k).

End Run.

(** [repr(s)] for a text that needs no escape: the text between
    apostrophes.  The examples below use it where a [repr] is asked
    for. *)
Definition quoted (s : pystr) : pystr := [39%N] ++ s ++ [39%N].

(** The results a list of steps emits, in order. *)
Definition emitted (steps : list step) : list (json * json * pystr) :=
  omap (fun s => match s with Emit a p r => Some (a, p, r) | _ => None end) steps.

(** The requests a list of steps issues. *)
Definition requests (steps : list step) : list pystr :=
  omap (fun s => match s with HttpGet url _ => Some url | _ => None end) steps.

End Fetcher.

(* ===================================================================== *)
(** ** The settings file: [json.dump] and [json.load]                     *)
(* ===================================================================== *)

Module Json.
Import Py.

Local Open Scope N_scope.

(** *** Writing: [json.dump(obj, f, indent=2)] *)

(** One hexadecimal digit, in lower case. *)
Definition hex_digit (h : N) : codepoint :=
  if h <? 10 then 48 + h else 87 + h.

(** [\uXXXX] for a number below 0x10000. *)
Definition escape_u (n : N) : pystr :=
  [92; 117; hex_digit (n / 4096); hex_digit ((n / 256) mod 16);
   hex_digit ((n / 16) mod 16); hex_digit (n mod 16)].

(** One character of a string, as the encoder writes it with the
    default [ensure_ascii=True]: the short escapes, the printable ASCII
    characters as they are, [\uXXXX] for the rest, and a pair of
    surrogates for a character outside the basic plane. *)
Definition escape_char (c : codepoint) : pystr :=
  if c =? 34 then [92; 34]
  else if c =? 92 then [92; 92]
  else if c =? 10 then [92; 110]
  else if c =? 13 then [92; 114]
  else if c =? 9 then [92; 116]
  else if c =? 12 then [92; 102]
  else if c =? 8 then [92; 98]
  else if (32 <=? c) && (c <=? 126) then [c]
  else if c <? 65536 then escape_u c
  else
    let v := c - 65536 in
    escape_u (N.lor 55296 (N.land (N.shiftr v 10) 1023))
    ++ escape_u (N.lor 56320 (N.land v 1023)).

Definition dump_str (s : pystr) : pystr :=
  34 :: flat_map escape_char s ++ [34].

(** A new line and the indentation of a nesting level. *)
Definition newline_indent (level : nat) : pystr :=
  10 :: repeat 32 (2 * level).

(** The encoder at a nesting level.  An empty container is written
    without a line break; the items of another stand one per line. *)
Fixpoint dump_at (level : nat) (v : json) : pystr :=
  match v with
  | JNull => text "null"
  | JBool true => text "true"
  | JBool false => text "false"
  | JInt n => str_int n
  | JStr s => dump_str s
  | JList [] => text "[]"
  | JList items =>
      91 :: newline_indent (S level)
      ++ join (44 :: newline_indent (S level)) (map (dump_at (S level)) items)
      ++ newline_indent level ++ [93]
  | JDict [] => text "{}"
  | JDict items =>
      123 :: newline_indent (S level)
      ++ join (44 :: newline_indent (S level))
           (map (fun kv => dump_str (fst kv) ++ [58; 32] ++ dump_at (S level) (snd kv))
              items)
      ++ newline_indent level ++ [125]
  end.

Definition dumps (v : json) : pystr := dump_at 0 v.

(** *** Reading: [json.load(f)] *)

Definition is_ws (c : codepoint) : bool :=
  (c =? 32) || (c =? 9) || (c =? 10) || (c =? 13).

Fixpoint skip_ws (s : pystr) : pystr :=
  match s with
  | c :: rest => if is_ws c then skip_ws rest else s
  | [] => []
  end.

Definition hex_value (c : codepoint) : option N :=
  if (48 <=? c) && (c <=? 57) then Some (c - 48)
  else if (97 <=? c) && (c <=? 102) then Some (c - 87)
  else if (65 <=? c) && (c <=? 70) then Some (c - 55)
  else None.

Definition hex4 (a b c d : codepoint) : option N :=
  x ← hex_value a; y ← hex_value b; z ← hex_value c; t ← hex_value d;
  Some (x * 4096 + y * 256 + z * 16 + t).

(** The character a short escape stands for. *)
Definition unescape (e : codepoint) : option codepoint :=
  if e =? 34 then Some 34
  else if e =? 92 then Some 92
  else if e =? 47 then Some 47
  else if e =? 98 then Some 8
  else if e =? 102 then Some 12
  else if e =? 110 then Some 10
  else if e =? 114 then Some 13
  else if e =? 116 then Some 9
  else None.

Definition is_high (u : N) : bool := (55296 <=? u) && (u <=? 56319).
Definition is_low (u : N) : bool := (56320 <=? u) && (u <=? 57343).

(** What follows the escape of a high surrogate: when it is the escape
    of a low surrogate, the two are one character ([pair]); when it
    is another [\\uXXXX] or something else, the high surrogate stands
    alone ([single]); ill-formed digits after [\\u] are an error
    ([bad]). *)
Definition after_high {A} (r2 : pystr) (single : A) (pair : N -> pystr -> A) (bad : A) : A :=
  match r2 with
  | b :: e2 :: g1 :: g2 :: g3 :: g4 :: r4 =>
      if (b =? 92) && (e2 =? 117) then
        match hex4 g1 g2 g3 g4 with
        | Some u2 => if is_low u2 then pair u2 r4 else single
        | None => bad
        end
      else single
  | _ => single
  end.

(** The scanner of a string, after its opening quote: the text of the
    string and what follows the closing quote.  A control character
    is refused. *)
Fixpoint scan_string (s : pystr) : option (pystr * pystr) :=
  match s with
  | [] => None
  | c :: r =>
      if c =? 34 then Some ([], r)
      else if c =? 92 then
        match r with
        | [] => None
        | e :: r1 =>
            if e =? 117 then
              match r1 with
              | h1 :: h2 :: h3 :: h4 :: r2 =>
                  u ← hex4 h1 h2 h3 h4;
                  let single := '(t, r') ← scan_string r2; Some (u :: t, r') in
                  if is_high u then
                    after_high r2 single
                      (fun u2 r4 =>
                         '(t, r') ← scan_string r4;
                         Some (65536 + N.lor (N.shiftl (u - 55296) 10) (u2 - 56320) :: t, r'))
                      None
                  else single
              | _ => None
              end
            else
              ch ← unescape e;
              '(t, r') ← scan_string r1;
              Some (ch :: t, r')
        end
      else if c <? 32 then None
      else '(t, r') ← scan_string r; Some (c :: t, r')
  end.

Definition digit_of (c : codepoint) : option (Decimal.uint -> Decimal.uint) :=
  if c =? 48 then Some Decimal.D0
  else if c =? 49 then Some Decimal.D1
  else if c =? 50 then Some Decimal.D2
  else if c =? 51 then Some Decimal.D3
  else if c =? 52 then Some Decimal.D4
  else if c =? 53 then Some Decimal.D5
  else if c =? 54 then Some Decimal.D6
  else if c =? 55 then Some Decimal.D7
  else if c =? 56 then Some Decimal.D8
  else if c =? 57 then Some Decimal.D9
  else None.

(** The longest run of digits at the head of the text. *)
Fixpoint scan_digits (s : pystr) : Decimal.uint * pystr :=
  match s with
  | c :: r =>
      match digit_of c with
      | Some digit => let '(d, r') := scan_digits r in (digit d, r')
      | None => (Decimal.Nil, s)
      end
  | [] => (Decimal.Nil, [])
  end.

(** An integer without sign: a lone [0], or digits that start with
    1 to 9. *)
Definition scan_natural (s : pystr) : option (Z * pystr) :=
  match s with
  | c :: r =>
      if c =? 48 then Some (0%Z, r)
      else if (49 <=? c) && (c <=? 57) then
        let '(d, r') := scan_digits s in Some (Z.of_uint d, r')
      else None
  | [] => None
  end.

Definition scan_number (s : pystr) : option (Z * pystr) :=
  match s with
  | c :: r =>
      if c =? 45 then '(n, r') ← scan_natural r; Some (Z.opp n, r')
      else scan_natural s
  | [] => None
  end.

(** [s] without the prefix [p], when it starts with it. *)
Fixpoint strip_prefix (p s : pystr) : option pystr :=
  match p, s with
  | [], _ => Some s
  | a :: p', b :: s' => if a =? b then strip_prefix p' s' else None
  | _ :: _, [] => None
  end.

(** [dict(pairs)]: a repeated key keeps its first place and takes the
    last value. *)
Definition dict_of_pairs (pairs : list (pystr * json)) : list (pystr * json) :=
  fold_left (fun d kv => assoc_set (fst kv) (snd kv) d) pairs [].

(** The scanner of one value at the head of the text, and the loops
    over the items of an array and of an object, which call it; [fuel]
    bounds the nesting and the number of items. *)
Fixpoint scan_value (fuel : nat) (s : pystr) : option (json * pystr) :=
  match fuel with
  | O => None
  | S fuel' =>
      match s with
      | [] => None
      | c :: r =>
          if c =? 34 then '(t, r') ← scan_string r; Some (JStr t, r')
          else if c =? 123 then
            match skip_ws r with
            | c' :: r' =>
                if c' =? 125 then Some (JDict [], r')
                else if c' =? 34 then
                  '(pairs, r'') ← scan_members fuel' r';
                  Some (JDict (dict_of_pairs pairs), r'')
                else None
            | [] => None
            end
          else if c =? 91 then
            match skip_ws r with
            | c' :: r' =>
                if c' =? 93 then Some (JList [], r')
                else '(items, r'') ← scan_items fuel' (c' :: r'); Some (JList items, r'')
            | [] => None
            end
          else if c =? 110 then r' ← strip_prefix (text "null") s; Some (JNull, r')
          else if c =? 116 then r' ← strip_prefix (text "true") s; Some (JBool true, r')
          else if c =? 102 then r' ← strip_prefix (text "false") s; Some (JBool false, r')
          else '(n, r') ← scan_number s; Some (JInt n, r')
      end
  end

(** The items of an array, from the first character of an item to the
    closing bracket. *)
with scan_items (fuel : nat) (s : pystr) : option (list json * pystr) :=
  match fuel with
  | O => None
  | S fuel' =>
      '(v, r) ← scan_value fuel' s;
      match skip_ws r with
      | c :: r' =>
          if c =? 93 then Some ([v], r')
          else if c =? 44 then
            '(vs, r'') ← scan_items fuel' (skip_ws r'); Some (v :: vs, r'')
          else None
      | [] => None
      end
  end

(** The members of an object, from the character after the opening
    quote of a key to the closing brace. *)
with scan_members (fuel : nat) (s : pystr) : option (list (pystr * json) * pystr) :=
  match fuel with
  | O => None
  | S fuel' =>
      '(key, r) ← scan_string s;
      match skip_ws r with
      | c :: r1 =>
          if c =? 58 then
            '(v, r2) ← scan_value fuel' (skip_ws r1);
            match skip_ws r2 with
            | c' :: r3 =>
                if c' =? 125 then Some ([(key, v)], r3)
                else if c' =? 44 then
                  match skip_ws r3 with
                  | q :: r4 =>
                      if q =? 34 then
                        '(kvs, r5) ← scan_members fuel' r4; Some ((key, v) :: kvs, r5)
                      else None
                  | [] => None
                  end
                else None
            | [] => None
            end
          else None
      | [] => None
      end
  end.

(** [json.loads(s)]: one value, with white space around it and nothing
    else.  [None] stands for [JSONDecodeError], and for a text that
    holds a number with a fraction or an exponent, [NaN] or
    [Infinity], which the model does not represent. *)
Definition loads (s : pystr) : option json :=
  '(v, r) ← scan_value (S (length s)) (skip_ws s);
  match skip_ws r with
  | [] => Some v
  | _ :: _ => None
  end.

(** *** Values that come back from the file as they are *)

(** A [str] whose characters are code points of Unicode, and in which
    no high surrogate stands directly before a low one: the encoder
    writes the two as two escapes, which the decoder reads as one
    character. *)
Fixpoint no_surrogate_pair (s : pystr) : Prop :=
  match s with
  | c :: rest =>
      match rest with
      | c' :: _ => ~ (is_high c = true /\ is_low c' = true)
      | [] => True
      end
      /\ no_surrogate_pair rest
  | [] => True
  end.

Definition text_ok (s : pystr) : Prop :=
  Forall (fun c => c < 1114112) s /\ no_surrogate_pair s.

(** A value all of whose strings and keys are such, with no key twice
    in a [dict] (as in every [dict] of Python). *)
Fixpoint json_ok (v : json) : Prop :=
  match v with
  | JStr s => text_ok s
  | JList items =>
      (fix all (l : list json) : Prop :=
         match l with
         | [] => True
         | x :: rest => json_ok x /\ all rest
         end) items
  | JDict items =>
      NoDup (map fst items)
      /\ (fix all (l : list (pystr * json)) : Prop :=
            match l with
            | [] => True
            | kv :: rest => (text_ok (fst kv) /\ json_ok (snd kv)) /\ all rest
            end) items
  | _ => True
  end.

(** A text as decoding UTF-8 gives it: every character is a Unicode
    scalar value, that is, a code point that is no surrogate. *)
Definition scalar (c : codepoint) : Prop :=
  c < 55296 \/ (57344 <= c /\ c < 1114112).

Definition decoded (s : pystr) : Prop := Forall scalar s.

(** A text that does not go on with a digit: what may follow a
    number. *)
Definition no_digit (rest : pystr) : Prop :=
  match rest with
  | c :: _ => digit_of c = None
  | [] => True
  end.

(** The fuel that suffices to scan the text of a value. *)
Fixpoint size (v : json) : nat :=
  match v with
  | JList items =>
      S ((fix sum (l : list json) : nat :=
            match l with
            | [] => O
            | x :: rest => S (size x + sum rest)
            end) items)
  | JDict items =>
      S ((fix sum (l : list (pystr * json)) : nat :=
            match l with
            | [] => O
            | kv :: rest => S (size (snd kv) + sum rest)
            end) items)
  | _ => 1%nat
  end.

Definition items_size (items : list json) : nat :=
  (fix sum (l : list json) : nat :=
     match l with
     | [] => O
     | x :: rest => S (size x + sum rest)
     end) items.

Definition members_size (items : list (pystr * json)) : nat :=
  (fix sum (l : list (pystr * json)) : nat :=
     match l with
     | [] => O
     | kv :: rest => S (size (snd kv) + sum rest)
     end) items.

(** The text of a member of an object at a nesting level. *)
Definition member_text (level : nat) (kv : pystr * json) : pystr :=
  dump_str (fst kv) ++ [58; 32] ++ dump_at level (snd kv).

(** The scanner reads a value back from its text, at every nesting
    level, with enough fuel and whatever follows that is not a digit. *)
Definition reads_back (v : json) : Prop :=
  forall level fuel rest,
    json_ok v -> (size v <= fuel)%nat -> no_digit rest ->
    scan_value fuel (dump_at level v ++ rest) = Some (v, rest).

End Json.

(* ===================================================================== *)
(** ** [QuranReminderApp] and [SettingsDialog]                            *)
(* ===================================================================== *)

Module App.
Import Py.

(** *** The state of the process *)

(** A [dict] (or any other object the configuration may be) lives at a
    location of the store; [x.copy()] makes a new location, [y = x]
    shares one.  The values inside a configuration are never mutated
    by the program, so they are kept as values. *)
Definition loc := nat.

Record QTimer := {
  active : bool;                 (* isActive() *)
  interval : Z                   (* milliseconds *)
}.

(** A balloon of the tray icon ([showMessage]). *)
Inductive tray_message :=
| RemindersStarted (interval_minutes : json)
| RemindersPaused.

(** A [BeautifulNotification] window. *)
Record notification := {
  arabic : pystr;
  persian : pystr;
  reference : pystr;
  close_after : Z;               (* close_timer, milliseconds *)
  language : json;
  theme : json;
  visible : bool
}.

Record state := {
  store : gmap loc json;                   (* the objects *)
  files : gmap string (option pystr);      (* path to text; None: unreadable *)
  config : loc;                            (* self.config *)
  timer : QTimer;                          (* self.timer *)
  start_action : bool;                     (* start_action.isEnabled() *)
  stop_action : bool;                      (* stop_action.isEnabled() *)
  current_notification : option notification;
  tray : list tray_message;                (* balloons shown so far, last first *)
  fetcher : option json;                   (* self.fetcher: its max_length *)
  threads : nat                            (* fetcher threads started so far *)
}.

Definition with_store (f : gmap loc json -> gmap loc json) (st : state) : state :=
  {| store := f (store st); files := files st; config := config st;
     timer := timer st; start_action := start_action st;
     stop_action := stop_action st;
     current_notification := current_notification st; tray := tray st;
     fetcher := fetcher st; threads := threads st |}.

Definition with_files (f : gmap string (option pystr) -> gmap string (option pystr))
  (st : state) : state :=
  {| store := store st; files := f (files st); config := config st;
     timer := timer st; start_action := start_action st;
     stop_action := stop_action st;
     current_notification := current_notification st; tray := tray st;
     fetcher := fetcher st; threads := threads st |}.

Definition with_config (c : loc) (st : state) : state :=
  {| store := store st; files := files st; config := c;
     timer := timer st; start_action := start_action st;
     stop_action := stop_action st;
     current_notification := current_notification st; tray := tray st;
     fetcher := fetcher st; threads := threads st |}.

Definition with_timer (t : QTimer) (st : state) : state :=
  {| store := store st; files := files st; config := config st;
     timer := t; start_action := start_action st;
     stop_action := stop_action st;
     current_notification := current_notification st; tray := tray st;
     fetcher := fetcher st; threads := threads st |}.

Definition with_actions (start stop : bool) (st : state) : state :=
  {| store := store st; files := files st; config := config st;
     timer := timer st; start_action := start; stop_action := stop;
     current_notification := current_notification st; tray := tray st;
     fetcher := fetcher st; threads := threads st |}.

Definition with_notification (n : option notification) (st : state) : state :=
  {| store := store st; files := files st; config := config st;
     timer := timer st; start_action := start_action st;
     stop_action := stop_action st;
     current_notification := n; tray := tray st;
     fetcher := fetcher st; threads := threads st |}.

Definition with_tray (m : tray_message) (st : state) : state :=
  {| store := store st; files := files st; config := config st;
     timer := timer st; start_action := start_action st;
     stop_action := stop_action st;
     current_notification := current_notification st; tray := m :: tray st;
     fetcher := fetcher st; threads := threads st |}.

Definition with_fetcher (bound : json) (st : state) : state :=
  {| store := store st; files := files st; config := config st;
     timer := timer st; start_action := start_action st;
     stop_action := stop_action st;
     current_notification := current_notification st; tray := tray st;
     fetcher := Some bound; threads := S (threads st) |}.

(** A method of the application: it changes the state and returns a
    value, or raises; what it did before raising stays done. *)
Definition H (A : Type) : Type := state -> state * option A.

#[export] Instance H_ret : MRet H := fun A a st => (st, Some a).

#[export] Instance H_bind : MBind H := fun A B f m st =>
  match m st with
  | (st', Some a) => f a st'
  | (st', None) => (st', None)
  end.

Definition get : H state := fun st => (st, Some st).
Definition modify (f : state -> state) : H unit := fun st => (f st, Some tt).
Definition raise {A} : H A := fun st => (st, None).

Definition or_raise {A} (o : option A) : H A :=
  match o with
  | Some a => mret a
  | None => raise
  end.

(** The object at a location. *)
Definition deref (l : loc) : H json :=
  st ← get; or_raise (store st !! l).

(** A new object. *)
Definition new_object (v : json) : H loc :=
  st ← get;
  let l := fresh (dom (store st)) in
  _ ← modify (with_store <[l := v]>);
  mret l.

(** [x.copy()]: a [dict] and a [list] have the method. *)
Definition copy (l : loc) : H loc :=
  v ← deref l;
  match v with
  | JDict _ | JList _ => new_object v
  | _ => raise
  end.

(** *** Module level *)

(** [CONFIG_FILE = Path.home() / ".quran_reminder_config.json"], the
    home directory written [~]. *)
Definition CONFIG_FILE : string := "~/.quran_reminder_config.json".

(** The items of [DEFAULT_CONFIG], and the location of that [dict]. *)
Definition DEFAULT_CONFIG_items : list (pystr * json) :=
  [ (text "interval_minutes", JInt 60);
    (text "max_length", JInt 250);
    (text "auto_start", JBool true);
    (text "language", JStr (text "both"));
    (text "notification_duration", JInt 25);
    (text "theme", JStr (text "light")) ].

Definition DEFAULT_CONFIG : loc := 0%nat.

(** *** Arguments of Qt methods *)

(** An [int] argument: the value has to fit a C [int] ([OverflowError]). *)
Definition qt_int (z : Z) : option Z :=
  if (-2147483648 <=? z) && (z <=? 2147483647) then Some z else None.

(** A [bool] argument: a [bool] or an [int], non-zero for true. *)
Definition qt_bool (v : json) : option bool :=
  option_map (fun z => negb (z =? 0)) (as_int v).

(** [bool(v)], the truth value [if v:] tests. *)
Definition truthy (v : json) : bool :=
  match v with
  | JNull => false
  | JBool b => b
  | JInt n => negb (n =? 0)
  | JStr s => negb (bool_decide (s = []))
  | JList items => negb (bool_decide (items = []))
  | JDict items => negb (bool_decide (items = []))
  end.

(** [QTimer.start(msec)] and [QTimer.stop()].  The timer takes the
    interval it is given, whatever its sign. *)
Definition timer_start (msec : Z) : H unit :=
  ms ← or_raise (qt_int msec);
  modify (with_timer {| active := true; interval := ms |}).

Definition timer_stop : H unit :=
  modify (fun st => with_timer {| active := false; interval := interval (timer st) |} st).

(** *** [QuranReminderApp] *)

(** [self.config[key]] *)
Definition config_item (key : string) : H json :=
  st ← get;
  c ← deref (config st);
  or_raise (getitem c (text key)).

(** [self.config.get(key, default)] *)
Definition config_get (key : string) (default : json) : H json :=
  st ← get;
  c ← deref (config st);
  or_raise (dict_get c (text key) default).

(** [load_config]: the value is the location of the configuration.
    [CONFIG_FILE.exists()] is the presence of the path; opening,
    decoding and [json.load] raise together as "no value read", which
    the bare [except] turns into the fall through to the defaults. *)
Definition load_config : H loc :=
  st ← get;
  match files st !! CONFIG_FILE with
  | Some content =>
      match content ≫= Json.loads with
      | Some v => new_object v
      | None => copy DEFAULT_CONFIG
      end
  | None => copy DEFAULT_CONFIG
  end.

(** What the disk does with a write: it stores the text, refuses to
    open the file, or fails after some characters. *)
Inductive disk :=
| Stored
| Refused
| Cut (written : nat).

(** The files after [open(CONFIG_FILE, 'w')] and the writing of a
    text: opening empties the file, so a write that fails half way
    leaves the characters written so far. *)
Definition disk_after (d : disk) (content : pystr)
  (fs : gmap string (option pystr)) : gmap string (option pystr) :=
  match d with
  | Stored => <[CONFIG_FILE := Some content]> fs
  | Refused => fs
  | Cut n => <[CONFIG_FILE := Some (take n content)]> fs
  end.

(** [save_config]: [json.dump] into the opened file; every exception
    is swallowed. *)
Definition save_config (d : disk) : H unit :=
  st ← get;
  match store st !! config st with
  | Some v => modify (with_files (disk_after d (Json.dumps v)))
  | None => mret tt
  end.

(** [start_reminders(silent)].  The product [interval_minutes * 60 *
    1000] is an [int] for an [int]; a [str] or a [list] multiplies
    into a longer [str] or [list], which [QTimer.start] refuses like
    the values that cannot be multiplied. *)
Definition start_reminders (silent : bool) : H unit :=
  minutes ← config_item "interval_minutes";
  interval_ms ← or_raise (option_map (fun n => n * 60 * 1000) (as_int minutes));
  _ ← timer_start interval_ms;
  _ ← modify (with_actions false true);
  if silent then mret tt
  else
    minutes' ← config_item "interval_minutes";
    modify (with_tray (RemindersStarted minutes')).

(** [stop_reminders(silent)] *)
Definition stop_reminders (silent : bool) : H unit :=
  _ ← timer_stop;
  _ ← modify (with_actions true false);
  if silent then mret tt else modify (with_tray RemindersPaused).

(** [fetch_and_show_ayah]: a new [AyahFetcher] with the configured
    bound, connected to [display_ayah] and started. *)
Definition fetch_and_show_ayah : H unit :=
  bound ← config_item "max_length";
  modify (with_fetcher bound).

Definition show_ayah_now : H unit := fetch_and_show_ayah.

(** [BeautifulNotification(arabic, persian, reference, duration,
    language, theme)]: the window, not yet shown; [close_timer.start]
    needs [duration * 1000] to be an [int]. *)
Definition BeautifulNotification (a p r : pystr) (duration language theme : json)
  : option notification :=
  d ← as_int duration;
  ms ← qt_int (d * 1000);
  Some {| arabic := a; persian := p; reference := r; close_after := ms;
          language := language; theme := theme; visible := false |}.

Definition close_window (n : notification) : notification :=
  {| arabic := arabic n; persian := persian n; reference := reference n;
     close_after := close_after n; language := language n; theme := theme n;
     visible := false |}.

Definition show_window (n : notification) : notification :=
  {| arabic := arabic n; persian := persian n; reference := reference n;
     close_after := close_after n; language := language n; theme := theme n;
     visible := true |}.

(** [display_ayah(arabic, persian, reference)] *)
Definition display_ayah (a p r : pystr) : H unit :=
  _ ← modify (fun st => with_notification (close_window <$> current_notification st) st);
  duration ← config_item "notification_duration";
  language ← config_item "language";
  theme ← config_get "theme" (JStr (text "light"));
  n ← or_raise (BeautifulNotification a p r duration language theme);
  modify (with_notification (Some (show_window n))).

(** *** [SettingsDialog] *)

Record widgets := {
  theme_combo : Z;               (* currentIndex() *)
  interval_spin : Z;             (* value() *)
  lang_combo : Z;
  duration_spin : Z;
  length_spin : Z;
  autostart_check : bool         (* isChecked() *)
}.

Record dialog := {
  dialog_config : loc;           (* self.config of the dialog *)
  dialog_widgets : widgets
}.

(** [table.get(key, 0)] for a table with [str] keys: the key has to be
    hashable, which a [list] and a [dict] are not. *)
Definition index_of (table : list (string * Z)) (key : json) : option Z :=
  match key with
  | JList _ | JDict _ => None
  | JStr s =>
      Some (match find (fun kv => bool_decide (text (fst kv) = s)) table with
            | Some kv => snd kv
            | None => 0
            end)
  | _ => Some 0
  end.

(** [QSpinBox.setValue(v)] on a box with the range [lo]..[hi]: the
    value is brought into the range. *)
Definition spin_value (lo hi : Z) (v : json) : option Z :=
  n ← as_int v;
  n' ← qt_int n;
  Some (Z.max lo (Z.min hi n')).

(** The widgets as [init_ui] fills them from the configuration of the
    dialog. *)
Definition init_ui (c : json) : option widgets :=
  _ ← dict_get c (text "theme") (JStr (text "light"));
  theme ← dict_get c (text "theme") (JStr (text "light"));
  theme_index ← index_of [("light", 0); ("dark", 1)] theme;
  minutes ← getitem c (text "interval_minutes");
  interval ← spin_value 1 1440 minutes;
  lang ← getitem c (text "language");
  lang_index ← index_of [("both", 0); ("arabic", 1); ("persian", 2)] lang;
  seconds ← getitem c (text "notification_duration");
  duration ← spin_value 5 60 seconds;
  max_length ← getitem c (text "max_length");
  length ← spin_value 100 500 max_length;
  auto ← getitem c (text "auto_start");
  checked ← qt_bool auto;
  Some {| theme_combo := theme_index; interval_spin := interval;
          lang_combo := lang_index; duration_spin := duration;
          length_spin := length; autostart_check := checked |}.

(** [SettingsDialog(config)] *)
Definition SettingsDialog (config : loc) : H dialog :=
  l ← copy config;
  c ← deref l;
  w ← or_raise (init_ui c);
  mret {| dialog_config := l; dialog_widgets := w |}.

(** What the user does to a widget. *)
Inductive edit :=
| ChooseTheme (index : Z)
| SetInterval (value : Z)
| ChooseLanguage (index : Z)
| SetDuration (value : Z)
| SetLength (value : Z)
| SetAutostart (checked : bool).

Definition clamp (lo hi v : Z) : Z := Z.max lo (Z.min hi v).

Definition in_combo (count index : Z) : bool := (0 <=? index) && (index <? count).

Definition apply_edit (w : widgets) (e : edit) : widgets :=
  match e with
  | ChooseTheme i =>
      {| theme_combo := if in_combo 2 i then i else theme_combo w;
         interval_spin := interval_spin w; lang_combo := lang_combo w;
         duration_spin := duration_spin w; length_spin := length_spin w;
         autostart_check := autostart_check w |}
  | SetInterval v =>
      {| theme_combo := theme_combo w; interval_spin := clamp 1 1440 v;
         lang_combo := lang_combo w; duration_spin := duration_spin w;
         length_spin := length_spin w; autostart_check := autostart_check w |}
  | ChooseLanguage i =>
      {| theme_combo := theme_combo w; interval_spin := interval_spin w;
         lang_combo := if in_combo 3 i then i else lang_combo w;
         duration_spin := duration_spin w; length_spin := length_spin w;
         autostart_check := autostart_check w |}
  | SetDuration v =>
      {| theme_combo := theme_combo w; interval_spin := interval_spin w;
         lang_combo := lang_combo w; duration_spin := clamp 5 60 v;
         length_spin := length_spin w; autostart_check := autostart_check w |}
  | SetLength v =>
      {| theme_combo := theme_combo w; interval_spin := interval_spin w;
         lang_combo := lang_combo w; duration_spin := duration_spin w;
         length_spin := clamp 100 500 v; autostart_check := autostart_check w |}
  | SetAutostart b =>
      {| theme_combo := theme_combo w; interval_spin := interval_spin w;
         lang_combo := lang_combo w; duration_spin := duration_spin w;
         length_spin := length_spin w; autostart_check := b |}
  end.

(** [self.config[key] = value] in the dialog *)
Definition dialog_set (d : dialog) (key : string) (value : json) : H unit :=
  c ← deref (dialog_config d);
  c' ← or_raise (setitem c (text key) value);
  modify (with_store <[dialog_config d := c']>).

(** [table[index]] for the two tables of [save_settings] *)
Definition name_of (table : list (Z * string)) (index : Z) : option json :=
  kv ← find (fun kv => fst kv =? index) table;
  Some (JStr (text (snd kv))).

(** [save_settings], up to [self.accept()] *)
Definition save_settings (d : dialog) : H unit :=
  let w := dialog_widgets d in
  theme ← or_raise (name_of [(0, "light"); (1, "dark")] (theme_combo w));
  _ ← dialog_set d "theme" theme;
  _ ← dialog_set d "interval_minutes" (JInt (interval_spin w));
  lang ← or_raise (name_of [(0, "both"); (1, "arabic"); (2, "persian")] (lang_combo w));
  _ ← dialog_set d "language" lang;
  _ ← dialog_set d "notification_duration" (JInt (duration_spin w));
  _ ← dialog_set d "max_length" (JInt (length_spin w));
  dialog_set d "auto_start" (JBool (autostart_check w)).

(** How the user leaves the dialog. *)
Inductive button :=
| SaveSettings
| CancelButton.

(** [show_settings]: the dialog, what the user does in it, and the
    disk at the time of saving. *)
Definition show_settings (edits : list edit) (b : button) (d : disk) : H unit :=
  st ← get;
  dlg ← SettingsDialog (config st);
  let dlg' := {| dialog_config := dialog_config dlg;
                 dialog_widgets := fold_left apply_edit edits (dialog_widgets dlg) |} in
  match b with
  | CancelButton => mret tt                       (* reject() *)
  | SaveSettings =>
      _ ← save_settings dlg';                    (* ... accept() *)
      _ ← modify (with_config (dialog_config dlg'));
      _ ← save_config d;
      st' ← get;
      if active (timer st') then
        _ ← stop_reminders true;
        start_reminders true
      else mret tt
  end.

(** [QuranReminderApp.__init__], from the state at the start of the
    process. *)
Definition init : H unit :=
  c ← load_config;
  _ ← modify (with_config c);
  _ ← modify (with_actions true false);
  _ ← modify (with_timer {| active := false; interval := 0 |});
  _ ← modify (with_notification None);
  auto ← config_item "auto_start";
  if truthy auto then start_reminders true else mret tt.

(** The state when the module has been loaded: [DEFAULT_CONFIG] is the
    only object. *)
Definition boot (disk_files : gmap string (option pystr)) : state :=
  {| store := {[ DEFAULT_CONFIG := JDict DEFAULT_CONFIG_items ]};
     files := disk_files; config := DEFAULT_CONFIG;
     timer := {| active := false; interval := 0 |};
     start_action := true; stop_action := false;
     current_notification := None; tray := [];
     fetcher := None; threads := 0 |}.

(** *** The event loop *)

(** What the event loop hands to the application: a click on an entry
    of the tray menu, the time-out of the timer, or the signal of a
    fetcher. *)
Inductive event :=
| ShowAyahNow
| StartReminders
| PauseReminders
| Settings (edits : list edit) (b : button) (d : disk)
| Timeout
| AyahFetched (a p r : pystr).

(** The slot connected to each of them. *)
Definition handle (e : event) : H unit :=
  match e with
  | ShowAyahNow => show_ayah_now
  | StartReminders => start_reminders false
  | PauseReminders => stop_reminders false
  | Settings edits b d => show_settings edits b d
  | Timeout => fetch_and_show_ayah
  | AyahFetched a p r => display_ayah a p r
  end.

(** When the event can occur: an entry of the menu has to be enabled,
    the timer active, a fetcher started. *)
Definition enabled (e : event) (st : state) : Prop :=
  match e with
  | StartReminders => start_action st = true
  | PauseReminders => stop_action st = true
  | Timeout => active (timer st) = true
  | AyahFetched _ _ _ => is_Some (fetcher st)
  | _ => True
  end.

(** The states of a run of the application on a disk: after
    [__init__] returned, and after every event, whether its slot
    returned or raised. *)
Inductive reachable (disk_files : gmap string (option pystr)) : state -> Prop :=
| reach_init st :
    init (boot disk_files) = (st, Some tt) ->
    reachable disk_files st
| reach_event st e :
    reachable disk_files st ->
    enabled e st ->
    reachable disk_files (fst (handle e st)).

(** *** Vocabulary of the statements *)

(** The widgets hold what a combo box and a spin box can hold. *)
Definition widgets_ok (w : widgets) : Prop :=
  (0 <= theme_combo w < 2)
  /\ (1 <= interval_spin w <= 1440)
  /\ (0 <= lang_combo w < 3)
  /\ (5 <= duration_spin w <= 60)
  /\ (100 <= length_spin w <= 500).

(** The items of the dialog's configuration after the six assignments
    of [save_settings]. *)
Definition saved_items (w : widgets) (theme lang : json)
  (items : list (pystr * json)) : list (pystr * json) :=
  assoc_set (text "auto_start") (JBool (autostart_check w))
    (assoc_set (text "max_length") (JInt (length_spin w))
       (assoc_set (text "notification_duration") (JInt (duration_spin w))
          (assoc_set (text "language") lang
             (assoc_set (text "interval_minutes") (JInt (interval_spin w))
                (assoc_set (text "theme") theme items))))).

(** The settings file, where it can be read, holds a text as decoding
    gives it. *)
Definition disk_decoded (disk_files : gmap string (option pystr)) : Prop :=
  forall content,
    disk_files !! CONFIG_FILE = Some (Some content) -> Json.decoded content.

(** The configuration is an object of the store that comes back from
    the settings file as it is. *)
Definition config_reads_back (st : state) : Prop :=
  exists v, store st !! config st = Some v /\ Json.json_ok v.

(** The menu mirrors the timer. *)
Definition menu_mirrors_timer (st : state) : Prop :=
  start_action st = negb (active (timer st))
  /\ stop_action st = active (timer st).

(** While the timer runs, its period is the one the configuration
    asks for. *)
Definition timer_follows_config (st : state) : Prop :=
  active (timer st) = true ->
  exists c m n,
    store st !! config st = Some c
    /\ getitem c (text "interval_minutes") = Some m
    /\ as_int m = Some n
    /\ interval (timer st) = n * 60 * 1000.

(** The events whose slot starts or stops the timer. *)
Definition touches_timer (e : event) : bool :=
  match e with
  | StartReminders | PauseReminders | Settings _ SaveSettings _ => true
  | _ => false
  end.

(** *** Settings as the dialog leaves them *)

(** An [int] of a range, a [str] among names, a [bool]. *)
Definition int_within (lo hi : Z) (v : option json) : bool :=
  match v with
  | Some (JInt n) => (lo <=? n) && (n <=? hi)
  | _ => false
  end.

Definition name_among (names : list string) (v : option json) : bool :=
  match v with
  | Some (JStr s) => existsb (fun name => bool_decide (text name = s)) names
  | _ => false
  end.

Definition is_flag (v : option json) : bool :=
  match v with
  | Some (JBool _) => true
  | _ => false
  end.

(** The six keys hold values of the type and in the range of their
    widget in the dialog. *)
Definition settings_valid (c : json) : bool :=
  name_among ["light"; "dark"] (getitem c (text "theme"))
  && int_within 1 1440 (getitem c (text "interval_minutes"))
  && name_among ["both"; "arabic"; "persian"] (getitem c (text "language"))
  && int_within 5 60 (getitem c (text "notification_duration"))
  && int_within 100 500 (getitem c (text "max_length"))
  && is_flag (getitem c (text "auto_start")).

Definition config_valid (st : state) : Prop :=
  exists c, store st !! config st = Some c /\ settings_valid c = true.


(** The state but for the files. *)
Definition in_memory (st : state) : state := with_files (fun _ => ∅) st.

(** *** The process *)

(** The application object of [main], the tray icon and the event
    loop. *)
Record process := {
  tray_app : state;
  icon_visible : bool;           (* isVisible() of the tray icon *)
  running : bool                 (* app.exec_() has not returned *)
}.

(** [main()] up to [app.exec_()]: the application is made on the disk
    as it is, its icon shown by [__init__], and the event loop
    entered; an exception of [__init__] ends the process before. *)
Definition main (disk_files : gmap string (option pystr)) : option process :=
  match init (boot disk_files) with
  | (st, Some _) => Some {| tray_app := st; icon_visible := true; running := true |}
  | (_, None) => None
  end.




(** *** A fetch from its trigger to its end *)

Section FetchCycle.

Variable repr_str : pystr -> pystr.

(** The text that reaches a slot for an argument of a signal
    declared [str]; [None] when [emit] refuses the argument. *)
Variable qt_str : json -> option pystr.

(** The call of [display_ayah] an emitted result leads to. *)
Definition delivery (s : Fetcher.step) : option event :=
  match s with
  | Fetcher.Emit a p r =>
      a' ← qt_str a; p' ← qt_str p; Some (AyahFetched a' p' r)
  | _ => None
  end.

Definition handle_all (events : list event) (st : state) : state :=
  fold_left (fun st e => fst (handle e st)) events st.

(** The slot of the trigger starts the thread, the thread runs in
    the world [w], and the signals it emitted reach their slot. *)
Definition fetch_cycle (trigger : event) (w : Fetcher.world) (fuel : nat)
  (st : state) : state :=
  match handle trigger st with
  | (st1, Some _) =>
      match fetcher st1 with
      | Some bound =>
          handle_all (omap delivery (fst (Fetcher.run repr_str bound w fuel))) st1
      | None => st1
      end
  | (st1, None) => st1
  end.

End FetchCycle.

End App.

(* ===================================================================== *)
(** ** [BeautifulNotification]: what the window shows                     *)
(* ===================================================================== *)

Module Window.
Import Py App.

(** [v == "literal"]: only a [str] with the same characters is equal to
    a [str]. *)
Definition is_text (v : json) (literal : string) : bool :=
  match v with
  | JStr s => bool_decide (s = text literal)
  | _ => false
  end.

(** [v in ["a", "b"]] *)
Definition among (v : json) (literals : list string) : bool :=
  existsb (is_text v) literals.

(** The colours of [init_ui]. *)
Record palette := {
  bg_color : string;
  border_color : string;
  title_color : string;
  text_color : string;
  text_secondary : string;
  accent_color : string
}.

Definition palette_of (theme : json) : palette :=
  if is_text theme "dark" then
    {| bg_color := "rgba(30, 30, 30, 0.92)";
       border_color := "rgba(39, 174, 96, 0.4)";
       title_color := "#ecf0f1";
       text_color := "#bdc3c7";
       text_secondary := "#95a5a6";
       accent_color := "#27ae60" |}
  else
    {| bg_color := "rgba(255, 255, 255, 0.85)";
       border_color := "rgba(39, 174, 96, 0.3)";
       title_color := "#2c3e50";
       text_color := "#2c3e50";
       text_secondary := "#34495e";
       accent_color := "#27ae60" |}.

(** A [QLabel] of the window: its text, its font and its colour. *)
Record label := {
  label_text : pystr;
  font_family : string;
  font_size : Z;
  color : string
}.

(** The labels [init_ui] adds to the container below the header, from
    top to bottom: the Arabic text, the Persian text, the reference. *)
Definition body (n : notification) : list label :=
  let colours := palette_of (theme n) in
  (if among (language n) ["both"; "arabic"] then
     [{| label_text := arabic n; font_family := "Traditional Arabic";
         font_size := 13; color := text_color colours |}]
   else [])
  ++ (if among (language n) ["both"; "persian"] then
        [{| label_text := persian n; font_family := "Segoe UI";
            font_size := 11; color := text_secondary colours |}]
      else [])
  ++ [{| label_text := reference n; font_family := "Segoe UI";
         font_size := 9; color := accent_color colours |}].

(** The texts on the window, from top to bottom. *)
Definition texts (n : notification) : list pystr := map label_text (body n).

End Window.

(* ===================================================================== *)
(** ** Worlds and configurations for the examples                         *)
(* ===================================================================== *)

Module Examples.
Import Py Fetcher.

(** The body of an answer of the verse API, with the fields the
    program reads: the editions in [data], each with its [text], the
    first with the number of the surah and of the verse in it. *)
Definition verse_body (arabic persian : pystr) (surah ayah : Z) : json :=
  JDict [ (text "code", JInt 200);
          (text "status", JStr (text "OK"));
          (text "data",
           JList [ JDict [ (text "number", JInt 262);
                           (text "text", JStr arabic);
                           (text "surah", JDict [(text "number", JInt surah)]);
                           (text "numberInSurah", JInt ayah) ];
                   JDict [ (text "number", JInt 262);
                           (text "text", JStr persian) ] ]) ].

(** A short verse and a long one (Latin letters stand for the texts;
    only their lengths matter). *)
Definition short_arabic : pystr := text "aa".
Definition short_persian : pystr := text "bbb".

Definition short_answer : http_answer :=
  Response 200 (Some (verse_body short_arabic short_persian 2 25)).


(** The network is up and every attempt is answered with the short
    verse. *)
Definition world_short : world :=
  {| connectivity := Response 200 None;
     randint := fun _ => 262;
     api := fun _ _ => short_answer |}.



(** The first request to the verse API finds no server; the second
    would be answered with the short verse. *)
Definition world_error_then_short : world :=
  {| connectivity := Response 200 None;
     randint := fun k => 262 + Z.of_nat k;
     api := fun k _ => match k with O => NoAnswer | _ => short_answer end |}.

(** No network at all. *)
Definition world_offline : world :=
  {| connectivity := NoAnswer;
     randint := fun _ => 262;
     api := fun _ _ => NoAnswer |}.

End Examples.

Module AppExamples.
Import Py App.

(** The application started on a disk without settings file: the
    defaults apply and the reminders start by themselves. *)
Definition st_started : state := fst (init (boot ∅)).

(** ... and after a click on Pause Reminders. *)
Definition st_paused : state := fst (handle PauseReminders st_started).

(** What the user does in the dialog in the examples: five minutes,
    the dark theme, Persian only. *)
Definition some_edits : list edit :=
  [SetInterval 5; ChooseTheme 1; ChooseLanguage 2].

(** A settings file that is valid JSON and lacks every key but one. *)
Definition partial_file : pystr :=
  Json.dumps (JDict [(text "auto_start", JBool false)]).

(** A settings file that is not JSON. *)
Definition broken_file : pystr := text "{ interval_minutes: 60".



(** A settings file written by hand: an interval of 40000 minutes, a
    language and a theme that are none of the names, reminders not
    started at launch; and the application started on it. *)
Definition handwritten_config : json :=
  JDict [ (text "interval_minutes", JInt 40000);
          (text "max_length", JInt 250);
          (text "auto_start", JBool false);
          (text "language", JStr (text "french"));
          (text "notification_duration", JInt 25);
          (text "theme", JStr (text "blue")) ].

Definition handwritten_disk : gmap string (option pystr) :=
  {[ CONFIG_FILE := Some (Json.dumps handwritten_config) ]}.

Definition st_handwritten : state := fst (init (boot handwritten_disk)).

(** The application started on the settings file that has
    [auto_start] only. *)
Definition partial_disk : gmap string (option pystr) :=
  {[ CONFIG_FILE := Some partial_file ]}.

Definition st_partial : state := fst (init (boot partial_disk)).

(** Valid settings on the disk: five minutes, Persian only, the dark
    theme. *)
Definition valid_config : json :=
  JDict [ (text "interval_minutes", JInt 5);
          (text "max_length", JInt 300);
          (text "auto_start", JBool true);
          (text "language", JStr (text "persian"));
          (text "notification_duration", JInt 10);
          (text "theme", JStr (text "dark")) ].

Definition valid_disk : gmap string (option pystr) :=
  {[ CONFIG_FILE := Some (Json.dumps valid_config) ]}.

Definition st_valid : state := fst (init (boot valid_disk)).


(** The default settings without the theme, and the application
    holding them. *)
Definition themeless_items : list (pystr * json) :=
  [ (text "interval_minutes", JInt 60);
    (text "max_length", JInt 250);
    (text "auto_start", JBool true);
    (text "language", JStr (text "both"));
    (text "notification_duration", JInt 25) ].

Definition st_themeless : state :=
  with_config 1%nat (with_store <[1%nat := JDict themeless_items]> (boot ∅)).


End AppExamples.

Module CycleExamples.
Import Py.

(** A conversion of signal arguments that lets a [str] through and
    refuses every other value. *)
Definition qt_text (v : json) : option pystr :=
  match v with
  | JStr s => Some s
  | _ => None
  end.

End CycleExamples.

(* ===================================================================== *)
(** ** The fetcher: facts                                                 *)
(* ===================================================================== *)

Section FetcherFacts.
Import Py Fetcher.

Variable repr_str : pystr -> pystr.
Variable max_length : json.
Variable w : world.

Local Abbreviation attempt := (attempt repr_str max_length w).
Local Abbreviation loop := (loop repr_str max_length w).
Local Abbreviation run := (run repr_str max_length w).
Local Abbreviation compose_message := (compose_message repr_str).
Local Abbreviation verse_of := (verse_of repr_str).
Local Abbreviation read_verse := (read_verse repr_str).

Ltac unfold_attempt :=
unfold Fetcher.attempt, answer, requests_get, raise_for_status, response_json,
  lookup_or_raise, does, raise, opening, mbind, M_bind, mret, M_ret in *;
simpl in *.

(** An attempt on an answer that yields a verse: the opening, the
  parse and the check, and then the three ways the comparison with
  the bound can go. *)
Lemma attempt_verse k a p r :
verse_of (answer w k) = Some (a, p, r) ->
attempt k =
  match int_le (len (compose_message a p r)) max_length with
  | Some true =>
      (opening w k ++ [ParseJson; CheckLength (len (compose_message a p r)); Emit a p r],
       Value true)
  | Some false =>
      (opening w k ++ [ParseJson; CheckLength (len (compose_message a p r))], Value false)
  | None =>
      (opening w k ++ [ParseJson; CheckLength (len (compose_message a p r))], Raised)
  end.
Proof.
unfold Fetcher.verse_of, answer. intros Hv.
unfold_attempt.
destruct (api w k (api_url (randint w k))) as [|status [root|]]; try discriminate.
simpl in *.
destruct ((400 <=? status) && (status <? 600)); try discriminate.
simpl. rewrite Hv. simpl.
destruct (int_le _ max_length) as [[|]|]; reflexivity.
Qed.

(** An attempt on an answer that yields none raises, before the parse
  or in it. *)
Lemma attempt_no_verse k :
verse_of (answer w k) = None ->
attempt k = (opening w k, Raised) \/ attempt k = (opening w k ++ [ParseJson], Raised).
Proof.
unfold Fetcher.verse_of, answer. intros Hv.
unfold_attempt.
destruct (api w k (api_url (randint w k))) as [|status [root|]]; simpl; auto.
- destruct ((400 <=? status) && (status <? 600)); simpl; auto.
  rewrite Hv. simpl. auto.
- destruct ((400 <=? status) && (status <? 600)); simpl; auto.
Qed.


(** Either way an attempt is settled: it never runs out of fuel. *)
Lemma attempt_cases k :
(exists a p r, verse_of (answer w k) = Some (a, p, r))
\/ verse_of (answer w k) = None.
Proof.
destruct (verse_of (answer w k)) as [[[a p] r]|]; eauto.
Qed.

Lemma emitted_app s1 s2 : emitted (s1 ++ s2) = emitted s1 ++ emitted s2.
Proof. apply omap_app. Qed.

Lemma emitted_get url timeout s : emitted (HttpGet url timeout :: s) = emitted s.
Proof. reflexivity. Qed.

Lemma requests_app s1 s2 : requests (s1 ++ s2) = requests s1 ++ requests s2.
Proof. apply omap_app. Qed.

(** What an attempt emits: its verse when the message is within the
  bound, nothing otherwise. *)
Lemma attempt_emitted k :
emitted (fst (attempt k)) =
  match verse_of (answer w k) with
  | Some (a, p, r) =>
      match int_le (len (compose_message a p r)) max_length with
      | Some true => [(a, p, r)]
      | _ => []
      end
  | None => []
  end.
Proof.
destruct (attempt_cases k) as [(a & p & r & Hv)|Hv]; rewrite Hv.
- rewrite (attempt_verse _ _ _ _ Hv).
  destruct (int_le _ max_length) as [[|]|]; reflexivity.
- destruct (attempt_no_verse _ Hv) as [-> | ->]; reflexivity.
Qed.

(** How an attempt ends: [break] exactly when it emits. *)
Lemma attempt_result k :
snd (attempt k) =
  match verse_of (answer w k) with
  | Some (a, p, r) =>
      match int_le (len (compose_message a p r)) max_length with
      | Some within => Value within
      | None => Raised
      end
  | None => Raised
  end.
Proof.
destruct (attempt_cases k) as [(a & p & r & Hv)|Hv]; rewrite Hv.
- rewrite (attempt_verse _ _ _ _ Hv).
  destruct (int_le _ max_length) as [[|]|]; reflexivity.
- destruct (attempt_no_verse _ Hv) as [-> | ->]; reflexivity.
Qed.

(** One turn of the loop. *)
Lemma loop_S fuel k :
loop (S fuel) k =
  match snd (attempt k) with
  | Value true => (fst (attempt k), Value tt)
  | Value false =>
      (fst (attempt k) ++ fst (loop fuel (S k)), snd (loop fuel (S k)))
  | Raised => (fst (attempt k), Raised)
  | Unfinished => (fst (attempt k), Unfinished)
  end.
Proof.
simpl. unfold mbind, M_bind, mret, M_ret.
destruct (attempt k) as [s [[|]| |]]; simpl; try reflexivity.
- rewrite app_nil_r. reflexivity.
- destruct (loop fuel (S k)); reflexivity.
Qed.

(** The whole run in terms of the loop. *)
Lemma run_unfold fuel :
run fuel =
  match connectivity w with
  | NoAnswer => ([HttpGet google 3], Value tt)
  | Response _ _ =>
      (HttpGet google 3 :: fst (loop fuel 0),
       match snd (loop fuel 0) with
       | Raised => Value tt
       | other => other
       end)
  end.
Proof.
unfold Fetcher.run, try_except_pass, try_except_return, requests_get, does, raise,
  mbind, M_bind, mret, M_ret.
destruct (connectivity w) as [|status body]; simpl; [reflexivity|].
destruct (loop fuel 0) as [s [[]| |]]; reflexivity.
Qed.

(** The steps of the attempts [k], ..., [k + n - 1] in a row. *)
Lemma loop_retries n : forall k fuel,
(forall j, (k <= j < k + n)%nat -> exceeds_bound repr_str max_length w j) ->
loop (n + fuel) k =
  (flat_map (fun j => fst (attempt j)) (seq k n) ++ fst (loop fuel (k + n)),
   snd (loop fuel (k + n))).
Proof.
induction n as [|n IH]; intros k fuel Hex.
- simpl. rewrite Nat.add_0_r. destruct (loop fuel k); reflexivity.
- replace (S n + fuel)%nat with (S (n + fuel)) by lia.
  rewrite loop_S, attempt_result.
  destruct (Hex k ltac:(lia)) as (a & p & r & Hv & Hle).
  rewrite Hv, Hle. rewrite IH by (intros j Hj; apply Hex; lia).
  replace (S k + n)%nat with (k + S n)%nat by lia.
  cbn [fst snd seq flat_map]. rewrite <- List.app_assoc. reflexivity.
Qed.

(** Attempts whose message exceeds the bound emit nothing. *)
Lemma retries_emit_nothing n : forall k,
(forall j, (k <= j < k + n)%nat -> exceeds_bound repr_str max_length w j) ->
emitted (flat_map (fun j => fst (attempt j)) (seq k n)) = [].
Proof.
induction n as [|n IH]; intros k Hex; [reflexivity|].
simpl. rewrite emitted_app, attempt_emitted.
destruct (Hex k ltac:(lia)) as (a & p & r & Hv & Hle).
rewrite Hv, Hle. simpl. apply IH. intros j Hj. apply Hex. lia.
Qed.

(** Whatever the loop emits is a verse whose message passed the
  comparison with the bound. *)
Lemma loop_emitted fuel : forall k a p r,
In (a, p, r) (emitted (fst (loop fuel k))) ->
int_le (len (compose_message a p r)) max_length = Some true.
Proof.
induction fuel as [|fuel IH]; intros k a p r Hin; [destruct Hin|].
rewrite loop_S in Hin.
assert (Hatt : In (a, p, r) (emitted (fst (attempt k))) ->
               int_le (len (compose_message a p r)) max_length = Some true).
{ rewrite attempt_emitted.
  destruct (verse_of (answer w k)) as [[[a' p'] r']|]; [|intros []].
  destruct (int_le (len (compose_message a' p' r')) max_length) as [[|]|] eqn:E;
    simpl; try tauto.
  intros [Heq|[]]. inversion Heq; subst. exact E. }
destruct (snd (attempt k)) as [[|]| |]; simpl in Hin; auto.
rewrite emitted_app in Hin. apply in_app_or in Hin as [Hin|Hin]; eauto.
Qed.


(** A failed answer yields no verse. *)
Lemma failure_no_verse a : failure repr_str a -> verse_of a = None.
Proof.
  intros [|status body Hstatus|status|status root Hroot]; simpl; auto.
  - destruct body; [|reflexivity].
    replace ((400 <=? status) && (status <? 600)) with true; [reflexivity|].
    symmetry. apply andb_true_iff. split; [apply Z.leb_le|apply Z.ltb_lt]; lia.
  - destruct (_ && _); auto.
Qed.

(** A run never lets an exception out. *)
Lemma run_never_raises fuel : snd (run fuel) <> Raised.
Proof.
  rewrite run_unfold. destruct (connectivity w); [discriminate|].
  simpl. destruct (snd (loop fuel 0)) as [[]| |]; discriminate.
Qed.

(** The run whose k-th attempt is the first not to be retried, and
    yields no verse: it returns and has emitted nothing. *)
Lemma run_failed_attempt k fuel :
  (forall j, (j < k)%nat -> exceeds_bound repr_str max_length w j) ->
  verse_of (answer w k) = None ->
  (k < fuel)%nat ->
  snd (run fuel) = Value tt /\ emitted (fst (run fuel)) = [].
Proof.
  intros Hbefore Hv Hfuel.
  rewrite run_unfold. destruct (connectivity w); [auto|].
  replace fuel with (k + S (fuel - S k))%nat by lia.
  rewrite (loop_retries k 0) by (intros j Hj; apply Hbefore; lia).
  cbn [fst snd]. rewrite Nat.add_0_l, loop_S, attempt_result, Hv.
  cbn [fst snd]. split; [reflexivity|].
  rewrite emitted_get, emitted_app, retries_emit_nothing
    by (intros j Hj; apply Hbefore; lia).
  rewrite attempt_emitted, Hv. reflexivity.
Qed.

(** The run without network: one request, and the return. *)
Lemma run_offline fuel :
  connectivity w = NoAnswer -> run fuel = ([HttpGet google 3], Value tt).
Proof. intros Hoff. rewrite run_unfold, Hoff. reflexivity. Qed.

(** C1, as amended: whatever a run emits, the configured bound is a
    number and the message composed from the emitted fields is at most
    that number of characters long. *)
Theorem emitted_message_within_bound fuel a p r :
  In (a, p, r) (emitted (fst (run fuel))) ->
  exists bound, as_int max_length = Some bound
    /\ len (compose_message a p r) <= bound.
Proof.
  rewrite run_unfold. destruct (connectivity w); [intros []|].
  simpl. intros Hin. apply loop_emitted in Hin.
  unfold int_le in Hin. destruct (as_int max_length) as [bound|]; [|discriminate].
  exists bound. split; [reflexivity|].
  simpl in Hin. injection Hin as Hle. apply Z.leb_le. exact Hle.
Qed.



End FetcherFacts.


Section FetcherCases.
Import Py Fetcher Examples.

(** C1 as stated fails at the bound itself: with the bound 20 the
    short verse, whose message is exactly 20 characters long, is
    emitted, and 20 is not below 20. *)
Lemma emitted_message_at_bound :
  In (JStr short_arabic, JStr short_persian, text "Quran 2:25")
     (emitted (fst (run quoted (JInt 20) world_short 1)))
  /\ len (compose_message quoted (JStr short_arabic) (JStr short_persian)
            (text "Quran 2:25")) = 20
  /\ ~ len (compose_message quoted (JStr short_arabic) (JStr short_persian)
              (text "Quran 2:25")) < 20.
Proof.
  split; [vm_compute; auto|]. split; [reflexivity|].
  vm_compute. discriminate.
Qed.

(** The bound 20 and the short verse, whose message has 20 characters. *)
Lemma emitted_message_within_bound_witness :
  exists bound, as_int (JInt 20) = Some bound
    /\ len (compose_message quoted (JStr short_arabic) (JStr short_persian)
              (text "Quran 2:25")) <= bound.
Proof.
  apply (emitted_message_within_bound quoted (JInt 20) world_short 1).
  vm_compute. auto.
Defined.



End FetcherCases.

(* ===================================================================== *)
(** ** The settings file: what is written is read back                    *)
(* ===================================================================== *)

Section JsonFacts.
Import Py Json.

Local Open Scope N_scope.

(** *** Hexadecimal escapes *)

Lemma hex_value_digit h : h < 16 -> hex_value (hex_digit h) = Some h.
Proof.
  intros Hh. unfold hex_value, hex_digit.
  destruct (N.ltb_spec h 10).
  - replace ((48 <=? 48 + h) && (48 + h <=? 57))%bool with true.
    + f_equal. lia.
    + symmetry. apply andb_true_iff. split; apply N.leb_le; lia.
  - replace ((48 <=? 87 + h) && (87 + h <=? 57))%bool with false.
    + replace ((97 <=? 87 + h) && (87 + h <=? 102))%bool with true.
      * f_equal. lia.
      * symmetry. apply andb_true_iff. split; apply N.leb_le; lia.
    + symmetry. apply andb_false_iff. right. apply N.leb_gt. lia.
Qed.

Lemma hex4_digits n :
  n < 65536 ->
  hex4 (hex_digit (n / 4096)) (hex_digit ((n / 256) mod 16))
       (hex_digit ((n / 16) mod 16)) (hex_digit (n mod 16)) = Some n.
Proof.
  intros Hn. unfold hex4.
  rewrite !hex_value_digit
    by first [apply N.mod_lt; lia | apply N.Div0.div_lt_upper_bound; lia].
  simpl. f_equal.
  pose proof (N.div_mod n 16 ltac:(lia)).
  pose proof (N.div_mod (n / 16) 16 ltac:(lia)).
  pose proof (N.div_mod (n / 16 / 16) 16 ltac:(lia)).
  pose proof (N.mod_lt n 16 ltac:(lia)).
  pose proof (N.mod_lt (n / 16) 16 ltac:(lia)).
  pose proof (N.mod_lt (n / 16 / 16) 16 ltac:(lia)).
  assert (n / 16 / 16 / 16 = n / 4096) as H4096
    by (rewrite !N.Div0.div_div; reflexivity).
  assert (n / 16 / 16 = n / 256) as H256 by (rewrite N.Div0.div_div; reflexivity).
  assert (n / 4096 < 16) by (apply N.Div0.div_lt_upper_bound; lia).
  rewrite <- H4096, <- H256 in *.
  pose proof (N.mod_small (n / 16 / 16 / 16) 16 ltac:(assumption)).
  lia.
Qed.

(** *** Surrogate pairs *)

Lemma lor_low k a : a < 1024 -> N.lor (k * 1024) a = k * 1024 + a.
Proof.
  intros Ha.
  assert (Hland : N.land (k * 1024) a = 0).
  { apply N.bits_inj. intros i. rewrite N.land_spec, N.bits_0.
    destruct (N.lt_ge_cases i 10) as [Hi|Hi].
    - change 1024 with (2 ^ 10). rewrite N.mul_pow2_bits_low by exact Hi. reflexivity.
    - rewrite <- (N.mod_small a (2 ^ 10)) by exact Ha.
      rewrite N.mod_pow2_bits_high by exact Hi. apply andb_false_r. }
  rewrite <- N.lxor_lor by exact Hland.
  symmetry. apply N.add_nocarry_lxor. exact Hland.
Qed.

Lemma land_1023 x : N.land x 1023 = x mod 1024.
Proof. change 1023 with (N.ones 10). rewrite N.land_ones. reflexivity. Qed.

Lemma shiftr_10 x : N.shiftr x 10 = x / 1024.
Proof. rewrite N.shiftr_div_pow2. reflexivity. Qed.

Lemma shiftl_10 x : N.shiftl x 10 = x * 1024.
Proof. rewrite N.shiftl_mul_pow2. reflexivity. Qed.

(** The two halves the encoder writes for a character outside the
    basic plane, and the character the decoder makes of them. *)
Lemma surrogate_halves c :
  65536 <= c < 1114112 ->
  let hi := N.lor 55296 (N.land (N.shiftr (c - 65536) 10) 1023) in
  let lo := N.lor 56320 (N.land (c - 65536) 1023) in
  hi < 65536 /\ lo < 65536 /\ is_high hi = true /\ is_low lo = true
  /\ 65536 + N.lor (N.shiftl (hi - 55296) 10) (lo - 56320) = c.
Proof.
  intros Hc hi lo.
  set (v := c - 65536) in *.
  assert (Hv : v < 1048576) by (unfold v; lia).
  assert (Hdiv : v / 1024 < 1024) by (apply N.Div0.div_lt_upper_bound; lia).
  assert (Hmod : v mod 1024 < 1024) by (apply N.mod_lt; lia).
  assert (Hhi : hi = 55296 + v / 1024).
  { unfold hi. rewrite shiftr_10, land_1023, (N.mod_small _ _ Hdiv).
    change 55296 with (54 * 1024). apply lor_low. exact Hdiv. }
  assert (Hlo : lo = 56320 + v mod 1024).
  { unfold lo. rewrite land_1023.
    change 56320 with (55 * 1024). apply lor_low. exact Hmod. }
  rewrite Hhi, Hlo. clear Hhi Hlo hi lo.
  pose proof (N.div_mod v 1024 ltac:(lia)) as Hsplit.
  assert (Hc' : c = 65536 + v) by (unfold v; lia).
  clearbody v.
  set (a := v / 1024) in *. set (b := v mod 1024) in *. clearbody a b.
  split; [lia|]. split; [lia|].
  split; [unfold is_high; apply andb_true_iff; split; apply N.leb_le; lia|].
  split; [unfold is_low; apply andb_true_iff; split; apply N.leb_le; lia|].
  replace (55296 + a - 55296) with a by lia.
  replace (56320 + b - 56320) with b by lia.
  rewrite shiftl_10, lor_low by exact Hmod. lia.
Qed.

(** *** Strings *)

(** The four ways a character is written. *)
Lemma escape_char_cases c :
  (exists e, escape_char c = [92; e] /\ (e =? 117) = false /\ unescape e = Some c)
  \/ (escape_char c = [c] /\ (c =? 34) = false /\ (c =? 92) = false
      /\ (c <? 32) = false)
  \/ (escape_char c = escape_u c /\ c < 65536)
  \/ (escape_char c
        = escape_u (N.lor 55296 (N.land (N.shiftr (c - 65536) 10) 1023))
          ++ escape_u (N.lor 56320 (N.land (c - 65536) 1023))
      /\ 65536 <= c).
Proof.
  unfold escape_char.
  destruct (N.eqb_spec c 34) as [->|H34]; [left; eexists; repeat split; reflexivity|].
  destruct (N.eqb_spec c 92) as [->|H92]; [left; eexists; repeat split; reflexivity|].
  destruct (N.eqb_spec c 10) as [->|H10]; [left; eexists; repeat split; reflexivity|].
  destruct (N.eqb_spec c 13) as [->|H13]; [left; eexists; repeat split; reflexivity|].
  destruct (N.eqb_spec c 9) as [->|H9]; [left; eexists; repeat split; reflexivity|].
  destruct (N.eqb_spec c 12) as [->|H12]; [left; eexists; repeat split; reflexivity|].
  destruct (N.eqb_spec c 8) as [->|H8]; [left; eexists; repeat split; reflexivity|].
  destruct ((32 <=? c) && (c <=? 126))%bool eqn:Hplain.
  - right. left. apply andb_true_iff in Hplain as [Hlo _]. apply N.leb_le in Hlo.
    split; [reflexivity|]. split; [reflexivity|]. split; [reflexivity|].
    apply N.ltb_ge. exact Hlo.
  - destruct (N.ltb_spec c 65536) as [Hbmp|Hbig].
    + right. right. left. auto.
    + right. right. right. auto.
Qed.

Lemma scan_string_cons c r :
  scan_string (c :: r)
  = if c =? 34 then Some ([], r)
    else if c =? 92 then
      match r with
      | [] => None
      | e :: r1 =>
          if e =? 117 then
            match r1 with
            | h1 :: h2 :: h3 :: h4 :: r2 =>
                u ← hex4 h1 h2 h3 h4;
                let single := '(t, r') ← scan_string r2; Some (u :: t, r') in
                if is_high u then
                  after_high r2 single
                    (fun u2 r4 =>
                       '(t, r') ← scan_string r4;
                       Some (65536 + N.lor (N.shiftl (u - 55296) 10) (u2 - 56320) :: t, r'))
                    None
                else single
            | _ => None
            end
          else
            ch ← unescape e;
            '(t, r') ← scan_string r1;
            Some (ch :: t, r')
      end
    else if c <? 32 then None
    else '(t, r') ← scan_string r; Some (c :: t, r').
Proof. reflexivity. Qed.

(** The scanner on a [\\uXXXX] escape. *)
Lemma scan_string_escape_u n r2 :
  n < 65536 ->
  scan_string (escape_u n ++ r2)
  = let single := '(t, r') ← scan_string r2; Some (n :: t, r') in
    if is_high n then
      after_high r2 single
        (fun u2 r4 =>
           '(t, r') ← scan_string r4;
           Some (65536 + N.lor (N.shiftl (n - 55296) 10) (u2 - 56320) :: t, r'))
        None
    else single.
Proof.
  intros Hn. unfold escape_u. cbn [app].
  rewrite scan_string_cons. cbn [N.eqb Pos.eqb].
  rewrite hex4_digits by exact Hn. reflexivity.
Qed.

(** When the high surrogate stands alone. *)
Lemma after_high_other {A} b r (single : A) pair bad :
  (b =? 92) = false -> after_high (b :: r) single pair bad = single.
Proof.
  intros Hb. destruct r as [|e2 [|g1 [|g2 [|g3 [|g4 r4]]]]]; simpl; try reflexivity.
  rewrite Hb. reflexivity.
Qed.

Lemma after_high_short {A} b e2 r (single : A) pair bad :
  (e2 =? 117) = false -> after_high (b :: e2 :: r) single pair bad = single.
Proof.
  intros He. destruct r as [|g1 [|g2 [|g3 [|g4 r4]]]]; simpl; try reflexivity.
  rewrite He, andb_false_r. reflexivity.
Qed.

Lemma after_high_escape_u {A} n r (single : A) pair bad :
  n < 65536 ->
  after_high (escape_u n ++ r) single pair bad
  = if is_low n then pair n r else single.
Proof.
  intros Hn. unfold escape_u. cbn [app after_high N.eqb Pos.eqb andb].
  rewrite hex4_digits by exact Hn. reflexivity.
Qed.

Lemma high_not_low u : is_high u = true -> is_low u = false.
Proof.
  unfold is_high, is_low. intros H. apply andb_true_iff in H as [_ H].
  apply N.leb_le in H. apply andb_false_iff. left. apply N.leb_gt. lia.
Qed.

(** The text after a high surrogate that stands alone in a string does
    not read as the other half of a pair. *)
Lemma after_high_single {A} s tail (single : A) pair bad :
  Forall (fun c => c < 1114112) s ->
  match s with c' :: _ => is_low c' = false | [] => True end ->
  after_high (flat_map escape_char s ++ 34 :: tail) single pair bad = single.
Proof.
  intros Hall Hhead. destruct s as [|c' s]; [apply after_high_other; reflexivity|].
  cbn [flat_map]. rewrite <- app_assoc.
  apply Forall_cons in Hall as [Hc' _].
  destruct (escape_char_cases c')
    as [(e & -> & He & _)|[(-> & _ & H92 & _)|[(-> & Hbmp)|(-> & Hbig)]]].
  - apply after_high_short. exact He.
  - apply after_high_other. exact H92.
  - rewrite after_high_escape_u by exact Hbmp. rewrite Hhead. reflexivity.
  - destruct (surrogate_halves c' ltac:(lia)) as (Hhi & _ & Hhigh & _).
    rewrite <- app_assoc, after_high_escape_u by exact Hhi.
    rewrite (high_not_low _ Hhigh). reflexivity.
Qed.

(** The scanner gives back the text of a string the encoder wrote. *)
Lemma scan_string_dump s : forall tail,
  text_ok s ->
  scan_string (flat_map escape_char s ++ 34 :: tail) = Some (s, tail).
Proof.
  induction s as [|c s IH]; intros tail [Hall Hpair]; [reflexivity|].
  cbn [flat_map]. rewrite <- app_assoc.
  pose proof Hall as Hall'. apply Forall_cons in Hall' as [Hc Hs].
  destruct Hpair as [Hnext Hpair].
  specialize (IH tail (conj Hs Hpair)).
  destruct (escape_char_cases c)
    as [(e & -> & He & Hun)|[(-> & H34 & H92 & H32)|[(-> & Hbmp)|(-> & Hbig)]]].
  - cbn [app]. rewrite scan_string_cons. cbn [N.eqb Pos.eqb].
    rewrite He, Hun. simpl. rewrite IH. reflexivity.
  - cbn [app]. rewrite scan_string_cons, H34, H92, H32, IH. reflexivity.
  - rewrite scan_string_escape_u by exact Hbmp. cbv zeta. rewrite IH.
    destruct (is_high c) eqn:Hhigh; [|reflexivity].
    apply after_high_single; [exact Hs|].
    destruct s as [|c' s]; [exact I|].
    destruct (is_low c') eqn:Hlow; [|reflexivity].
    exfalso. apply Hnext. auto.
  - destruct (surrogate_halves c ltac:(lia)) as (Hhi & Hlo & Hhigh & Hlow & Hjoin).
    rewrite <- app_assoc, scan_string_escape_u by exact Hhi. cbv zeta.
    rewrite Hhigh, after_high_escape_u by exact Hlo.
    rewrite Hlow, IH, Hjoin. reflexivity.
Qed.

(** *** Integers *)

Lemma scan_digits_text d : forall rest,
  no_digit rest -> scan_digits (uint_text d ++ rest) = (d, rest).
Proof.
  induction d; intros rest Hrest; cbn [uint_text app scan_digits];
    try (unfold digit_of at 1; cbn [N.eqb Pos.eqb]; rewrite IHd by exact Hrest;
         reflexivity).
  destruct rest as [|c r]; [reflexivity|].
  cbn [scan_digits]. simpl in Hrest. rewrite Hrest. reflexivity.
Qed.

(** The numeral of a positive number does not start with a zero. *)
Lemma to_uint_head p :
  exists c r, uint_text (Pos.to_uint p) = c :: r
    /\ (c =? 48) = false /\ ((49 <=? c) && (c <=? 57))%bool = true /\ (c =? 45) = false.
Proof.
  assert (Hnorm : Decimal.unorm (Pos.to_uint p) = Pos.to_uint p).
  { rewrite <- DecimalPos.Unsigned.to_of, DecimalPos.Unsigned.of_to. reflexivity. }
  pose proof (DecimalPos.Unsigned.to_uint_nonnil p) as Hnil.
  pose proof (DecimalPos.Unsigned.to_uint_nonzero p) as Hzero.
  destruct (Pos.to_uint p) as [|d|d|d|d|d|d|d|d|d|d] eqn:E;
    try (eexists _, _; repeat split; reflexivity).
  - congruence.
  - exfalso. rewrite unorm_D0 in Hnorm.
    destruct d as [|d|d|d|d|d|d|d|d|d|d]; [apply Hzero; reflexivity| ..];
      match type of Hnorm with
      | Decimal.unorm ?u = _ =>
          pose proof (nb_digits_unorm u ltac:(discriminate)) as Hlen;
          rewrite Hnorm in Hlen; simpl in Hlen; lia
      end.
Qed.

Lemma scan_natural_pos p rest :
  no_digit rest ->
  scan_natural (uint_text (Pos.to_uint p) ++ rest) = Some (Z.pos p, rest).
Proof.
  intros Hrest. destruct (to_uint_head p) as (c & r & Htext & H48 & Hdigit & _).
  unfold scan_natural. rewrite Htext. cbn [app]. rewrite H48, Hdigit.
  change (c :: r ++ rest) with ((c :: r) ++ rest). rewrite <- Htext.
  rewrite scan_digits_text by exact Hrest.
  unfold Z.of_uint. rewrite DecimalPos.Unsigned.of_to. reflexivity.
Qed.

(** The scanner gives back the integer the encoder wrote. *)
Lemma scan_number_dump z rest :
  no_digit rest -> scan_number (str_int z ++ rest) = Some (z, rest).
Proof.
  intros Hrest. unfold str_int. destruct z as [|p|p]; cbn [Z.to_int].
  - reflexivity.
  - destruct (to_uint_head p) as (c & r & Htext & _ & _ & H45).
    unfold scan_number. rewrite Htext. cbn [app]. rewrite H45.
    change (c :: r ++ rest) with ((c :: r) ++ rest). rewrite <- Htext.
    apply scan_natural_pos. exact Hrest.
  - unfold scan_number. cbn [app N.eqb Pos.eqb].
    rewrite scan_natural_pos by exact Hrest. reflexivity.
Qed.

(** The first character of the numeral of an integer: none of those
    that start another kind of value. *)
Lemma str_int_head z :
  exists c r, str_int z = c :: r
    /\ (c =? 34) = false /\ (c =? 123) = false /\ (c =? 91) = false
    /\ (c =? 110) = false /\ (c =? 116) = false /\ (c =? 102) = false
    /\ (c =? 93) = false /\ is_ws c = false.
Proof.
  unfold str_int. destruct z as [|p|p]; cbn [Z.to_int];
    try (eexists _, _; repeat split; reflexivity).
  destruct (to_uint_head p) as (c & r & Htext & _ & Hdigit & _).
  exists c, r. split; [exact Htext|].
  apply andb_true_iff in Hdigit as [Hlo Hhi].
  apply N.leb_le in Hlo. apply N.leb_le in Hhi.
  unfold is_ws.
  repeat split; try (apply N.eqb_neq; lia).
  repeat (apply orb_false_iff; split); apply N.eqb_neq; lia.
Qed.

(** *** Values *)

(** Induction over a value and the values inside it. *)
Lemma json_induction (P : json -> Prop) :
  P JNull ->
  (forall b, P (JBool b)) ->
  (forall n, P (JInt n)) ->
  (forall s, P (JStr s)) ->
  (forall items, Forall P items -> P (JList items)) ->
  (forall items, Forall (fun kv => P (snd kv)) items -> P (JDict items)) ->
  forall v, P v.
Proof.
  intros Hnull Hbool Hint Hstr Hlist Hdict.
  fix IH 1. intros [|b|n|s|items|items].
  - exact Hnull.
  - apply Hbool.
  - apply Hint.
  - apply Hstr.
  - apply Hlist. induction items as [|x items IHitems]; constructor; [apply IH|exact IHitems].
  - apply Hdict. induction items as [|kv items IHitems]; constructor;
      [apply IH|exact IHitems].
Qed.

Lemma json_ok_list items : json_ok (JList items) <-> Forall json_ok items.
Proof.
  induction items as [|x items IH]; [split; [constructor|exact (fun _ => I)]|].
  change (json_ok (JList (x :: items))) with (json_ok x /\ json_ok (JList items)).
  rewrite IH. split.
  - intros [Hx Hrest]. constructor; assumption.
  - intros Hall. apply Forall_cons in Hall. exact Hall.
Qed.

Lemma json_ok_members items :
  (fix all (l : list (pystr * json)) : Prop :=
     match l with
     | [] => True
     | kv :: rest => (text_ok (fst kv) /\ json_ok (snd kv)) /\ all rest
     end) items
  <-> Forall (fun kv => text_ok (fst kv) /\ json_ok (snd kv)) items.
Proof.
  induction items as [|kv items IH]; [split; [constructor|exact (fun _ => I)]|].
  split.
  - intros [Hkv Hrest]. constructor; [exact Hkv|apply IH, Hrest].
  - intros Hall. apply Forall_cons in Hall as [Hkv Hrest].
    split; [exact Hkv|apply IH, Hrest].
Qed.

Lemma json_ok_dict items :
  json_ok (JDict items)
  <-> NoDup (map fst items)
      /\ Forall (fun kv => text_ok (fst kv) /\ json_ok (snd kv)) items.
Proof.
  change (json_ok (JDict items)) with
    (NoDup (map fst items)
     /\ (fix all (l : list (pystr * json)) : Prop :=
           match l with
           | [] => True
           | kv :: rest => (text_ok (fst kv) /\ json_ok (snd kv)) /\ all rest
           end) items).
  rewrite json_ok_members. reflexivity.
Qed.

(** White space *)
Lemma skip_ws_indent level c r :
  is_ws c = false -> skip_ws (newline_indent level ++ c :: r) = c :: r.
Proof.
  intros Hc. unfold newline_indent. cbn [app skip_ws is_ws N.eqb Pos.eqb orb].
  induction (2 * level)%nat as [|n IH]; cbn [repeat app skip_ws].
  - rewrite Hc. reflexivity.
  - exact IH.
Qed.

Lemma skip_ws_head c r : is_ws c = false -> skip_ws (c :: r) = c :: r.
Proof. intros Hc. cbn [skip_ws]. rewrite Hc. reflexivity. Qed.

Lemma no_digit_indent level r : no_digit (newline_indent level ++ r).
Proof. reflexivity. Qed.

(** The first character of the text of a value. *)
Lemma dump_head v level :
  exists c r, dump_at level v = c :: r /\ is_ws c = false /\ (c =? 93) = false.
Proof.
  destruct v as [|[]|n|s|[|x items]|[|kv items]];
    try (eexists _, _; repeat split; reflexivity).
  destruct (str_int_head n) as (c & r & Htext & _ & _ & _ & _ & _ & _ & H93 & Hws).
  exists c, r. auto.
Qed.

(** [dict(pairs)] of pairs without a repeated key is the pairs. *)
Lemma assoc_set_new key x items :
  ~ In key (map fst items) -> assoc_set key x items = items ++ [(key, x)].
Proof.
  induction items as [|[k v] items IH]; intros Hnew; [reflexivity|].
  cbn [assoc_set]. rewrite decide_False by (intros ->; apply Hnew; left; reflexivity).
  rewrite IH by (intros Hin; apply Hnew; right; exact Hin). reflexivity.
Qed.

Lemma dict_of_pairs_nodup pairs : NoDup (map fst pairs) -> dict_of_pairs pairs = pairs.
Proof.
  unfold dict_of_pairs.
  assert (Hgen : forall acc,
            NoDup (map fst (acc ++ pairs)) ->
            fold_left (fun d kv => assoc_set (fst kv) (snd kv) d) pairs acc = acc ++ pairs).
  { induction pairs as [|[k v] pairs IH]; intros acc Hacc; cbn [fold_left].
    - rewrite app_nil_r. reflexivity.
    - cbn [fst snd]. rewrite assoc_set_new.
      + rewrite IH.
        * rewrite <- List.app_assoc. reflexivity.
        * rewrite <- List.app_assoc. exact Hacc.
      + rewrite map_app in Hacc. apply NoDup_app in Hacc as (_ & Hdisj & _).
        intros Hin. apply (Hdisj k); [apply list_elem_of_In; exact Hin|].
        left. }
  intros Hnodup. apply (Hgen []). exact Hnodup.
Qed.

(** One turn of each scanner. *)
Lemma scan_items_S fuel s :
  scan_items (S fuel) s
  = '(v, r) ← scan_value fuel s;
    match skip_ws r with
    | c :: r' =>
        if c =? 93 then Some ([v], r')
        else if c =? 44 then
          '(vs, r'') ← scan_items fuel (skip_ws r'); Some (v :: vs, r'')
        else None
    | [] => None
    end.
Proof. reflexivity. Qed.

Lemma scan_members_S fuel s :
  scan_members (S fuel) s
  = '(key, r) ← scan_string s;
    match skip_ws r with
    | c :: r1 =>
        if c =? 58 then
          '(v, r2) ← scan_value fuel (skip_ws r1);
          match skip_ws r2 with
          | c' :: r3 =>
              if c' =? 125 then Some ([(key, v)], r3)
              else if c' =? 44 then
                match skip_ws r3 with
                | q :: r4 =>
                    if q =? 34 then
                      '(kvs, r5) ← scan_members fuel r4; Some ((key, v) :: kvs, r5)
                    else None
                | [] => None
                end
              else None
          | [] => None
          end
        else None
    | [] => None
    end.
Proof. reflexivity. Qed.

Lemma scan_value_list fuel r :
  scan_value (S fuel) (91 :: r)
  = match skip_ws r with
    | c' :: r' =>
        if c' =? 93 then Some (JList [], r')
        else '(items, r'') ← scan_items fuel (c' :: r'); Some (JList items, r'')
    | [] => None
    end.
Proof. reflexivity. Qed.

Lemma scan_value_dict fuel r :
  scan_value (S fuel) (123 :: r)
  = match skip_ws r with
    | c' :: r' =>
        if c' =? 125 then Some (JDict [], r')
        else if c' =? 34 then
          '(pairs, r'') ← scan_members fuel r';
          Some (JDict (dict_of_pairs pairs), r'')
        else None
    | [] => None
    end.
Proof. reflexivity. Qed.

Lemma join_cons sep p q rest :
  join sep (p :: q :: rest) = p ++ sep ++ join sep (q :: rest).
Proof. reflexivity. Qed.

Lemma join_items_head sep level x items :
  exists c r, join sep (map (dump_at level) (x :: items)) = c :: r
    /\ is_ws c = false /\ (c =? 93) = false.
Proof.
  destruct (dump_head x level) as (c & r & Hx & Hws & H93).
  destruct items as [|y items]; cbn [map].
  - exists c, r. auto.
  - rewrite join_cons, Hx. eexists _, _. split; [reflexivity|]. auto.
Qed.

Lemma join_members_head sep level kv items :
  exists r, join sep (map (member_text level) (kv :: items)) = 34 :: r.
Proof.
  destruct items as [|kv' items]; cbn [map].
  - eexists. reflexivity.
  - rewrite join_cons. eexists. reflexivity.
Qed.

(** The items of an array, read back. *)
Lemma scan_items_dump level items :
  Forall reads_back items -> items <> [] -> Forall json_ok items ->
  forall fuel rest,
    (items_size items <= fuel)%nat ->
    scan_items fuel
      (join (44 :: newline_indent (S level)) (map (dump_at (S level)) items)
       ++ newline_indent level ++ 93 :: rest)
    = Some (items, rest).
Proof.
  induction items as [|x items IH]; intros Hread Hne Hok fuel rest Hfuel; [congruence|].
  apply Forall_cons in Hread as [Hx Hread]. apply Forall_cons in Hok as [Hokx Hok].
  change (items_size (x :: items)) with (S (size x + items_size items)) in Hfuel.
  destruct fuel as [|fuel]; [lia|]. rewrite scan_items_S.
  destruct items as [|y items].
  - cbn [map join].
    rewrite (Hx (S level) fuel _ Hokx ltac:(lia) (no_digit_indent _ _)).
    cbn [mbind option_bind]. rewrite skip_ws_indent by reflexivity. reflexivity.
  - cbn [map]. rewrite join_cons, <- !List.app_assoc.
    rewrite (Hx (S level) fuel _ Hokx ltac:(lia)) by reflexivity.
    cbn [mbind option_bind app]. rewrite skip_ws_head by reflexivity.
    cbn [N.eqb Pos.eqb].
    destruct (join_items_head (44 :: newline_indent (S level)) (S level) y items)
      as (c & r & Hjoin & Hws & _).
    assert (Hskip : forall tail,
      skip_ws (newline_indent (S level)
               ++ join (44 :: newline_indent (S level)) (map (dump_at (S level)) (y :: items))
               ++ tail)
      = join (44 :: newline_indent (S level)) (map (dump_at (S level)) (y :: items)) ++ tail).
    { intros tail. rewrite Hjoin. cbn [app]. apply skip_ws_indent. exact Hws. }
    cbn [map] in Hskip. rewrite Hskip.
    assert (Hrest : (items_size (y :: items) <= fuel)%nat) by lia.
    pose proof (IH Hread ltac:(discriminate) Hok fuel rest Hrest) as IH'.
    cbn [map] in IH'. rewrite IH'. reflexivity.
Qed.

Lemma skip_space_value v level tail :
  skip_ws (32 :: dump_at level v ++ tail) = dump_at level v ++ tail.
Proof.
  destruct (dump_head v level) as (c & r & -> & Hws & _).
  cbn [skip_ws is_ws N.eqb Pos.eqb orb app]. rewrite Hws. reflexivity.
Qed.

Lemma member_text_eq level k v :
  member_text level (k, v)
  = 34 :: flat_map escape_char k ++ 34 :: 58 :: 32 :: dump_at level v.
Proof.
  unfold member_text, dump_str. cbn [fst snd].
  rewrite <- app_comm_cons, <- List.app_assoc. reflexivity.
Qed.

(** The members of an object, read back. *)
Lemma scan_members_dump level items :
  Forall (fun kv => reads_back (snd kv)) items -> items <> [] ->
  Forall (fun kv => text_ok (fst kv) /\ json_ok (snd kv)) items ->
  forall fuel rest text,
    (members_size items <= fuel)%nat ->
    join (44 :: newline_indent (S level)) (map (member_text (S level)) items) = 34 :: text ->
    scan_members fuel (text ++ newline_indent level ++ 125 :: rest) = Some (items, rest).
Proof.
  induction items as [|[k v] items IH]; intros Hread Hne Hok fuel rest text Hfuel Htext;
    [congruence|].
  apply Forall_cons in Hread as [Hv Hread]. apply Forall_cons in Hok as [[Hokk Hokv] Hok].
  cbn [fst snd] in Hv, Hokk, Hokv.
  change (members_size ((k, v) :: items)) with (S (size v + members_size items)) in Hfuel.
  destruct fuel as [|fuel]; [lia|]. rewrite scan_members_S.
  destruct items as [|kv' items].
  - assert (Heq : 34 :: text
                  = 34 :: flat_map escape_char k ++ 34 :: 58 :: 32 :: dump_at (S level) v).
    { rewrite <- Htext. cbn [map join]. apply member_text_eq. }
    assert (text = flat_map escape_char k ++ 34 :: 58 :: 32 :: dump_at (S level) v)
      as -> by congruence.
    clear Heq Htext.
    rewrite <- List.app_assoc, <- !app_comm_cons.
    rewrite scan_string_dump by exact Hokk.
    cbn [mbind option_bind]. rewrite skip_ws_head by reflexivity. cbn [N.eqb Pos.eqb].
    rewrite skip_space_value.
    rewrite (Hv (S level) fuel _ Hokv ltac:(lia) (no_digit_indent _ _)).
    cbn [mbind option_bind]. rewrite skip_ws_indent by reflexivity. reflexivity.
  - set (sep := 44 :: newline_indent (S level)) in *.
    set (more := join sep (map (member_text (S level)) (kv' :: items))) in *.
    assert (Heq : 34 :: text
                  = 34 :: flat_map escape_char k
                          ++ 34 :: 58 :: 32 :: dump_at (S level) v ++ sep ++ more).
    { rewrite <- Htext. cbn [map]. rewrite join_cons, member_text_eq.
      rewrite <- app_comm_cons, <- List.app_assoc, <- !app_comm_cons.
      reflexivity. }
    assert (text = flat_map escape_char k
                   ++ 34 :: 58 :: 32 :: dump_at (S level) v ++ sep ++ more)
      as -> by congruence.
    clear Heq Htext.
    rewrite <- List.app_assoc, <- !app_comm_cons, <- !List.app_assoc.
    rewrite scan_string_dump by exact Hokk.
    cbn [mbind option_bind]. rewrite skip_ws_head by reflexivity. cbn [N.eqb Pos.eqb].
    rewrite skip_space_value.
    unfold sep at 1. rewrite <- app_comm_cons.
    rewrite (Hv (S level) fuel _ Hokv ltac:(lia)) by reflexivity.
    cbn [mbind option_bind]. rewrite skip_ws_head by reflexivity.
    cbn [N.eqb Pos.eqb].
    destruct (join_members_head sep (S level) kv' items) as (text' & Hjoin).
    assert (Hrest : (members_size (kv' :: items) <= fuel)%nat) by lia.
    pose proof (IH Hread ltac:(discriminate) Hok fuel rest text' Hrest Hjoin) as IH'.
    fold more in Hjoin. rewrite Hjoin, <- app_comm_cons.
    rewrite skip_ws_indent by reflexivity. cbn [N.eqb Pos.eqb].
    rewrite IH'. reflexivity.
Qed.

(** Every value is read back from its text. *)
Lemma scan_value_dump v : reads_back v.
Proof.
  induction v as [|b|n|s|items IH|items IH] using json_induction;
    intros level fuel rest Hok Hfuel Hrest.
  - destruct fuel as [|fuel]; [simpl in Hfuel; lia|]. reflexivity.
  - destruct fuel as [|fuel]; [simpl in Hfuel; lia|]. destruct b; reflexivity.
  - destruct fuel as [|fuel]; [simpl in Hfuel; lia|].
    cbn [dump_at].
    destruct (str_int_head n)
      as (c & r & Htext & H34 & H123 & H91 & H110 & H116 & H102 & _).
    pose proof (scan_number_dump n rest Hrest) as Hscan.
    rewrite Htext in *. cbn [app] in *. cbn [scan_value].
    rewrite H34, H123, H91, H110, H116, H102, Hscan. reflexivity.
  - destruct fuel as [|fuel]; [simpl in Hfuel; lia|].
    cbn [dump_at]. unfold dump_str. rewrite <- app_comm_cons, <- List.app_assoc.
    cbn [scan_value N.eqb Pos.eqb app].
    rewrite scan_string_dump by exact Hok. reflexivity.
  - destruct fuel as [|fuel]; [simpl in Hfuel; lia|].
    destruct items as [|x items]; [reflexivity|].
    change (dump_at level (JList (x :: items)))
      with (91 :: newline_indent (S level)
            ++ join (44 :: newline_indent (S level)) (map (dump_at (S level)) (x :: items))
            ++ newline_indent level ++ [93]).
    rewrite <- app_comm_cons, <- !List.app_assoc. rewrite scan_value_list.
    change ([93] ++ rest) with (93 :: rest).
    destruct (join_items_head (44 :: newline_indent (S level)) (S level) x items)
      as (c & r & Hjoin & Hws & H93).
    pose proof (scan_items_dump level (x :: items) IH ltac:(discriminate)
                  (proj1 (json_ok_list _) Hok) fuel rest) as Hitems.
    rewrite Hjoin in *. rewrite <- app_comm_cons in *.
    rewrite skip_ws_indent by exact Hws. rewrite H93.
    rewrite Hitems; [reflexivity|].
    change (size (JList (x :: items))) with (S (items_size (x :: items))) in Hfuel. lia.
  - destruct fuel as [|fuel]; [simpl in Hfuel; lia|].
    destruct items as [|kv items]; [reflexivity|].
    change (dump_at level (JDict (kv :: items)))
      with (123 :: newline_indent (S level)
            ++ join (44 :: newline_indent (S level))
                 (map (member_text (S level)) (kv :: items))
            ++ newline_indent level ++ [125]).
    rewrite <- app_comm_cons, <- !List.app_assoc. rewrite scan_value_dict.
    change ([125] ++ rest) with (125 :: rest).
    destruct (join_members_head (44 :: newline_indent (S level)) (S level) kv items)
      as (text & Hjoin).
    apply json_ok_dict in Hok as [Hnodup Hok].
    pose proof (scan_members_dump level (kv :: items) IH ltac:(discriminate) Hok
                  fuel rest text) as Hmembers.
    rewrite Hjoin. rewrite <- app_comm_cons.
    rewrite skip_ws_indent by reflexivity. cbn [N.eqb Pos.eqb].
    rewrite Hmembers; [|
      change (size (JDict (kv :: items))) with (S (members_size (kv :: items))) in Hfuel;
      lia | exact Hjoin].
    cbn [mbind option_bind]. rewrite dict_of_pairs_nodup by exact Hnodup. reflexivity.
Qed.

(** *** Fuel *)






(** *** What the decoder builds *)

Lemma hex_value_range c h : hex_value c = Some h -> h < 16.
Proof.
  unfold hex_value.
  destruct ((48 <=? c) && (c <=? 57))%bool eqn:E1.
  { apply andb_true_iff in E1 as [H1 H2]. apply N.leb_le in H1, H2.
    intros [= <-]. lia. }
  destruct ((97 <=? c) && (c <=? 102))%bool eqn:E2.
  { apply andb_true_iff in E2 as [H1 H2]. apply N.leb_le in H1, H2.
    intros [= <-]. lia. }
  destruct ((65 <=? c) && (c <=? 70))%bool eqn:E3; [|discriminate].
  apply andb_true_iff in E3 as [H1 H2]. apply N.leb_le in H1, H2.
  intros [= <-]. lia.
Qed.

Lemma hex4_range a b c d u : hex4 a b c d = Some u -> u < 65536.
Proof.
  unfold hex4.
  destruct (hex_value a) as [x|] eqn:Ha; [|discriminate].
  destruct (hex_value b) as [y|] eqn:Hb; [|discriminate].
  destruct (hex_value c) as [z|] eqn:Hc; [|discriminate].
  destruct (hex_value d) as [t|] eqn:Hd; [|discriminate].
  apply hex_value_range in Ha, Hb, Hc, Hd.
  cbn [mbind option_bind]. intros [= <-]. lia.
Qed.

Lemma unescape_ascii e ch : unescape e = Some ch -> ch < 128.
Proof.
  unfold unescape.
  repeat match goal with
         | |- context [if ?b then _ else _] => destruct b
         end; intros [= <-]; lia.
Qed.

Lemma is_high_range u : is_high u = true -> 55296 <= u <= 56319.
Proof.
  unfold is_high. intros H. apply andb_true_iff in H as [H1 H2].
  apply N.leb_le in H1, H2. lia.
Qed.

Lemma is_low_range u : is_low u = true -> 56320 <= u <= 57343.
Proof.
  unfold is_low. intros H. apply andb_true_iff in H as [H1 H2].
  apply N.leb_le in H1, H2. lia.
Qed.

(** The character a pair of surrogates stands for lies outside the
    basic plane and within Unicode. *)
Lemma joined_range u u2 :
  is_high u = true -> is_low u2 = true ->
  65536 <= 65536 + N.lor (N.shiftl (u - 55296) 10) (u2 - 56320) < 1114112.
Proof.
  intros Hu Hu2. apply is_high_range in Hu. apply is_low_range in Hu2.
  rewrite shiftl_10, lor_low by lia. lia.
Qed.

(** The three ways the look ahead after a high surrogate can go. *)
Lemma after_high_cases {A} r2 (single : A) pair bad :
  (after_high r2 single pair bad = single
   /\ forall g1 g2 g3 g4 r4 u2,
        r2 = 92 :: 117 :: g1 :: g2 :: g3 :: g4 :: r4 ->
        hex4 g1 g2 g3 g4 = Some u2 -> is_low u2 = false)
  \/ (exists g1 g2 g3 g4 r4 u2,
        r2 = 92 :: 117 :: g1 :: g2 :: g3 :: g4 :: r4
        /\ hex4 g1 g2 g3 g4 = Some u2 /\ is_low u2 = true
        /\ after_high r2 single pair bad = pair u2 r4)
  \/ after_high r2 single pair bad = bad.
Proof.
  destruct r2 as [|b [|e2 [|g1 [|g2 [|g3 [|g4 r4]]]]]];
    try (left; split; [reflexivity|intros; discriminate]).
  cbn [after_high].
  destruct (N.eqb_spec b 92) as [->|Hb];
    [|left; split; [reflexivity|intros ? ? ? ? ? ? [=]; congruence]].
  destruct (N.eqb_spec e2 117) as [->|He];
    [|left; split; [reflexivity|intros ? ? ? ? ? ? [=]; congruence]].
  cbn [andb].
  destruct (hex4 g1 g2 g3 g4) as [u2|] eqn:Hhex; [|right; right; reflexivity].
  destruct (is_low u2) eqn:Hlow.
  - right. left. exists g1, g2, g3, g4, r4, u2. auto.
  - left. split; [reflexivity|].
    intros ? ? ? ? ? ? [= <- <- <- <- <-] Hhex'. congruence.
Qed.

Lemma scalar_not_surrogate c : scalar c -> is_high c = false /\ is_low c = false.
Proof.
  intros Hc. unfold is_high, is_low. split; apply andb_false_iff;
    destruct Hc as [Hc|[Hc _]];
    first [left; apply N.leb_gt; lia | right; apply N.leb_gt; lia].
Qed.

Lemma text_ok_cons c t :
  c < 1114112 ->
  (is_high c = true -> match t with c' :: _ => is_low c' = false | [] => True end) ->
  text_ok t -> text_ok (c :: t).
Proof.
  intros Hc Hnext [Hall Hpair]. split; [constructor; assumption|].
  split; [|exact Hpair].
  destruct t as [|c' t]; [exact I|].
  intros [Hhigh Hlow]. rewrite (Hnext Hhigh) in Hlow. discriminate.
Qed.

(** A string the decoder builds from a decoded text: its characters are
    code points, no high surrogate stands before a low one, and a low
    surrogate at its head comes from an escape at the head of the
    text. *)
Lemma scan_string_ok n : forall s t r,
  (length s <= n)%nat -> decoded s -> scan_string s = Some (t, r) ->
  text_ok t /\ decoded r
  /\ match t with
     | c' :: _ =>
         is_low c' = true ->
         exists g1 g2 g3 g4 r4,
           s = 92 :: 117 :: g1 :: g2 :: g3 :: g4 :: r4 /\ hex4 g1 g2 g3 g4 = Some c'
     | [] => True
     end.
Proof.
  induction n as [|n IH]; intros s t r Hlen Hdec Hscan.
  { destruct s; [discriminate|simpl in Hlen; lia]. }
  destruct s as [|c r0]; [discriminate|].
  rewrite scan_string_cons in Hscan. cbn [length] in Hlen.
  apply Forall_cons in Hdec as [Hc Hr0].
  destruct (N.eqb_spec c 34) as [->|H34].
  { injection Hscan as <- <-. split; [split; [constructor|exact I]|]. auto. }
  destruct (N.eqb_spec c 92) as [->|H92].
  - destruct r0 as [|e r1]; [discriminate|].
    apply Forall_cons in Hr0 as [_ Hr1]. cbn [length] in Hlen.
    destruct (N.eqb_spec e 117) as [->|H117].
    + destruct r1 as [|h1 [|h2 [|h3 [|h4 r2]]]]; try discriminate.
      cbn [length] in Hlen.
      assert (Hr2 : decoded r2).
      { repeat (apply Forall_cons in Hr1 as [_ Hr1]). exact Hr1. }
      destruct (hex4 h1 h2 h3 h4) as [u|] eqn:Hhex; [|discriminate].
      cbn [mbind option_bind] in Hscan. cbv zeta in Hscan.
      pose proof (hex4_range _ _ _ _ _ Hhex) as Hu.
      assert (Hsingle : forall t' r',
        scan_string r2 = Some (t', r') ->
        (is_high u = true -> match t' with c' :: _ => is_low c' = false | [] => True end) ->
        text_ok (u :: t') /\ decoded r'
        /\ (is_low u = true ->
            exists g1 g2 g3 g4 r4,
              92 :: 117 :: h1 :: h2 :: h3 :: h4 :: r2
              = 92 :: 117 :: g1 :: g2 :: g3 :: g4 :: r4
              /\ hex4 g1 g2 g3 g4 = Some u)).
      { intros t' r' Hscan' Hnext.
        destruct (IH r2 t' r' ltac:(lia) Hr2 Hscan') as (Hok & Hdec' & _).
        split; [apply text_ok_cons; [lia|exact Hnext|exact Hok]|].
        split; [exact Hdec'|]. intros _. eauto 10. }
      destruct (is_high u) eqn:Hhigh.
      * match type of Hscan with
        | after_high r2 ?single ?pair ?bad = _ =>
            destruct (after_high_cases r2 single pair bad)
              as [[Heq Hnolow]
                 |[(g1 & g2 & g3 & g4 & r4 & u2 & -> & Hhex2 & Hlow & Heq)|Heq]];
            rewrite Heq in Hscan; [| |discriminate]
        end.
        -- destruct (scan_string r2) as [[t' r']|] eqn:Hscan'; [|discriminate].
           cbn [mbind option_bind] in Hscan. injection Hscan as <- <-.
           apply Hsingle; [reflexivity|]. intros _.
           destruct (IH r2 t' r' ltac:(lia) Hr2 Hscan') as (_ & _ & Hhead).
           destruct t' as [|c' t']; [exact I|].
           destruct (is_low c') eqn:Hlow; [|reflexivity].
           destruct (Hhead eq_refl) as (g1 & g2 & g3 & g4 & r4 & Hr2eq & Hhex2).
           rewrite (Hnolow _ _ _ _ _ _ Hr2eq Hhex2) in Hlow. discriminate.
        -- assert (Hr4 : decoded r4).
           { repeat (apply Forall_cons in Hr2 as [_ Hr2]). exact Hr2. }
           cbn [length] in Hlen.
           destruct (scan_string r4) as [[t' r']|] eqn:Hscan'; [|discriminate].
           cbn [mbind option_bind] in Hscan. injection Hscan as <- <-.
           destruct (IH r4 t' r' ltac:(lia) Hr4 Hscan') as (Hok & Hdec' & _).
           pose proof (joined_range u u2 Hhigh Hlow) as Hjoined.
           split; [apply text_ok_cons; [lia| |exact Hok]|].
           { intros Hhigh'. apply is_high_range in Hhigh'. lia. }
           split; [exact Hdec'|].
           intros Hlow'. apply is_low_range in Hlow'. lia.
      * destruct (scan_string r2) as [[t' r']|] eqn:Hscan'; [|discriminate].
        cbn [mbind option_bind] in Hscan. injection Hscan as <- <-.
        apply Hsingle; [reflexivity|discriminate].
    + destruct (unescape e) as [ch|] eqn:Hun; [|discriminate].
      cbn [mbind option_bind] in Hscan.
      destruct (scan_string r1) as [[t' r']|] eqn:Hscan'; [|discriminate].
      cbn [mbind option_bind] in Hscan. injection Hscan as <- <-.
      destruct (IH r1 t' r' ltac:(lia) Hr1 Hscan') as (Hok & Hdec' & _).
      apply unescape_ascii in Hun.
      split; [apply text_ok_cons; [lia| |exact Hok]|].
      { intros Hhigh. apply is_high_range in Hhigh. lia. }
      split; [exact Hdec'|].
      intros Hlow. apply is_low_range in Hlow. lia.
  - destruct (c <? 32); [discriminate|].
    destruct (scan_string r0) as [[t' r']|] eqn:Hscan'; [|discriminate].
    cbn [mbind option_bind] in Hscan. injection Hscan as <- <-.
    destruct (IH r0 t' r' ltac:(lia) Hr0 Hscan') as (Hok & Hdec' & _).
    destruct (scalar_not_surrogate c Hc) as [Hnothigh Hnotlow].
    split; [apply text_ok_cons; [|rewrite Hnothigh; discriminate|exact Hok]|].
    { destruct Hc as [Hc|[_ Hc]]; lia. }
    split; [exact Hdec'|]. rewrite Hnotlow. discriminate.
Qed.

Lemma decoded_skip_ws s : decoded s -> decoded (skip_ws s).
Proof.
  induction s as [|c s IH]; intros Hs; [exact Hs|].
  cbn [skip_ws]. destruct (is_ws c); [|exact Hs].
  apply Forall_cons in Hs as [_ Hs]. apply IH, Hs.
Qed.

Lemma decoded_strip_prefix p : forall s r,
  decoded s -> strip_prefix p s = Some r -> decoded r.
Proof.
  induction p as [|a p IH]; intros s r Hs Hstrip.
  - injection Hstrip as <-. exact Hs.
  - destruct s as [|b s]; [discriminate|]. cbn [strip_prefix] in Hstrip.
    destruct (a =? b); [|discriminate].
    apply Forall_cons in Hs as [_ Hs]. exact (IH s r Hs Hstrip).
Qed.

Lemma decoded_scan_digits s : decoded s -> decoded (snd (scan_digits s)).
Proof.
  induction s as [|c s IH]; intros Hs; [exact Hs|].
  cbn [scan_digits]. destruct (digit_of c); [|exact Hs].
  apply Forall_cons in Hs as [_ Hs]. specialize (IH Hs).
  destruct (scan_digits s) as [d r']. exact IH.
Qed.

Lemma decoded_scan_natural s n r :
  decoded s -> scan_natural s = Some (n, r) -> decoded r.
Proof.
  intros Hs Hscan. destruct s as [|c s]; [discriminate|].
  unfold scan_natural in Hscan.
  destruct (c =? 48).
  { injection Hscan as _ <-. apply Forall_cons in Hs as [_ Hs]. exact Hs. }
  destruct ((49 <=? c) && (c <=? 57))%bool; [|discriminate].
  pose proof (decoded_scan_digits (c :: s) Hs) as Hrest.
  destruct (scan_digits (c :: s)) as [d r']. injection Hscan as _ <-. exact Hrest.
Qed.

Lemma decoded_scan_number s n r :
  decoded s -> scan_number s = Some (n, r) -> decoded r.
Proof.
  intros Hs Hscan. destruct s as [|c s]; [discriminate|].
  unfold scan_number in Hscan.
  destruct (c =? 45); [|exact (decoded_scan_natural _ _ _ Hs Hscan)].
  destruct (scan_natural s) as [[m r']|] eqn:Hnat; [|discriminate].
  cbn [mbind option_bind] in Hscan. injection Hscan as _ <-.
  apply Forall_cons in Hs as [_ Hs]. exact (decoded_scan_natural _ _ _ Hs Hnat).
Qed.

(** [d[key] = x] keeps the keys of a [dict] distinct, and keeps what
    holds of every item when it holds of the new one. *)
Lemma assoc_set_keys key x items k :
  In k (map fst (assoc_set key x items)) -> k = key \/ In k (map fst items).
Proof.
  induction items as [|[k0 v0] items IH]; cbn [assoc_set map fst In].
  - intros [<-|[]]. left. reflexivity.
  - destruct (decide (k0 = key)) as [->|Hne]; cbn [map fst In].
    + intros [<-|Hin]; [left; reflexivity|right; right; exact Hin].
    + intros [<-|Hin]; [right; left; reflexivity|].
      destruct (IH Hin) as [->|Hin']; [left; reflexivity|right; right; exact Hin'].
Qed.

Lemma assoc_set_nodup key x items :
  NoDup (map fst items) -> NoDup (map fst (assoc_set key x items)).
Proof.
  induction items as [|[k0 v0] items IH]; cbn [assoc_set map fst]; intros Hnodup.
  - apply NoDup_singleton.
  - apply NoDup_cons in Hnodup as [Hnew Hrest].
    destruct (decide (k0 = key)) as [->|Hne]; cbn [map fst].
    + apply NoDup_cons. split; assumption.
    + apply NoDup_cons. split; [|apply IH, Hrest].
      rewrite list_elem_of_In. intros Hin.
      destruct (assoc_set_keys _ _ _ _ Hin) as [->|Hin']; [congruence|].
      apply Hnew. rewrite list_elem_of_In. exact Hin'.
Qed.

Lemma assoc_set_forall (Q : pystr * json -> Prop) key x items :
  Q (key, x) -> Forall Q items -> Forall Q (assoc_set key x items).
Proof.
  intros Hnew. induction items as [|[k0 v0] items IH]; cbn [assoc_set]; intros Hall.
  - constructor; [exact Hnew|constructor].
  - apply Forall_cons in Hall as [Hhead Hrest].
    destruct (decide (k0 = key)) as [->|Hne].
    + constructor; assumption.
    + constructor; [exact Hhead|apply IH, Hrest].
Qed.

Lemma assoc_set_ok key x items :
  text_ok key -> json_ok x -> json_ok (JDict items) ->
  json_ok (JDict (assoc_set key x items)).
Proof.
  intros Hkey Hx Hitems. apply json_ok_dict in Hitems as [Hnodup Hall].
  apply json_ok_dict. split; [apply assoc_set_nodup, Hnodup|].
  apply assoc_set_forall; [split; assumption|exact Hall].
Qed.

Lemma dict_of_pairs_ok pairs :
  Forall (fun kv => text_ok (fst kv) /\ json_ok (snd kv)) pairs ->
  json_ok (JDict (dict_of_pairs pairs)).
Proof.
  unfold dict_of_pairs.
  assert (Hgen : forall acc,
            json_ok (JDict acc) ->
            Forall (fun kv => text_ok (fst kv) /\ json_ok (snd kv)) pairs ->
            json_ok (JDict (fold_left (fun d kv => assoc_set (fst kv) (snd kv) d) pairs acc))).
  { induction pairs as [|[k v] pairs IH]; intros acc Hacc Hall; [exact Hacc|].
    apply Forall_cons in Hall as [[Hk Hv] Hrest]. cbn [fold_left fst snd].
    apply IH; [|exact Hrest]. apply assoc_set_ok; assumption. }
  intros Hall. apply Hgen; [|exact Hall].
  apply json_ok_dict. split; constructor.
Qed.

(** What the scanner of values builds from a decoded text comes back
    from the file as it is. *)
Lemma scan_value_ok fuel :
  (forall s v r, decoded s -> scan_value fuel s = Some (v, r) ->
                 json_ok v /\ decoded r)
  /\ (forall s vs r, decoded s -> scan_items fuel s = Some (vs, r) ->
                     Forall json_ok vs /\ decoded r)
  /\ (forall s kvs r, decoded s -> scan_members fuel s = Some (kvs, r) ->
                      Forall (fun kv => text_ok (fst kv) /\ json_ok (snd kv)) kvs
                      /\ decoded r).
Proof.
  induction fuel as [|fuel (IHvalue & IHitems & IHmembers)];
    [repeat split; discriminate|].
  split; [|split].
  - intros s v r Hs Hscan. destruct s as [|c s0]; [discriminate|].
    cbn [scan_value] in Hscan.
    pose proof Hs as Hs0. apply Forall_cons in Hs0 as [_ Hs0].
    destruct (c =? 34).
    { destruct (scan_string s0) as [[t r']|] eqn:Hstr; [|discriminate].
      cbn [mbind option_bind] in Hscan. injection Hscan as <- <-.
      destruct (scan_string_ok _ _ _ _ (le_n _) Hs0 Hstr) as (Hok & Hdec & _).
      split; [exact Hok|exact Hdec]. }
    destruct (c =? 123).
    { pose proof (decoded_skip_ws _ Hs0) as Hskip.
      destruct (skip_ws s0) as [|c' r']; [discriminate|].
      apply Forall_cons in Hskip as [_ Hr'].
      destruct (c' =? 125).
      { injection Hscan as <- <-. split; [|exact Hr'].
        apply json_ok_dict. split; constructor. }
      destruct (c' =? 34); [|discriminate].
      destruct (scan_members fuel r') as [[pairs r'']|] eqn:Hmem; [|discriminate].
      cbn [mbind option_bind] in Hscan. injection Hscan as <- <-.
      destruct (IHmembers _ _ _ Hr' Hmem) as [Hall Hdec].
      split; [apply dict_of_pairs_ok, Hall|exact Hdec]. }
    destruct (c =? 91).
    { pose proof (decoded_skip_ws _ Hs0) as Hskip.
      destruct (skip_ws s0) as [|c' r']; [discriminate|].
      destruct (c' =? 93).
      { injection Hscan as <- <-. apply Forall_cons in Hskip as [_ Hr'].
        split; [exact I|exact Hr']. }
      destruct (scan_items fuel (c' :: r')) as [[items r'']|] eqn:Hitems; [|discriminate].
      cbn [mbind option_bind] in Hscan. injection Hscan as <- <-.
      destruct (IHitems _ _ _ Hskip Hitems) as [Hall Hdec].
      split; [apply json_ok_list, Hall|exact Hdec]. }
    destruct (c =? 110).
    { destruct (strip_prefix (text "null") (c :: s0)) as [r'|] eqn:Hstrip; [|discriminate].
      cbn [mbind option_bind] in Hscan. injection Hscan as <- <-.
      split; [exact I|exact (decoded_strip_prefix _ _ _ Hs Hstrip)]. }
    destruct (c =? 116).
    { destruct (strip_prefix (text "true") (c :: s0)) as [r'|] eqn:Hstrip; [|discriminate].
      cbn [mbind option_bind] in Hscan. injection Hscan as <- <-.
      split; [exact I|exact (decoded_strip_prefix _ _ _ Hs Hstrip)]. }
    destruct (c =? 102).
    { destruct (strip_prefix (text "false") (c :: s0)) as [r'|] eqn:Hstrip; [|discriminate].
      cbn [mbind option_bind] in Hscan. injection Hscan as <- <-.
      split; [exact I|exact (decoded_strip_prefix _ _ _ Hs Hstrip)]. }
    destruct (scan_number (c :: s0)) as [[n r']|] eqn:Hnum; [|discriminate].
    cbn [mbind option_bind] in Hscan. injection Hscan as <- <-.
    split; [exact I|exact (decoded_scan_number _ _ _ Hs Hnum)].
  - intros s vs r Hs Hscan. cbn [scan_items] in Hscan.
    destruct (scan_value fuel s) as [[v r0]|] eqn:Hvalue; [|discriminate].
    cbn [mbind option_bind] in Hscan.
    destruct (IHvalue _ _ _ Hs Hvalue) as [Hv Hr0].
    pose proof (decoded_skip_ws _ Hr0) as Hskip.
    destruct (skip_ws r0) as [|c r']; [discriminate|].
    apply Forall_cons in Hskip as [_ Hr'].
    destruct (c =? 93).
    { injection Hscan as <- <-. split; [constructor; [exact Hv|constructor]|exact Hr']. }
    destruct (c =? 44); [|discriminate].
    destruct (scan_items fuel (skip_ws r')) as [[vs' r'']|] eqn:Hitems; [|discriminate].
    cbn [mbind option_bind] in Hscan. injection Hscan as <- <-.
    destruct (IHitems _ _ _ (decoded_skip_ws _ Hr') Hitems) as [Hall Hdec].
    split; [constructor; assumption|exact Hdec].
  - intros s kvs r Hs Hscan. cbn [scan_members] in Hscan.
    destruct (scan_string s) as [[key r0]|] eqn:Hstr; [|discriminate].
    cbn [mbind option_bind] in Hscan.
    destruct (scan_string_ok _ _ _ _ (le_n _) Hs Hstr) as (Hkey & Hr0 & _).
    pose proof (decoded_skip_ws _ Hr0) as Hskip.
    destruct (skip_ws r0) as [|c r1]; [discriminate|].
    apply Forall_cons in Hskip as [_ Hr1].
    destruct (c =? 58); [|discriminate].
    destruct (scan_value fuel (skip_ws r1)) as [[v r2]|] eqn:Hvalue; [|discriminate].
    cbn [mbind option_bind] in Hscan.
    destruct (IHvalue _ _ _ (decoded_skip_ws _ Hr1) Hvalue) as [Hv Hr2].
    pose proof (decoded_skip_ws _ Hr2) as Hskip2.
    destruct (skip_ws r2) as [|c' r3]; [discriminate|].
    apply Forall_cons in Hskip2 as [_ Hr3].
    destruct (c' =? 125).
    { injection Hscan as <- <-.
      split; [constructor; [split; assumption|constructor]|exact Hr3]. }
    destruct (c' =? 44); [|discriminate].
    pose proof (decoded_skip_ws _ Hr3) as Hskip3.
    destruct (skip_ws r3) as [|q r4]; [discriminate|].
    apply Forall_cons in Hskip3 as [_ Hr4].
    destruct (q =? 34); [|discriminate].
    destruct (scan_members fuel r4) as [[kvs' r5]|] eqn:Hmem; [|discriminate].
    cbn [mbind option_bind] in Hscan. injection Hscan as <- <-.
    destruct (IHmembers _ _ _ Hr4 Hmem) as [Hall Hdec].
    split; [constructor; [split; assumption|exact Hall]|exact Hdec].
Qed.

(** What [json.loads] gives for a decoded text comes back from the
    file as it is. *)
Lemma loads_ok s v : decoded s -> loads s = Some v -> json_ok v.
Proof.
  intros Hs Hloads. unfold loads in Hloads.
  destruct (scan_value (S (length s)) (skip_ws s)) as [[v' r]|] eqn:Hscan;
    [|discriminate].
  cbn [mbind option_bind] in Hloads.
  destruct (skip_ws r); [|discriminate]. injection Hloads as <-.
  exact (proj1 (proj1 (scan_value_ok _) _ _ _ (decoded_skip_ws _ Hs) Hscan)).
Qed.

(** A text below the surrogates, as every literal of the source is. *)
Lemma text_ok_low s : Forall (fun c => c < 55296) s -> text_ok s.
Proof.
  induction 1 as [|c s Hc _ IH]; [split; [constructor|exact I]|].
  apply text_ok_cons; [lia| |exact IH].
  intros Hhigh. apply is_high_range in Hhigh. lia.
Qed.

Lemma text_ok_literal s : text_ok (text s).
Proof.
  apply text_ok_low. unfold text. apply Forall_map, Forall_forall.
  intros a _. pose proof (N_ascii_bounded a). simpl. lia.
Qed.

End JsonFacts.

Section AppFacts.
Import Py App.

Ltac unfold_H :=
  unfold start_reminders, stop_reminders, fetch_and_show_ayah, show_ayah_now,
    display_ayah, timer_start, timer_stop, config_item, config_get, deref,
    new_object, copy, save_config, or_raise, get, modify, raise,
    mbind, H_bind, mret, H_ret in *.

(** The monad of the methods, unfolded one step at a time. *)
Lemma bind_eq {A B} (m : H A) (f : A -> H B) st :
  (m ≫= f) st
  = match m st with
    | (st', Some a) => f a st'
    | (st', None) => (st', None)
    end.
Proof. reflexivity. Qed.

Lemma or_raise_eq {A} (o : option A) st : or_raise o st = (st, o).
Proof. destruct o; reflexivity. Qed.

Lemma modify_eq f st : modify f st = (f st, Some tt).
Proof. reflexivity. Qed.

Lemma get_eq st : get st = (st, Some st).
Proof. reflexivity. Qed.

Lemma ret_eq {A} (a : A) st : mret (M := H) a st = (st, Some a).
Proof. reflexivity. Qed.

Lemma deref_eq l st : deref l st = (st, store st !! l).
Proof. unfold deref. rewrite bind_eq, get_eq, or_raise_eq. reflexivity. Qed.

Lemma config_item_eq key st :
  config_item key st = (st, c ← store st !! config st; getitem c (text key)).
Proof.
  unfold config_item. rewrite bind_eq, get_eq, bind_eq, deref_eq.
  destruct (store st !! config st); simpl; [apply or_raise_eq|reflexivity].
Qed.

Lemma config_get_eq key default st :
  config_get key default st
  = (st, c ← store st !! config st; dict_get c (text key) default).
Proof.
  unfold config_get. rewrite bind_eq, get_eq, bind_eq, deref_eq.
  destruct (store st !! config st); simpl; [apply or_raise_eq|reflexivity].
Qed.

Ltac step_H :=
  repeat first
    [ rewrite bind_eq | rewrite modify_eq | rewrite get_eq | rewrite ret_eq
    | rewrite or_raise_eq | rewrite deref_eq | rewrite config_item_eq
    | rewrite config_get_eq ].

(** [start_reminders] in one piece: it raises before it changes
    anything, or it sets the timer and the two entries of the menu. *)
Lemma start_reminders_spec silent st :
  (exists c m n ms,
      store st !! config st = Some c
      /\ getitem c (text "interval_minutes") = Some m
      /\ as_int m = Some n
      /\ qt_int (n * 60 * 1000) = Some ms
      /\ start_reminders silent st
         = (let st' := with_actions false true
                         (with_timer {| active := true; interval := ms |} st) in
            if silent then st' else with_tray (RemindersStarted m) st',
            Some tt))
  \/ start_reminders silent st = (st, None).
Proof.
  unfold_H. simpl.
  destruct (store st !! config st) as [c|] eqn:Hc; simpl; [|auto].
  destruct (getitem c (text "interval_minutes")) as [m|] eqn:Hm; simpl; [|auto].
  destruct (as_int m) as [n|] eqn:Hn; simpl; [|auto].
  destruct (qt_int (n * 60 * 1000)) as [ms|] eqn:Hms; simpl; [|auto].
  left. exists c, m, n, ms. repeat split; auto.
  destruct silent; simpl; [reflexivity|].
  rewrite Hc. simpl. rewrite Hm. reflexivity.
Qed.


(** [stop_reminders] never raises. *)
Lemma stop_reminders_spec silent st :
  stop_reminders silent st
  = (let st' := with_actions true false
                  (with_timer {| active := false; interval := interval (timer st) |} st) in
     if silent then st' else with_tray RemindersPaused st',
     Some tt).
Proof. unfold_H. destruct silent; reflexivity. Qed.

(** [fetch_and_show_ayah] starts one fetcher with the configured
    bound, or raises before it changes anything. *)
Lemma fetch_and_show_ayah_spec st :
  (exists c bound,
      store st !! config st = Some c
      /\ getitem c (text "max_length") = Some bound
      /\ fetch_and_show_ayah st = (with_fetcher bound st, Some tt))
  \/ fetch_and_show_ayah st = (st, None).
Proof.
  unfold_H. simpl.
  destruct (store st !! config st) as [c|] eqn:Hc; simpl; [|auto].
  destruct (getitem c (text "max_length")) as [m|] eqn:Hm; simpl; [|auto].
  left. eauto.
Qed.

(** [display_ayah] touches the notification window and nothing else. *)
Lemma display_ayah_frame a p r st :
  exists n, fst (display_ayah a p r st) = with_notification n st.
Proof.
  unfold display_ayah. step_H. cbn [store config with_notification].
  destruct (store st !! config st) as [c|] eqn:Hc; simpl;
    [|eexists; reflexivity].
  destruct (getitem c (text "notification_duration")) as [duration|]; simpl;
    [|eexists; reflexivity].
  step_H. cbn [store config with_notification]. rewrite Hc. simpl.
  destruct (getitem c (text "language")) as [language|]; simpl;
    [|eexists; reflexivity].
  step_H. cbn [store config with_notification]. rewrite Hc. simpl.
  destruct (dict_get c (text "theme") (JStr (text "light"))) as [theme|]; simpl;
    [|eexists; reflexivity].
  step_H.
  destruct (BeautifulNotification a p r duration language theme); simpl;
    eexists; reflexivity.
Qed.

(** Items of a [dict] after an assignment. *)
Lemma assoc_set_eq key x items : assoc key (assoc_set key x items) = Some x.
Proof.
  induction items as [|[k v] items IH]; simpl.
  - rewrite decide_True by reflexivity. reflexivity.
  - destruct (decide (k = key)) as [->|Hne]; simpl.
    + rewrite decide_True by reflexivity. reflexivity.
    + rewrite decide_False by assumption. exact IH.
Qed.

Lemma assoc_set_ne key key' x items :
  key <> key' -> assoc key' (assoc_set key x items) = assoc key' items.
Proof.
  intros Hne. induction items as [|[k v] items IH]; simpl.
  - rewrite decide_False by assumption. reflexivity.
  - destruct (decide (k = key)) as [->|Hk]; simpl.
    + rewrite !decide_False by assumption. reflexivity.
    + destruct (decide (k = key')); [reflexivity|exact IH].
Qed.

(** What [init_ui] puts into the widgets fits them. *)
Lemma index_of_range table key i n :
  (forall kv, In kv table -> 0 <= snd kv < n) -> 0 < n ->
  index_of table key = Some i -> 0 <= i < n.
Proof.
  intros Htable Hn. unfold index_of.
  destruct key; try (intros [= <-]; lia); try discriminate.
  intros [= <-].
  destruct (find _ table) as [kv|] eqn:Hfind; [|lia].
  apply find_some in Hfind as [Hin _]. auto.
Qed.

Lemma spin_value_range lo hi v n :
  lo <= hi -> spin_value lo hi v = Some n -> lo <= n <= hi.
Proof.
  intros Hlohi. unfold spin_value.
  destruct (as_int v) as [m|]; simpl; [|discriminate].
  destruct (qt_int m) as [m'|]; simpl; [|discriminate].
  intros [= <-]. lia.
Qed.

Lemma init_ui_ok c w : init_ui c = Some w -> widgets_ok w.
Proof.
  unfold init_ui. intros Hw.
  repeat match type of Hw with
         | (match ?x with _ => _ end) = _ => destruct x eqn:?; simpl in Hw; try discriminate
         | mbind _ ?x = _ => destruct x eqn:?; simpl in Hw; try discriminate
         end.
  injection Hw as <-. unfold widgets_ok. simpl.
  repeat match goal with
         | Hs : spin_value ?lo ?hi _ = Some _ |- _ =>
             apply spin_value_range in Hs; [|lia]
         | Hi : index_of ?table _ = Some _ |- _ =>
             apply (index_of_range _ _ _ (Z.of_nat (length table))) in Hi;
             [simpl in Hi | intros kv Hin; simpl in Hin; intuition (subst; simpl; lia) | simpl; lia]
         end.
  lia.
Qed.

Lemma in_combo_range count i : in_combo count i = true -> 0 <= i < count.
Proof. unfold in_combo. lia. Qed.

Lemma apply_edit_ok w e : widgets_ok w -> widgets_ok (apply_edit w e).
Proof.
  unfold widgets_ok. intros (Ht & Hi & Hl & Hd & Hm).
  destruct e; simpl; repeat split; try lia; unfold clamp; try lia.
  all: destruct (in_combo _ _) eqn:E; try lia; apply in_combo_range in E; lia.
Qed.

Lemma edits_ok edits : forall w, widgets_ok w -> widgets_ok (fold_left apply_edit edits w).
Proof.
  induction edits as [|e edits IH]; intros w Hw; simpl; auto using apply_edit_ok.
Qed.


(** *** The store *)

Lemma new_object_eq v st :
  new_object v st
  = (with_store <[fresh (dom (store st)) := v]> st, Some (fresh (dom (store st)))).
Proof. reflexivity. Qed.

Lemma fresh_unused (m : gmap loc json) : m !! fresh (dom m) = None.
Proof. apply not_elem_of_dom. apply is_fresh. Qed.

Lemma fresh_other (m : gmap loc json) l v : m !! l = Some v -> fresh (dom m) <> l.
Proof. intros Hl Heq. rewrite <- Heq, fresh_unused in Hl. discriminate. Qed.

Lemma copy_eq l st :
  copy l st
  = match store st !! l with
    | Some (JDict items) => new_object (JDict items) st
    | Some (JList items) => new_object (JList items) st
    | _ => (st, None)
    end.
Proof.
  unfold copy. rewrite bind_eq, deref_eq.
  destruct (store st !! l) as [[]|]; reflexivity.
Qed.

Lemma init_ui_dict c w : init_ui c = Some w -> exists items, c = JDict items.
Proof. destruct c; try discriminate. eauto. Qed.

(** [SettingsDialog(config)]: a copy is made before anything can
    raise in [init_ui]; the object copied is left as it is. *)
Lemma SettingsDialog_eq cfg st :
  SettingsDialog cfg st
  = match store st !! cfg with
    | Some (JDict items) =>
        (with_store <[fresh (dom (store st)) := JDict items]> st,
         (fun w => {| dialog_config := fresh (dom (store st)); dialog_widgets := w |})
           <$> init_ui (JDict items))
    | Some (JList items) =>
        (with_store <[fresh (dom (store st)) := JList items]> st, None)
    | _ => (st, None)
    end.
Proof.
  unfold SettingsDialog. rewrite bind_eq, copy_eq.
  destruct (store st !! cfg) as [[]|]; try reflexivity.
  - rewrite new_object_eq, bind_eq, deref_eq. cbn [store with_store].
    rewrite lookup_insert_eq, bind_eq, or_raise_eq. reflexivity.
  - rewrite new_object_eq, bind_eq, deref_eq. cbn [store with_store].
    rewrite lookup_insert_eq, bind_eq, or_raise_eq.
    destruct (init_ui (JDict items)); reflexivity.
Qed.

Lemma dialog_set_eq d key value st :
  dialog_set d key value st
  = match store st !! dialog_config d with
    | Some (JDict items) =>
        (with_store <[dialog_config d := JDict (assoc_set (text key) value items)]> st,
         Some tt)
    | _ => (st, None)
    end.
Proof.
  unfold dialog_set. rewrite bind_eq, deref_eq.
  destruct (store st !! dialog_config d) as [[]|]; try reflexivity.
Qed.

Lemma with_store_twice l x y st :
  with_store <[l := x]> (with_store <[l := y]> st) = with_store <[l := x]> st.
Proof. unfold with_store. simpl. rewrite insert_insert_eq. reflexivity. Qed.

Lemma name_of_theme i :
  0 <= i < 2 -> exists name, name_of [(0, "light"); (1, "dark")] i = Some name.
Proof.
  intros Hi. assert (i = 0 \/ i = 1) as [-> | ->] by lia; eexists; reflexivity.
Qed.

Lemma name_of_language i :
  0 <= i < 3 ->
  exists name, name_of [(0, "both"); (1, "arabic"); (2, "persian")] i = Some name.
Proof.
  intros Hi. assert (i = 0 \/ i = 1 \/ i = 2) as [-> | [-> | ->]] by lia;
    eexists; reflexivity.
Qed.

(** [save_settings] on widgets that hold what they can hold: the six
    items are set in the dialog's own [dict] and nothing raises. *)
Lemma save_settings_eq d items st :
  store st !! dialog_config d = Some (JDict items) ->
  widgets_ok (dialog_widgets d) ->
  exists theme lang,
    name_of [(0, "light"); (1, "dark")] (theme_combo (dialog_widgets d)) = Some theme
    /\ name_of [(0, "both"); (1, "arabic"); (2, "persian")]
         (lang_combo (dialog_widgets d)) = Some lang
    /\ save_settings d st
       = (with_store
            <[dialog_config d := JDict (saved_items (dialog_widgets d) theme lang items)]> st,
          Some tt).
Proof.
  intros Hd (Ht & _ & Hl & _).
  destruct (name_of_theme _ Ht) as [theme Htheme].
  destruct (name_of_language _ Hl) as [lang Hlang].
  exists theme, lang. split; [exact Htheme|]. split; [exact Hlang|].
  unfold save_settings. cbv zeta.
  rewrite Htheme, Hlang.
  rewrite bind_eq, or_raise_eq.
  rewrite bind_eq, dialog_set_eq, Hd.
  rewrite bind_eq, dialog_set_eq. cbn [store with_store]. rewrite lookup_insert_eq.
  rewrite with_store_twice.
  rewrite bind_eq, or_raise_eq.
  rewrite bind_eq, dialog_set_eq. cbn [store with_store]. rewrite lookup_insert_eq.
  rewrite with_store_twice.
  rewrite bind_eq, dialog_set_eq. cbn [store with_store]. rewrite lookup_insert_eq.
  rewrite with_store_twice.
  rewrite bind_eq, dialog_set_eq. cbn [store with_store]. rewrite lookup_insert_eq.
  rewrite with_store_twice.
  rewrite dialog_set_eq. cbn [store with_store]. rewrite lookup_insert_eq.
  rewrite with_store_twice.
  reflexivity.
Qed.

Lemma saved_items_interval w theme lang items :
  assoc (text "interval_minutes") (saved_items w theme lang items)
  = Some (JInt (interval_spin w)).
Proof.
  unfold saved_items.
  rewrite !(assoc_set_ne _ (text "interval_minutes")) by discriminate.
  apply assoc_set_eq.
Qed.


Lemma save_config_eq d st :
  save_config d st
  = (match store st !! config st with
     | Some v => with_files (disk_after d (Json.dumps v)) st
     | None => st
     end, Some tt).
Proof.
  unfold save_config. rewrite bind_eq, get_eq.
  destruct (store st !! config st); reflexivity.
Qed.

Lemma start_reminders_ok silent st c m n ms :
  store st !! config st = Some c ->
  getitem c (text "interval_minutes") = Some m ->
  as_int m = Some n ->
  qt_int (n * 60 * 1000) = Some ms ->
  start_reminders silent st
  = (let st' := with_actions false true
                  (with_timer {| active := true; interval := ms |} st) in
     if silent then st' else with_tray (RemindersStarted m) st',
     Some tt).
Proof.
  intros Hc Hm Hn Hms.
  unfold_H. simpl. rewrite Hc. simpl. rewrite Hm. simpl. rewrite Hn. simpl.
  rewrite Hms. simpl.
  destruct silent; simpl; [reflexivity|].
  rewrite Hc. simpl. rewrite Hm. reflexivity.
Qed.

Lemma qt_int_minutes n : 1 <= n <= 1440 -> qt_int (n * 60 * 1000) = Some (n * 60 * 1000).
Proof.
  intros Hn. unfold qt_int.
  destruct ((-2147483648 <=? n * 60 * 1000) && (n * 60 * 1000 <=? 2147483647)) eqn:E;
    [reflexivity|].
  apply andb_false_iff in E as [E|E]; apply Z.leb_gt in E; lia.
Qed.

(** Leaving the dialog with Cancel, or failing to open it: the state
    is the old one, with at most one more object in the store. *)
Lemma show_settings_cancel edits d st :
  fst (show_settings edits CancelButton d st) = st
  \/ exists c, store st !! config st = Some c
       /\ fst (show_settings edits CancelButton d st)
          = with_store <[fresh (dom (store st)) := c]> st.
Proof.
  unfold show_settings. rewrite bind_eq, get_eq, bind_eq, SettingsDialog_eq.
  destruct (store st !! config st) as [[]|] eqn:Hc; simpl; auto.
  - right. eauto.
  - right. destruct (init_ui (JDict items)); simpl; eauto.
Qed.

(** Leaving the dialog with Save Settings. *)
Lemma show_settings_save edits d st items w0 :
  store st !! config st = Some (JDict items) ->
  init_ui (JDict items) = Some w0 ->
  exists theme lang st',
    let l := fresh (dom (store st)) in
    let w := fold_left apply_edit edits w0 in
    name_of [(0, "light"); (1, "dark")] (theme_combo w) = Some theme
    /\ name_of [(0, "both"); (1, "arabic"); (2, "persian")] (lang_combo w) = Some lang
    /\ show_settings edits SaveSettings d st = (st', Some tt)
    /\ config st' = l
    /\ store st' = <[l := JDict (saved_items w theme lang items)]> (store st)
    /\ files st'
       = disk_after d (Json.dumps (JDict (saved_items w theme lang items))) (files st)
    /\ timer st'
       = (if active (timer st)
          then {| active := true; interval := interval_spin w * 60 * 1000 |}
          else timer st)
    /\ start_action st' = (if active (timer st) then false else start_action st)
    /\ stop_action st' = (if active (timer st) then true else stop_action st)
    /\ tray st' = tray st
    /\ current_notification st' = current_notification st
    /\ fetcher st' = fetcher st
    /\ threads st' = threads st.
Proof.
  intros Hc Hinit.
  set (l := fresh (dom (store st))).
  set (w := fold_left apply_edit edits w0).
  assert (Hw : widgets_ok w) by (apply edits_ok; eapply init_ui_ok; eassumption).
  set (st1 := with_store <[l := JDict items]> st).
  destruct (save_settings_eq {| dialog_config := l; dialog_widgets := w |} items st1)
    as (theme & lang & Htheme & Hlang & Hsave).
  { unfold st1. cbn [store with_store dialog_config]. apply lookup_insert_eq. }
  { exact Hw. }
  cbn [dialog_config dialog_widgets] in Htheme, Hlang, Hsave.
  exists theme, lang.
  unfold show_settings. rewrite bind_eq, get_eq, bind_eq, SettingsDialog_eq, Hc, Hinit.
  cbn [fmap option_fmap option_map dialog_config dialog_widgets].
  fold l. fold st1. fold w.
  rewrite bind_eq, Hsave. cbn [dialog_config dialog_widgets].
  unfold st1. rewrite with_store_twice.
  set (new := JDict (saved_items w theme lang items)).
  rewrite bind_eq, modify_eq, bind_eq, save_config_eq.
  cbn [store config with_store with_config]. rewrite lookup_insert_eq.
  rewrite bind_eq, get_eq. cbn [timer with_files with_config with_store].
  destruct (active (timer st)) eqn:Hactive.
  - rewrite bind_eq, stop_reminders_spec. cbv zeta.
    erewrite start_reminders_ok;
      [| cbn [store config with_store with_config with_files with_actions with_timer];
         apply lookup_insert_eq
       | apply saved_items_interval
       | reflexivity
       | apply qt_int_minutes; apply Hw ].
    eexists. split; [exact Htheme|]. split; [exact Hlang|].
    repeat split; reflexivity.
  - eexists. rewrite ret_eq. split; [exact Htheme|]. split; [exact Hlang|].
    repeat split; reflexivity.
Qed.


(** The dialog that cannot be opened: the slot raises, with at most
    one more object in the store. *)
Lemma show_settings_unopened edits b d st :
  (forall items w0,
     store st !! config st = Some (JDict items) ->
     init_ui (JDict items) = Some w0 -> False) ->
  snd (show_settings edits b d st) = None
  /\ (fst (show_settings edits b d st) = st
      \/ exists c, store st !! config st = Some c
           /\ fst (show_settings edits b d st)
              = with_store <[fresh (dom (store st)) := c]> st).
Proof.
  intros Hno.
  unfold show_settings. rewrite bind_eq, get_eq, bind_eq, SettingsDialog_eq.
  destruct (store st !! config st) as [[]|] eqn:Hc; simpl; auto.
  - split; [reflexivity|]. right. eauto.
  - destruct (init_ui (JDict items)) eqn:Hinit; [exfalso; eauto|].
    simpl. split; [reflexivity|]. right. eauto.
Qed.

Lemma qt_int_some z ms : qt_int z = Some ms -> ms = z.
Proof. unfold qt_int. destruct (_ && _); congruence. Qed.

(** *** Invariants of the event loop *)

Lemma start_reminders_invariant silent st :
  menu_mirrors_timer st /\ timer_follows_config st ->
  menu_mirrors_timer (fst (start_reminders silent st))
  /\ timer_follows_config (fst (start_reminders silent st)).
Proof.
  intros Hinv.
  destruct (start_reminders_spec silent st)
    as [(c & m & n & ms & Hc & Hm & Hn & Hms & ->)| ->]; [|exact Hinv].
  apply qt_int_some in Hms as ->.
  split.
  - destruct silent; split; reflexivity.
  - intros _. exists c, m, n. destruct silent; simpl; auto.
Qed.

Lemma more_objects_invariant st c :
  store st !! config st = Some c ->
  menu_mirrors_timer st /\ timer_follows_config st ->
  menu_mirrors_timer (with_store <[fresh (dom (store st)) := c]> st)
  /\ timer_follows_config (with_store <[fresh (dom (store st)) := c]> st).
Proof.
  intros Hc [Hm Hf]. split; [exact Hm|].
  intros Hactive. destruct (Hf Hactive) as (c' & m & n & Hc' & Hrest).
  exists c', m, n. split; [|exact Hrest].
  cbn [store config with_store]. rewrite lookup_insert_ne; [exact Hc'|].
  eapply fresh_other. exact Hc.
Qed.

Lemma handle_invariant e st :
  menu_mirrors_timer st /\ timer_follows_config st ->
  menu_mirrors_timer (fst (handle e st))
  /\ timer_follows_config (fst (handle e st)).
Proof.
  intros Hinv. destruct e as [| | |edits b d| |a p r]; cbn [handle].
  - destruct (fetch_and_show_ayah_spec st) as [(c & bound & _ & _ & Heq)|Heq];
      unfold show_ayah_now; rewrite Heq; exact Hinv.
  - apply start_reminders_invariant. exact Hinv.
  - rewrite stop_reminders_spec. split; [split; reflexivity|].
    intros Hactive. simpl in Hactive. discriminate.
  - assert (Hclosed :
      fst (show_settings edits b d st) = st
      \/ (exists c, store st !! config st = Some c
            /\ fst (show_settings edits b d st)
               = with_store <[fresh (dom (store st)) := c]> st) ->
      menu_mirrors_timer (fst (show_settings edits b d st))
      /\ timer_follows_config (fst (show_settings edits b d st))).
    { intros [-> | (c & Hc & ->)]; [exact Hinv|].
      apply more_objects_invariant; assumption. }
    destruct b; [|apply Hclosed, show_settings_cancel].
    pose proof (show_settings_unopened edits SaveSettings d st) as Hun.
    destruct (store st !! config st) as [[|?|?|?|?|items]|] eqn:Hc;
      try solve [apply Hclosed, Hun; intros ? ? [=]].
    destruct (init_ui (JDict items)) as [w0|] eqn:Hinit;
      [|apply Hclosed, Hun; intros ? ? [= <-]; congruence].
    clear Hun Hclosed.
    destruct (show_settings_save edits d st items w0 Hc Hinit)
      as (theme & lang & st' & _ & _ & Heq & Hcfg & Hstore & _ & Htimer & Hstart
          & Hstop & _).
    rewrite Heq. cbn [fst]. destruct Hinv as [[Hm1 Hm2] Hf].
    destruct (active (timer st)) eqn:Hactive.
    + split.
      * unfold menu_mirrors_timer. rewrite Hstart, Hstop, Htimer. auto.
      * intros _. eexists _, _, _. rewrite Hcfg, Hstore, lookup_insert_eq.
        split; [reflexivity|]. split; [apply saved_items_interval|].
        split; [reflexivity|]. rewrite Htimer. reflexivity.
    + split.
      * unfold menu_mirrors_timer. rewrite Hstart, Hstop, Htimer, Hactive. auto.
      * intros Hactive'. rewrite Htimer, Hactive in Hactive'. discriminate.
  - destruct (fetch_and_show_ayah_spec st) as [(c & bound & _ & _ & Heq)|Heq];
      rewrite Heq; exact Hinv.
  - destruct (display_ayah_frame a p r st) as [n ->]. exact Hinv.
Qed.

Lemma init_invariant fs st :
  init (boot fs) = (st, Some tt) ->
  menu_mirrors_timer st /\ timer_follows_config st.
Proof.
  unfold init. rewrite bind_eq.
  destruct (load_config (boot fs)) as [st1 [l|]]; [|discriminate].
  do 4 rewrite bind_eq, modify_eq.
  rewrite bind_eq, config_item_eq.
  set (st2 := with_notification None _).
  assert (Hinv : menu_mirrors_timer st2 /\ timer_follows_config st2).
  { split; [split; reflexivity|]. intros Hactive. discriminate. }
  destruct (_ ≫= _) as [auto|]; [|discriminate].
  destruct (truthy auto).
  - intros Heq. pose proof (start_reminders_invariant true st2 Hinv) as Hinv'.
    rewrite Heq in Hinv'. exact Hinv'.
  - rewrite ret_eq. intros [= <-]. exact Hinv.
Qed.

Lemma reachable_invariant fs st :
  reachable fs st -> menu_mirrors_timer st /\ timer_follows_config st.
Proof.
  induction 1 as [st Hinit|st e _ IH _].
  - eapply init_invariant. exact Hinit.
  - apply handle_invariant. exact IH.
Qed.

(** C10: in every state of a run of the application (after
    [__init__], and after every call of [start_reminders] or
    [stop_reminders], whoever makes it), Start Reminders is enabled
    exactly when the timer is not active, and Pause Reminders exactly
    when it is. *)
Theorem menu_always_mirrors_timer fs st :
  reachable fs st ->
  start_action st = negb (active (timer st))
  /\ stop_action st = active (timer st).
Proof.
  intros Hreach. apply (reachable_invariant fs st Hreach).
Qed.


(** C5: [start_reminders] starts the timer with the period
    [interval_minutes * 60 * 1000] of the configuration it finds; the
    slots of the time-out, of Show Ayah Now, of a fetched verse and of
    a cancelled dialog leave the timer as it is, Pause Reminders keeps
    the period, saved settings leave a stopped timer alone and restart
    a running one with the period of the new configuration; so in
    every state of a run a running timer has the period the current
    configuration asks for. *)
Theorem timer_period_follows_configuration :
  (forall st silent st',
     start_reminders silent st = (st', Some tt) ->
     exists c m n,
       store st !! config st = Some c
       /\ getitem c (text "interval_minutes") = Some m
       /\ as_int m = Some n
       /\ timer st' = {| active := true; interval := n * 60 * 1000 |})
  /\ (forall st e, touches_timer e = false -> timer (fst (handle e st)) = timer st)
  /\ (forall st,
        interval (timer (fst (handle PauseReminders st))) = interval (timer st))
  /\ (forall st edits d,
        active (timer st) = false ->
        timer (fst (handle (Settings edits SaveSettings d) st)) = timer st)
  /\ (forall st edits d st',
        active (timer st) = true ->
        handle (Settings edits SaveSettings d) st = (st', Some tt) ->
        exists c m n,
          store st' !! config st' = Some c
          /\ getitem c (text "interval_minutes") = Some m
          /\ as_int m = Some n
          /\ timer st' = {| active := true; interval := n * 60 * 1000 |})
  /\ (forall fs st, reachable fs st -> timer_follows_config st).
Proof.
  split; [|split; [|split; [|split; [|split]]]].
  - intros st silent st' Hstart.
    destruct (start_reminders_spec silent st)
      as [(c & m & n & ms & Hc & Hm & Hn & Hms & Heq)|Heq];
      rewrite Heq in Hstart; [|discriminate].
    apply qt_int_some in Hms as ->.
    injection Hstart as <-. exists c, m, n. destruct silent; auto.
  - intros st e He. destruct e as [| | |edits b d| |a p r]; try discriminate;
      cbn [handle].
    + unfold show_ayah_now.
      destruct (fetch_and_show_ayah_spec st) as [(c & bound & _ & _ & ->)| ->];
        reflexivity.
    + destruct b; [discriminate|].
      destruct (show_settings_cancel edits d st) as [-> | (c & _ & ->)]; reflexivity.
    + destruct (fetch_and_show_ayah_spec st) as [(c & bound & _ & _ & ->)| ->];
        reflexivity.
    + destruct (display_ayah_frame a p r st) as [n ->]. reflexivity.
  - intros st. cbn [handle]. rewrite stop_reminders_spec. reflexivity.
  - intros st edits d Hactive. cbn [handle].
    pose proof (show_settings_unopened edits SaveSettings d st) as Hun.
    destruct (store st !! config st) as [[|?|?|?|?|items]|] eqn:Hc;
      try solve [destruct Hun as [_ [-> | (c & _ & ->)]];
                 [intros ? ? [=]|reflexivity..]].
    destruct (init_ui (JDict items)) as [w0|] eqn:Hinit.
    + destruct (show_settings_save edits d st items w0 Hc Hinit)
        as (theme & lang & st' & _ & _ & Heq & _ & _ & _ & Htimer & _).
      rewrite Heq. cbn [fst]. rewrite Htimer, Hactive. reflexivity.
    + destruct Hun as [_ [-> | (c & _ & ->)]];
        [intros ? ? [= <-]; congruence|reflexivity..].
  - intros st edits d st' Hactive Hsave. cbn [handle] in Hsave.
    pose proof (show_settings_unopened edits SaveSettings d st) as Hun.
    rewrite Hsave in Hun.
    destruct (store st !! config st) as [[|?|?|?|?|items]|] eqn:Hc;
      try solve [destruct Hun as [[=] _]; intros ? ? [=]].
    destruct (init_ui (JDict items)) as [w0|] eqn:Hinit;
      [|destruct Hun as [[=] _]; intros ? ? [= <-]; congruence].
    destruct (show_settings_save edits d st items w0 Hc Hinit)
      as (theme & lang & st'' & _ & _ & Heq & Hcfg & Hstore & _ & Htimer & _).
    rewrite Hsave in Heq. injection Heq as <-.
    eexists _, _, _. rewrite Hcfg, Hstore, lookup_insert_eq.
    split; [reflexivity|]. split; [apply saved_items_interval|].
    split; [reflexivity|]. rewrite Htimer, Hactive. reflexivity.
  - intros fs st Hreach. apply (reachable_invariant fs st Hreach).
Qed.

(** C8: the dialog works on a copy.  Leaving it with Cancel leaves the
    configuration of the application, the object it refers to and the
    files as they were; so does a dialog that raises.  Leaving it with
    Save Settings makes the configuration refer to the copy, which
    holds the old items with the six settings of the widgets, and
    writes that copy to the settings file; the old object is left as
    it was. *)
Theorem settings_dialog_is_atomic st edits d :
  (config (fst (show_settings edits CancelButton d st)) = config st
   /\ store (fst (show_settings edits CancelButton d st)) !! config st
      = store st !! config st
   /\ files (fst (show_settings edits CancelButton d st)) = files st)
  /\ (forall b,
        snd (show_settings edits b d st) = None ->
        config (fst (show_settings edits b d st)) = config st
        /\ store (fst (show_settings edits b d st)) !! config st
           = store st !! config st
        /\ files (fst (show_settings edits b d st)) = files st)
  /\ (forall st',
        show_settings edits SaveSettings d st = (st', Some tt) ->
        exists items w0 theme lang,
          store st !! config st = Some (JDict items)
          /\ init_ui (JDict items) = Some w0
          /\ name_of [(0, "light"); (1, "dark")]
               (theme_combo (fold_left apply_edit edits w0)) = Some theme
          /\ name_of [(0, "both"); (1, "arabic"); (2, "persian")]
               (lang_combo (fold_left apply_edit edits w0)) = Some lang
          /\ config st' <> config st
          /\ store st' !! config st = Some (JDict items)
          /\ store st' !! config st'
             = Some (JDict (saved_items (fold_left apply_edit edits w0) theme lang items))
          /\ files st'
             = disk_after d
                 (Json.dumps
                    (JDict (saved_items (fold_left apply_edit edits w0) theme lang items)))
                 (files st)).
Proof.
  assert (Hsame : forall b,
    fst (show_settings edits b d st) = st
    \/ (exists c, store st !! config st = Some c
          /\ fst (show_settings edits b d st)
             = with_store <[fresh (dom (store st)) := c]> st) ->
    config (fst (show_settings edits b d st)) = config st
    /\ store (fst (show_settings edits b d st)) !! config st = store st !! config st
    /\ files (fst (show_settings edits b d st)) = files st).
  { intros b [-> | (c & Hc & ->)]; [auto|].
    cbn [config store files with_store]. split; [reflexivity|]. split; [|reflexivity].
    apply lookup_insert_ne. eapply fresh_other. exact Hc. }
  split; [|split].
  - apply Hsame, show_settings_cancel.
  - intros b Hraise. apply Hsame.
    destruct b; [|apply show_settings_cancel].
    pose proof (show_settings_unopened edits SaveSettings d st) as Hun.
    destruct (store st !! config st) as [[|?|?|?|?|items]|] eqn:Hc;
      try solve [apply Hun; intros ? ? [=]].
    destruct (init_ui (JDict items)) as [w0|] eqn:Hinit;
      [|apply Hun; intros ? ? [= <-]; congruence].
    destruct (show_settings_save edits d st items w0 Hc Hinit)
      as (theme & lang & st' & _ & _ & Heq & _).
    rewrite Heq in Hraise. discriminate.
  - intros st' Hsave.
    pose proof (show_settings_unopened edits SaveSettings d st) as Hun.
    rewrite Hsave in Hun.
    destruct (store st !! config st) as [[|?|?|?|?|items]|] eqn:Hc;
      try solve [destruct Hun as [[=] _]; intros ? ? [=]].
    destruct (init_ui (JDict items)) as [w0|] eqn:Hinit;
      [|destruct Hun as [[=] _]; intros ? ? [= <-]; congruence].
    destruct (show_settings_save edits d st items w0 Hc Hinit)
      as (theme & lang & st'' & Htheme & Hlang & Heq & Hcfg & Hstore & Hfiles & _).
    rewrite Hsave in Heq. injection Heq as <-.
    exists items, w0, theme, lang.
    split; [reflexivity|]. split; [exact Hinit|].
    split; [exact Htheme|]. split; [exact Hlang|].
    assert (Hne : fresh (dom (store st)) <> config st) by (eapply fresh_other; exact Hc).
    split; [rewrite Hcfg; exact Hne|].
    split; [rewrite Hstore, lookup_insert_ne by exact Hne; exact Hc|].
    split; [rewrite Hcfg, Hstore; apply lookup_insert_eq|].
    exact Hfiles.
Qed.


Lemma load_config_eq st :
  load_config st
  = match files st !! CONFIG_FILE with
    | Some content =>
        match content ≫= Json.loads with
        | Some v => new_object v st
        | None => copy DEFAULT_CONFIG st
        end
    | None => copy DEFAULT_CONFIG st
    end.
Proof.
  unfold load_config. rewrite bind_eq, get_eq.
  destruct (files st !! CONFIG_FILE) as [content|]; [|reflexivity].
  destruct (content ≫= Json.loads); reflexivity.
Qed.





(** *** The store along a run *)

(** What a slot does to the store: nothing, or one new object. *)
Lemma handle_store e st :
  store (fst (handle e st)) = store st
  \/ exists v, store (fst (handle e st)) = <[fresh (dom (store st)) := v]> (store st).
Proof.
  destruct e as [| | |edits b d| |a p r]; cbn [handle].
  - left. unfold show_ayah_now.
    destruct (fetch_and_show_ayah_spec st) as [(c & bound & _ & _ & ->)| ->]; reflexivity.
  - left. destruct (start_reminders_spec false st)
      as [(c & m & n & ms & _ & _ & _ & _ & ->)| ->]; reflexivity.
  - left. rewrite stop_reminders_spec. reflexivity.
  - destruct b.
    + pose proof (show_settings_unopened edits SaveSettings d st) as Hun.
      destruct (store st !! config st) as [[|?|?|?|?|items]|] eqn:Hc;
        try solve [destruct Hun as [_ [-> | (c & _ & ->)]];
                   [intros ? ? [=]|left; reflexivity|right; eexists; reflexivity]].
      destruct (init_ui (JDict items)) as [w0|] eqn:Hinit.
      * destruct (show_settings_save edits d st items w0 Hc Hinit)
          as (theme & lang & st' & _ & _ & Heq & _ & Hstore & _).
        right. rewrite Heq. eexists. exact Hstore.
      * destruct Hun as [_ [-> | (c & _ & ->)]];
          [intros ? ? [= <-]; congruence|left; reflexivity|right; eexists; reflexivity].
    + destruct (show_settings_cancel edits d st) as [-> | (c & _ & ->)];
        [left; reflexivity|right; eexists; reflexivity].
  - left. destruct (fetch_and_show_ayah_spec st) as [(c & bound & _ & _ & ->)| ->];
      reflexivity.
  - left. destruct (display_ayah_frame a p r st) as [n ->]. reflexivity.
Qed.

Lemma load_config_new_object st items :
  store st !! DEFAULT_CONFIG = Some (JDict items) ->
  exists v,
    load_config st
    = (with_store <[fresh (dom (store st)) := v]> st, Some (fresh (dom (store st)))).
Proof.
  intros Hdefault. rewrite load_config_eq, copy_eq, Hdefault.
  destruct (files st !! CONFIG_FILE) as [content|];
    [|rewrite new_object_eq; eexists; reflexivity].
  destruct (content ≫= Json.loads); rewrite new_object_eq; eexists; reflexivity.
Qed.

Lemma start_reminders_store silent st :
  store (fst (start_reminders silent st)) = store st.
Proof.
  destruct (start_reminders_spec silent st)
    as [(c & m & n & ms & _ & _ & _ & _ & ->)| ->]; [|reflexivity].
  destruct silent; reflexivity.
Qed.

(** [DEFAULT_CONFIG] keeps its items all along a run: the
    configuration is always another object, and only copies made for
    a dialog are ever assigned into. *)
Theorem defaults_are_never_changed fs st :
  reachable fs st ->
  store st !! DEFAULT_CONFIG = Some (JDict DEFAULT_CONFIG_items).
Proof.
  induction 1 as [st Hinit|st e _ IH _].
  - unfold init in Hinit. rewrite bind_eq in Hinit.
    destruct (load_config_new_object (boot fs) DEFAULT_CONFIG_items eq_refl)
      as (v & Hload).
    rewrite Hload in Hinit.
    do 4 rewrite bind_eq, modify_eq in Hinit.
    rewrite bind_eq, config_item_eq in Hinit.
    set (st2 := with_notification None _) in Hinit.
    assert (Hst2 : store st2 !! DEFAULT_CONFIG = Some (JDict DEFAULT_CONFIG_items)).
    { unfold st2. cbn [store with_store with_notification with_timer with_actions
                       with_config].
      rewrite lookup_insert_ne; [reflexivity|].
      eapply fresh_other. reflexivity. }
    destruct (_ ≫= _) as [auto|]; [|discriminate].
    destruct (truthy auto).
    + pose proof (start_reminders_store true st2) as Hstore.
      rewrite Hinit in Hstore. cbn [fst] in Hstore. rewrite Hstore. exact Hst2.
    + rewrite ret_eq in Hinit. injection Hinit as <-. exact Hst2.
  - destruct (handle_store e st) as [-> | (v & ->)]; [exact IH|].
    rewrite lookup_insert_ne; [exact IH|].
    eapply fresh_other. exact IH.
Qed.

(** Every request for a verse (the time-out of the timer or Show Ayah
    Now) whose slot returns starts exactly one fetcher, with the bound
    the configuration holds at that time. *)
Theorem one_fetcher_per_request trigger st st' :
  trigger = Timeout \/ trigger = ShowAyahNow ->
  handle trigger st = (st', Some tt) ->
  threads st' = S (threads st)
  /\ exists c bound,
       store st !! config st = Some c
       /\ getitem c (text "max_length") = Some bound
       /\ fetcher st' = Some bound.
Proof.
  intros Htrigger Hhandle.
  assert (Hfetch : fetch_and_show_ayah st = (st', Some tt))
    by (destruct Htrigger as [-> | ->]; exact Hhandle).
  destruct (fetch_and_show_ayah_spec st) as [(c & bound & Hc & Hbound & Heq)|Heq];
    rewrite Heq in Hfetch; [|discriminate].
  injection Hfetch as <-. split; [reflexivity|]. exists c, bound. auto.
Qed.

(** *** The configuration along a run *)

(** The default configuration is read back as it is. *)
Lemma default_config_ok : Json.json_ok (JDict DEFAULT_CONFIG_items).
Proof.
  apply json_ok_dict. split.
  - apply (bool_decide_unpack _). vm_compute. exact I.
  - repeat constructor; simpl; try reflexivity; try (intros [H _]; discriminate H).
Qed.

Lemma name_of_ok table i v : name_of table i = Some v -> Json.json_ok v.
Proof.
  unfold name_of. destruct (find _ table) as [kv|]; [|discriminate].
  cbn [mbind option_bind]. intros [= <-]. apply text_ok_literal.
Qed.

Lemma saved_items_ok w theme lang items :
  Json.json_ok theme -> Json.json_ok lang -> Json.json_ok (JDict items) ->
  Json.json_ok (JDict (saved_items w theme lang items)).
Proof.
  intros Htheme Hlang Hitems. unfold saved_items.
  repeat (apply assoc_set_ok; [apply text_ok_literal|try exact I|]);
    assumption.
Qed.

(** The configuration [load_config] makes from a decoded settings
    file, or from the defaults, comes back from the file as it is. *)
Lemma load_config_reads_back st :
  store st !! DEFAULT_CONFIG = Some (JDict DEFAULT_CONFIG_items) ->
  disk_decoded (files st) ->
  exists v,
    Json.json_ok v
    /\ load_config st
       = (with_store <[fresh (dom (store st)) := v]> st, Some (fresh (dom (store st)))).
Proof.
  intros Hdefault Hdisk. rewrite load_config_eq, copy_eq, Hdefault.
  destruct (files st !! CONFIG_FILE) as [[content|]|] eqn:Hfile;
    cbn [mbind option_bind];
    try (rewrite new_object_eq; eexists; split; [exact default_config_ok|reflexivity]).
  destruct (Json.loads content) as [v|] eqn:Hloads; rewrite new_object_eq.
  - exists v. split; [|reflexivity].
    exact (loads_ok content v (Hdisk content Hfile) Hloads).
  - eexists. split; [exact default_config_ok|reflexivity].
Qed.

Lemma more_objects_reads_back st c :
  store st !! config st = Some c ->
  config_reads_back st ->
  config_reads_back (with_store <[fresh (dom (store st)) := c]> st).
Proof.
  intros Hc (v & Hv & Hok). exists v. split; [|exact Hok].
  cbn [store config with_store]. rewrite lookup_insert_ne; [exact Hv|].
  eapply fresh_other. exact Hv.
Qed.

Lemma start_reminders_reads_back silent st :
  config_reads_back st -> config_reads_back (fst (start_reminders silent st)).
Proof.
  intros Hst.
  destruct (start_reminders_spec silent st)
    as [(c & m & n & ms & _ & _ & _ & _ & ->)| ->]; [|exact Hst].
  destruct silent; exact Hst.
Qed.

(** No slot makes the configuration one that would not come back. *)
Lemma handle_reads_back e st :
  config_reads_back st -> config_reads_back (fst (handle e st)).
Proof.
  intros Hst. destruct e as [| | |edits b d| |a p r]; cbn [handle].
  - unfold show_ayah_now.
    destruct (fetch_and_show_ayah_spec st) as [(c & bound & _ & _ & ->)| ->]; exact Hst.
  - apply start_reminders_reads_back, Hst.
  - rewrite stop_reminders_spec. exact Hst.
  - destruct b.
    + pose proof (show_settings_unopened edits SaveSettings d st) as Hun.
      destruct (store st !! config st) as [[|?|?|?|?|items]|] eqn:Hc;
        try solve [destruct Hun as [_ [-> | (c & Hc' & ->)]];
                   [intros ? ? [=]|exact Hst
                   |apply more_objects_reads_back; [congruence|exact Hst]]].
      destruct (init_ui (JDict items)) as [w0|] eqn:Hinit.
      * destruct (show_settings_save edits d st items w0 Hc Hinit)
          as (theme & lang & st' & Htheme & Hlang & Heq & Hconfig & Hstore & _).
        rewrite Heq. cbn [fst]. eexists. rewrite Hconfig, Hstore.
        split; [apply lookup_insert_eq|].
        destruct Hst as (v & Hv & Hok).
        apply saved_items_ok;
          [exact (name_of_ok _ _ _ Htheme)|exact (name_of_ok _ _ _ Hlang)|congruence].
      * destruct Hun as [_ [-> | (c & Hc' & ->)]];
          [intros ? ? [= <-]; congruence|exact Hst
          |apply more_objects_reads_back; [congruence|exact Hst]].
    + destruct (show_settings_cancel edits d st) as [-> | (c & Hc & ->)];
        [exact Hst|apply more_objects_reads_back; assumption].
  - destruct (fetch_and_show_ayah_spec st) as [(c & bound & _ & _ & ->)| ->]; exact Hst.
  - destruct (display_ayah_frame a p r st) as [n ->]. exact Hst.
Qed.

Lemma init_reads_back fs st :
  disk_decoded fs -> init (boot fs) = (st, Some tt) -> config_reads_back st.
Proof.
  intros Hdisk Hinit. unfold init in Hinit. rewrite bind_eq in Hinit.
  destruct (load_config_reads_back (boot fs) eq_refl Hdisk) as (v & Hok & Hload).
  rewrite Hload in Hinit.
  do 4 rewrite bind_eq, modify_eq in Hinit.
  rewrite bind_eq, config_item_eq in Hinit.
  set (st2 := with_notification None _) in Hinit.
  assert (Hst2 : config_reads_back st2).
  { exists v. split; [|exact Hok]. apply lookup_insert_eq. }
  destruct (_ ≫= _) as [auto|]; [|discriminate].
  destruct (truthy auto).
  - pose proof (start_reminders_reads_back true st2 Hst2) as Hstart.
    rewrite Hinit in Hstart. exact Hstart.
  - rewrite ret_eq in Hinit. injection Hinit as <-. exact Hst2.
Qed.


End AppFacts.

Section FetchFacts.
Import Py Fetcher App.

Variable repr_str : pystr -> pystr.
Variable qt_str : json -> option pystr.

(** C3: a run never lets an exception out; and when a fetch fails (no
    network at the connectivity check, or, after attempts that were
    retried, a request that raises, an error status, a body that is
    not JSON or a missing field), the run returns without having
    emitted anything, so that the whole fetch leaves the application
    as the slot of its trigger left it: no window, no balloon, the
    timer untouched, and the next time-out starts a new fetcher. *)
Theorem failed_fetch_is_silent :
  (forall bound w fuel, snd (run repr_str bound w fuel) <> Raised)
  /\ (forall trigger st c bound w fuel,
        trigger = Timeout \/ trigger = ShowAyahNow ->
        store st !! config st = Some c ->
        getitem c (text "max_length") = Some bound ->
        fetch_fails repr_str bound w fuel ->
        snd (run repr_str bound w fuel) = Value tt
        /\ emitted (fst (run repr_str bound w fuel)) = []
        /\ fetch_cycle repr_str qt_str trigger w fuel st = with_fetcher bound st
        /\ timer (fetch_cycle repr_str qt_str trigger w fuel st) = timer st
        /\ tray (fetch_cycle repr_str qt_str trigger w fuel st) = tray st
        /\ current_notification (fetch_cycle repr_str qt_str trigger w fuel st)
           = current_notification st
        /\ handle Timeout (fetch_cycle repr_str qt_str trigger w fuel st)
           = (with_fetcher bound (fetch_cycle repr_str qt_str trigger w fuel st),
              Some tt)).
Proof.
  split; [intros bound w fuel; apply run_never_raises|].
  intros trigger st c bound w fuel Htrigger Hc Hbound Hfails.
  assert (Hrun : snd (run repr_str bound w fuel) = Value tt
                 /\ emitted (fst (run repr_str bound w fuel)) = []).
  { destruct Hfails as [Hoff|(k & Hk & Hbefore & Hfail)].
    - rewrite run_offline by exact Hoff. auto.
    - apply (run_failed_attempt repr_str bound w k); auto.
      apply failure_no_verse. exact Hfail. }
  destruct Hrun as [Hret Hemit].
  assert (Hstart : forall st0, store st0 !! config st0 = Some c ->
            fetch_and_show_ayah st0 = (with_fetcher bound st0, Some tt)).
  { intros st0 Hc0. unfold fetch_and_show_ayah.
    rewrite bind_eq, config_item_eq, Hc0. simpl. rewrite Hbound. reflexivity. }
  assert (Hhandle : handle trigger st = (with_fetcher bound st, Some tt)).
  { destruct Htrigger as [-> | ->]; apply Hstart; exact Hc. }
  assert (Hnone : omap (delivery qt_str) (fst (run repr_str bound w fuel)) = []).
  { revert Hemit. generalize (fst (run repr_str bound w fuel)) as steps.
    induction steps as [|s steps IH]; [reflexivity|].
    destruct s; simpl; auto. discriminate. }
  assert (Hcycle : fetch_cycle repr_str qt_str trigger w fuel st = with_fetcher bound st).
  { unfold fetch_cycle. rewrite Hhandle. cbn [fetcher with_fetcher].
    rewrite Hnone. reflexivity. }
  rewrite Hcycle. repeat split; auto.
Qed.

End FetchFacts.

Section AppCases.
Import Py Fetcher App Examples AppExamples CycleExamples.

(** The application after its start and a click on Pause Reminders. *)
Lemma menu_always_mirrors_timer_witness :
  start_action st_paused = negb (active (timer st_paused))
  /\ stop_action st_paused = active (timer st_paused).
Proof.
  apply (menu_always_mirrors_timer ∅).
  apply reach_event.
  - apply reach_init. vm_compute. reflexivity.
  - vm_compute. reflexivity.
Defined.

(** Start Reminders after a pause, with the default sixty minutes. *)
Lemma timer_period_witness :
  exists c m n,
    store st_paused !! config st_paused = Some c
    /\ getitem c (text "interval_minutes") = Some m
    /\ as_int m = Some n
    /\ timer (fst (start_reminders false st_paused))
       = {| active := true; interval := n * 60 * 1000 |}.
Proof.
  apply (proj1 timer_period_follows_configuration st_paused false).
  vm_compute. reflexivity.
Defined.

(** Saved settings on the application as it started. *)
Lemma settings_dialog_witness :
  exists items w0 theme lang,
    store st_started !! config st_started = Some (JDict items)
    /\ init_ui (JDict items) = Some w0
    /\ name_of [(0, "light"); (1, "dark")]
         (theme_combo (fold_left apply_edit some_edits w0)) = Some theme
    /\ name_of [(0, "both"); (1, "arabic"); (2, "persian")]
         (lang_combo (fold_left apply_edit some_edits w0)) = Some lang
    /\ config (fst (show_settings some_edits SaveSettings Stored st_started))
       <> config st_started
    /\ store (fst (show_settings some_edits SaveSettings Stored st_started))
         !! config st_started = Some (JDict items)
    /\ store (fst (show_settings some_edits SaveSettings Stored st_started))
         !! config (fst (show_settings some_edits SaveSettings Stored st_started))
       = Some (JDict (saved_items (fold_left apply_edit some_edits w0) theme lang items))
    /\ files (fst (show_settings some_edits SaveSettings Stored st_started))
       = disk_after Stored
           (Json.dumps
              (JDict (saved_items (fold_left apply_edit some_edits w0) theme lang items)))
           (files st_started).
Proof.
  apply (proj2 (proj2 (settings_dialog_is_atomic st_started some_edits Stored))).
  vm_compute. reflexivity.
Defined.




(** [DEFAULT_CONFIG] after a start and a pause. *)
Lemma defaults_witness :
  store st_paused !! DEFAULT_CONFIG = Some (JDict DEFAULT_CONFIG_items).
Proof.
  apply (defaults_are_never_changed ∅).
  apply reach_event.
  - apply reach_init. vm_compute. reflexivity.
  - vm_compute. reflexivity.
Defined.


(** Show Ayah Now while the reminders are paused. *)
Lemma one_fetcher_witness :
  threads (fst (handle ShowAyahNow st_paused)) = S (threads st_paused)
  /\ exists c bound,
       store st_paused !! config st_paused = Some c
       /\ getitem c (text "max_length") = Some bound
       /\ fetcher (fst (handle ShowAyahNow st_paused)) = Some bound.
Proof.
  apply (one_fetcher_per_request ShowAyahNow st_paused).
  - right. reflexivity.
  - vm_compute. reflexivity.
Defined.

(** A settings file that is not JSON: the defaults apply, in a new
    object. *)
Example load_config_broken_file :
  load_config (boot {[ CONFIG_FILE := Some broken_file ]})
  = (with_store <[1%nat := JDict DEFAULT_CONFIG_items]>
       (boot {[ CONFIG_FILE := Some broken_file ]}),
     Some 1%nat).
Proof. vm_compute. reflexivity. Qed.

(** Without network a run is one request and nothing else. *)
Example run_without_network :
  run quoted (JInt 250) world_offline 5 = ([HttpGet google 3], Value tt).
Proof. reflexivity. Qed.

(** A time-out whose fetch finds no server for its first request. *)
Lemma failed_fetch_witness :
  snd (run quoted (JInt 250) world_error_then_short 3) = Value tt
  /\ emitted (fst (run quoted (JInt 250) world_error_then_short 3)) = []
  /\ fetch_cycle quoted qt_text Timeout world_error_then_short 3 st_started
     = with_fetcher (JInt 250) st_started
  /\ timer (fetch_cycle quoted qt_text Timeout world_error_then_short 3 st_started)
     = timer st_started
  /\ tray (fetch_cycle quoted qt_text Timeout world_error_then_short 3 st_started)
     = tray st_started
  /\ current_notification
       (fetch_cycle quoted qt_text Timeout world_error_then_short 3 st_started)
     = current_notification st_started
  /\ handle Timeout (fetch_cycle quoted qt_text Timeout world_error_then_short 3 st_started)
     = (with_fetcher (JInt 250)
          (fetch_cycle quoted qt_text Timeout world_error_then_short 3 st_started),
        Some tt).
Proof.
  apply (proj2 (failed_fetch_is_silent quoted qt_text) Timeout st_started
           (JDict DEFAULT_CONFIG_items)).
  - left. reflexivity.
  - vm_compute. reflexivity.
  - reflexivity.
  - right. exists 0%nat. split; [lia|]. split; [intros j Hj; lia|].
    apply request_error.
Defined.

End AppCases.

(* ===================================================================== *)
(** ** More about the decoder: what follows a value, and fuel             *)
(* ===================================================================== *)

Section MoreJsonFacts.
Import Py Json.

Local Open Scope N_scope.

(** *** What follows the text does not change what was read *)

Lemma skip_ws_app s t c r : skip_ws s = c :: r -> skip_ws (s ++ t) = c :: r ++ t.
Proof.
  induction s as [|a s IH]; [discriminate|].
  cbn [skip_ws app]. destruct (is_ws a); [exact IH|].
  intros [= -> ->]. reflexivity.
Qed.

Lemma strip_prefix_app p : forall s t r,
  strip_prefix p s = Some r -> strip_prefix p (s ++ t) = Some (r ++ t).
Proof.
  induction p as [|a p IH]; intros s t r.
  - intros [= <-]. reflexivity.
  - destruct s as [|b s]; [discriminate|]. cbn [strip_prefix app].
    destruct (a =? b); [apply IH|discriminate].
Qed.

Lemma scan_digits_app s t : forall d r,
  scan_digits s = (d, r) -> r <> [] -> scan_digits (s ++ t) = (d, r ++ t).
Proof.
  induction s as [|c s IH]; intros d r.
  - intros [= <- <-] Hr. congruence.
  - cbn [scan_digits app]. destruct (digit_of c) as [digit|].
    + destruct (scan_digits s) as [d' r'] eqn:Hs. intros [= <- <-] Hr.
      rewrite (IH d' r' eq_refl Hr). reflexivity.
    + intros [= <- <-] _. reflexivity.
Qed.

Lemma scan_natural_app s t z r :
  scan_natural s = Some (z, r) -> r <> [] -> scan_natural (s ++ t) = Some (z, r ++ t).
Proof.
  destruct s as [|c s]; [discriminate|]. unfold scan_natural. cbn [app].
  destruct (c =? 48); [intros [= <- <-] _; reflexivity|].
  destruct ((49 <=? c) && (c <=? 57))%bool; [|discriminate].
  destruct (scan_digits (c :: s)) as [d r'] eqn:Hs. intros [= <- <-] Hr.
  change (c :: s ++ t) with ((c :: s) ++ t).
  rewrite (scan_digits_app _ t d r' Hs Hr). reflexivity.
Qed.

Lemma scan_number_app s t z r :
  scan_number s = Some (z, r) -> r <> [] -> scan_number (s ++ t) = Some (z, r ++ t).
Proof.
  destruct s as [|c s]; [discriminate|]. unfold scan_number. cbn [app].
  destruct (c =? 45).
  - destruct (scan_natural s) as [[n r']|] eqn:Hs; [|discriminate].
    cbn [mbind option_bind]. intros [= <- <-] Hr.
    rewrite (scan_natural_app _ t n r' Hs Hr). reflexivity.
  - intros Hs Hr. change (c :: s ++ t) with ((c :: s) ++ t).
    apply scan_natural_app; assumption.
Qed.

(** The six characters the scanner looks at after a high surrogate. *)
Lemma after_high_app {A} r2 t (single : A) pair bad :
  (6 <= length r2)%nat ->
  after_high (r2 ++ t) single pair bad
  = after_high r2 single (fun u r4 => pair u (r4 ++ t)) bad.
Proof.
  destruct r2 as [|b [|e2 [|g1 [|g2 [|g3 [|g4 r4]]]]]]; cbn [length]; try lia.
  intros _. reflexivity.
Qed.

(** ... of which fewer are left only when no escape begins there. *)
Lemma after_high_few {A} r2 t (single : A) pair bad :
  (length r2 < 6)%nat -> scan_string r2 <> None ->
  after_high (r2 ++ t) single pair bad = single.
Proof.
  intros Hlen Hscan.
  destruct r2 as [|b r]; [exfalso; apply Hscan; reflexivity|]. cbn [app].
  destruct (N.eqb_spec b 92) as [->|Hb];
    [|apply after_high_other; apply N.eqb_neq; exact Hb].
  destruct r as [|e2 r]; [exfalso; apply Hscan; reflexivity|]. cbn [app].
  destruct (N.eqb_spec e2 117) as [->|He];
    [|apply after_high_short; apply N.eqb_neq; exact He].
  exfalso. apply Hscan.
  destruct r as [|? [|? [|? [|? ?]]]]; try reflexivity.
  cbn [length] in Hlen. lia.
Qed.

Lemma scan_string_app n t : forall s k r,
  (length s <= n)%nat ->
  scan_string s = Some (k, r) -> scan_string (s ++ t) = Some (k, r ++ t).
Proof.
  induction n as [|n IH]; intros s k r Hlen Hscan.
  { destruct s; [discriminate|simpl in Hlen; lia]. }
  destruct s as [|c r0]; [discriminate|].
  cbn [app]. rewrite scan_string_cons in Hscan |- *. cbn [length] in Hlen.
  destruct (c =? 34); [injection Hscan as <- <-; reflexivity|].
  destruct (c =? 92).
  - destruct r0 as [|e r1]; [discriminate|]. cbn [app length] in *.
    destruct (e =? 117).
    + destruct r1 as [|h1 [|h2 [|h3 [|h4 r2]]]]; try discriminate.
      cbn [app length] in *.
      destruct (hex4 h1 h2 h3 h4) as [u|]; [|discriminate].
      cbn [mbind option_bind] in *. cbv zeta in *.
      assert (Hsingle : forall k' r',
                ('(t0, r'0) ← scan_string r2; Some (u :: t0, r'0)) = Some (k', r') ->
                ('(t0, r'0) ← scan_string (r2 ++ t); Some (u :: t0, r'0))
                = Some (k', r' ++ t)).
      { intros k' r' Hs.
        destruct (scan_string r2) as [[t0 r'0]|] eqn:Hr2; [|discriminate].
        cbn [mbind option_bind] in Hs. injection Hs as <- <-.
        rewrite (IH r2 t0 r'0 ltac:(lia) Hr2). reflexivity. }
      destruct (is_high u); [|apply Hsingle; exact Hscan].
      destruct (le_lt_dec 6 (length r2)) as [Hlong|Hshort].
      * rewrite after_high_app by exact Hlong.
        destruct r2 as [|b [|e2 [|g1 [|g2 [|g3 [|g4 r4]]]]]];
          cbn [length] in Hlong; try lia.
        cbn [after_high] in Hscan |- *.
        destruct ((b =? 92) && (e2 =? 117))%bool; [|apply Hsingle; exact Hscan].
        destruct (hex4 g1 g2 g3 g4) as [u2|]; [|discriminate].
        destruct (is_low u2); [|apply Hsingle; exact Hscan].
        destruct (scan_string r4) as [[t0 r'0]|] eqn:Hr4; [|discriminate].
        cbn [mbind option_bind] in Hscan. injection Hscan as <- <-.
        cbn [length] in Hlen.
        rewrite (IH r4 t0 r'0 ltac:(lia) Hr4). reflexivity.
      * assert (Hone : forall (A : Type) (x : A) y z, after_high r2 x y z = x).
        { intros A x y z.
          destruct r2 as [|b [|e2 [|g1 [|g2 [|g3 [|g4 r4]]]]]]; try reflexivity.
          cbn [length] in Hshort. lia. }
        rewrite Hone in Hscan.
        rewrite after_high_few; [apply Hsingle; exact Hscan|exact Hshort|].
        destruct (scan_string r2); [discriminate|discriminate].
    + destruct (unescape e) as [ch|]; [|discriminate].
      cbn [mbind option_bind] in *.
      destruct (scan_string r1) as [[t0 r'0]|] eqn:Hr1; [|discriminate].
      cbn [mbind option_bind] in Hscan. injection Hscan as <- <-.
      rewrite (IH r1 t0 r'0 ltac:(lia) Hr1). reflexivity.
  - destruct (c <? 32); [discriminate|].
    destruct (scan_string r0) as [[t0 r'0]|] eqn:Hr0; [|discriminate].
    cbn [mbind option_bind] in Hscan. injection Hscan as <- <-.
    rewrite (IH r0 t0 r'0 ltac:(lia) Hr0). reflexivity.
Qed.

Lemma scan_value_nil fuel : scan_value fuel [] = None.
Proof. destruct fuel; reflexivity. Qed.

Lemma scan_items_nil fuel : scan_items fuel [] = None.
Proof.
  destruct fuel as [|fuel]; [reflexivity|].
  cbn [scan_items]. rewrite scan_value_nil. reflexivity.
Qed.

Lemma skip_ws_app_some fuel s t x :
  scan_value fuel (skip_ws s) = Some x -> skip_ws (s ++ t) = skip_ws s ++ t.
Proof.
  destruct (skip_ws s) as [|c r] eqn:Hs; [rewrite scan_value_nil; discriminate|].
  intros _. apply skip_ws_app. exact Hs.
Qed.

Lemma scan_value_S fuel s :
  scan_value (S fuel) s
  = match s with
    | [] => None
    | c :: r =>
        if c =? 34 then '(t, r') ← scan_string r; Some (JStr t, r')
        else if c =? 123 then
          match skip_ws r with
          | c' :: r' =>
              if c' =? 125 then Some (JDict [], r')
              else if c' =? 34 then
                '(pairs, r'') ← scan_members fuel r';
                Some (JDict (dict_of_pairs pairs), r'')
              else None
          | [] => None
          end
        else if c =? 91 then
          match skip_ws r with
          | c' :: r' =>
              if c' =? 93 then Some (JList [], r')
              else '(items, r'') ← scan_items fuel (c' :: r'); Some (JList items, r'')
          | [] => None
          end
        else if c =? 110 then r' ← strip_prefix (text "null") s; Some (JNull, r')
        else if c =? 116 then r' ← strip_prefix (text "true") s; Some (JBool true, r')
        else if c =? 102 then r' ← strip_prefix (text "false") s; Some (JBool false, r')
        else '(n, r') ← scan_number s; Some (JInt n, r')
    end.
Proof. reflexivity. Qed.

(** The scanner of values reads the same value from a text that goes
    on, unless it read a number up to the very end of the text. *)
Lemma scan_value_app fuel t :
  (forall s x r,
     scan_value fuel s = Some (x, r) ->
     r <> [] \/ (forall n, x <> JInt n) ->
     scan_value fuel (s ++ t) = Some (x, r ++ t))
  /\ (forall s xs r,
        scan_items fuel s = Some (xs, r) ->
        scan_items fuel (s ++ t) = Some (xs, r ++ t))
  /\ (forall s kvs r,
        scan_members fuel s = Some (kvs, r) ->
        scan_members fuel (s ++ t) = Some (kvs, r ++ t)).
Proof.
  induction fuel as [|fuel (IHvalue & IHitems & IHmembers)];
    [repeat split; discriminate|].
  split; [|split].
  - intros s x r Hscan Hrest. destruct s as [|c s0]; [discriminate|].
    cbn [app]. rewrite scan_value_S in Hscan |- *.
    destruct (c =? 34).
    { destruct (scan_string s0) as [[k r']|] eqn:Hstr; [|discriminate].
      cbn [mbind option_bind] in Hscan. injection Hscan as <- <-.
      rewrite (scan_string_app _ t s0 k r' (le_n _) Hstr). reflexivity. }
    destruct (c =? 123).
    { destruct (skip_ws s0) as [|c' r'] eqn:Hskip; [discriminate|].
      rewrite (skip_ws_app _ t _ _ Hskip).
      destruct (c' =? 125); [injection Hscan as <- <-; reflexivity|].
      destruct (c' =? 34); [|discriminate].
      destruct (scan_members fuel r') as [[pairs r'']|] eqn:Hmem; [|discriminate].
      cbn [mbind option_bind] in Hscan. injection Hscan as <- <-.
      rewrite (IHmembers _ _ _ Hmem). reflexivity. }
    destruct (c =? 91).
    { destruct (skip_ws s0) as [|c' r'] eqn:Hskip; [discriminate|].
      rewrite (skip_ws_app _ t _ _ Hskip).
      destruct (c' =? 93); [injection Hscan as <- <-; reflexivity|].
      destruct (scan_items fuel (c' :: r')) as [[items r'']|] eqn:Hitems; [|discriminate].
      cbn [mbind option_bind] in Hscan. injection Hscan as <- <-.
      change (c' :: r' ++ t) with ((c' :: r') ++ t).
      rewrite (IHitems _ _ _ Hitems). reflexivity. }
    change (c :: s0 ++ t) with ((c :: s0) ++ t).
    destruct (c =? 110).
    { destruct (strip_prefix (text "null") (c :: s0)) as [r'|] eqn:Hstrip; [|discriminate].
      cbn [mbind option_bind] in Hscan. injection Hscan as <- <-.
      rewrite (strip_prefix_app _ _ t _ Hstrip). reflexivity. }
    destruct (c =? 116).
    { destruct (strip_prefix (text "true") (c :: s0)) as [r'|] eqn:Hstrip; [|discriminate].
      cbn [mbind option_bind] in Hscan. injection Hscan as <- <-.
      rewrite (strip_prefix_app _ _ t _ Hstrip). reflexivity. }
    destruct (c =? 102).
    { destruct (strip_prefix (text "false") (c :: s0)) as [r'|] eqn:Hstrip; [|discriminate].
      cbn [mbind option_bind] in Hscan. injection Hscan as <- <-.
      rewrite (strip_prefix_app _ _ t _ Hstrip). reflexivity. }
    destruct (scan_number (c :: s0)) as [[n r']|] eqn:Hnum; [|discriminate].
    cbn [mbind option_bind] in Hscan. injection Hscan as <- <-.
    destruct Hrest as [Hrest|Hrest]; [|exfalso; exact (Hrest n eq_refl)].
    rewrite (scan_number_app _ t n r' Hnum Hrest). reflexivity.
  - intros s xs r Hscan. rewrite scan_items_S in Hscan |- *.
    destruct (scan_value fuel s) as [[v r0]|] eqn:Hvalue; [|discriminate].
    cbn [mbind option_bind] in Hscan.
    destruct (skip_ws r0) as [|c r'] eqn:Hskip; [discriminate|].
    assert (Hr0 : r0 <> []) by (intros ->; discriminate).
    rewrite (IHvalue _ _ _ Hvalue (or_introl Hr0)). cbn [mbind option_bind].
    rewrite (skip_ws_app _ t _ _ Hskip).
    destruct (c =? 93); [injection Hscan as <- <-; reflexivity|].
    destruct (c =? 44); [|discriminate].
    destruct (scan_items fuel (skip_ws r')) as [[vs r'']|] eqn:Hitems; [|discriminate].
    cbn [mbind option_bind] in Hscan. injection Hscan as <- <-.
    assert (Hskip' : skip_ws (r' ++ t) = skip_ws r' ++ t).
    { destruct (skip_ws r') as [|c' r3] eqn:Hr';
        [rewrite scan_items_nil in Hitems; discriminate|].
      apply skip_ws_app. exact Hr'. }
    rewrite Hskip', (IHitems _ _ _ Hitems). reflexivity.
  - intros s kvs r Hscan. rewrite scan_members_S in Hscan |- *.
    destruct (scan_string s) as [[key r0]|] eqn:Hstr; [|discriminate].
    cbn [mbind option_bind] in Hscan.
    rewrite (scan_string_app _ t s key r0 (le_n _) Hstr). cbn [mbind option_bind].
    destruct (skip_ws r0) as [|c r1] eqn:Hskip; [discriminate|].
    rewrite (skip_ws_app _ t _ _ Hskip).
    destruct (c =? 58); [|discriminate].
    destruct (scan_value fuel (skip_ws r1)) as [[v r2]|] eqn:Hvalue; [|discriminate].
    cbn [mbind option_bind] in Hscan.
    rewrite (skip_ws_app_some fuel r1 t _ Hvalue).
    destruct (skip_ws r2) as [|c' r3] eqn:Hskip2; [discriminate|].
    assert (Hr2 : r2 <> []) by (intros ->; discriminate).
    rewrite (IHvalue _ _ _ Hvalue (or_introl Hr2)). cbn [mbind option_bind].
    rewrite (skip_ws_app _ t _ _ Hskip2).
    destruct (c' =? 125); [injection Hscan as <- <-; reflexivity|].
    destruct (c' =? 44); [|discriminate].
    destruct (skip_ws r3) as [|q r4] eqn:Hskip3; [discriminate|].
    rewrite (skip_ws_app _ t _ _ Hskip3).
    destruct (q =? 34); [|discriminate].
    destruct (scan_members fuel r4) as [[kvs' r5]|] eqn:Hmem; [|discriminate].
    cbn [mbind option_bind] in Hscan. injection Hscan as <- <-.
    rewrite (IHmembers _ _ _ Hmem). reflexivity.
Qed.

(** *** More fuel does not change what was read *)

Lemma scan_value_more_fuel fuel :
  (forall s x, scan_value fuel s = Some x -> scan_value (S fuel) s = Some x)
  /\ (forall s x, scan_items fuel s = Some x -> scan_items (S fuel) s = Some x)
  /\ (forall s x, scan_members fuel s = Some x -> scan_members (S fuel) s = Some x).
Proof.
  induction fuel as [|fuel (IHvalue & IHitems & IHmembers)];
    [repeat split; discriminate|].
  split; [|split].
  - intros s x Hscan. rewrite scan_value_S in Hscan. rewrite scan_value_S.
    destruct s as [|c s0]; [discriminate|].
    destruct (c =? 34); [exact Hscan|].
    destruct (c =? 123).
    { destruct (skip_ws s0) as [|c' r']; [discriminate|].
      destruct (c' =? 125); [exact Hscan|].
      destruct (c' =? 34); [|discriminate].
      destruct (scan_members fuel r') as [pr|] eqn:Hmem; [|discriminate].
      rewrite (IHmembers _ _ Hmem). exact Hscan. }
    destruct (c =? 91); [|exact Hscan].
    destruct (skip_ws s0) as [|c' r']; [discriminate|].
    destruct (c' =? 93); [exact Hscan|].
    destruct (scan_items fuel (c' :: r')) as [pr|] eqn:Hitems; [|discriminate].
    rewrite (IHitems _ _ Hitems). exact Hscan.
  - intros s x Hscan. rewrite scan_items_S in Hscan. rewrite scan_items_S.
    destruct (scan_value fuel s) as [[v r0]|] eqn:Hvalue; [|discriminate].
    rewrite (IHvalue _ _ Hvalue). cbn [mbind option_bind] in *.
    destruct (skip_ws r0) as [|c r']; [discriminate|].
    destruct (c =? 93); [exact Hscan|].
    destruct (c =? 44); [|discriminate].
    destruct (scan_items fuel (skip_ws r')) as [pr|] eqn:Hitems; [|discriminate].
    rewrite (IHitems _ _ Hitems). exact Hscan.
  - intros s x Hscan. rewrite scan_members_S in Hscan. rewrite scan_members_S.
    destruct (scan_string s) as [[key r0]|]; [|discriminate].
    cbn [mbind option_bind] in *.
    destruct (skip_ws r0) as [|c r1]; [discriminate|].
    destruct (c =? 58); [|discriminate].
    destruct (scan_value fuel (skip_ws r1)) as [[v r2]|] eqn:Hvalue; [|discriminate].
    rewrite (IHvalue _ _ Hvalue). cbn [mbind option_bind] in *.
    destruct (skip_ws r2) as [|c' r3]; [discriminate|].
    destruct (c' =? 125); [exact Hscan|].
    destruct (c' =? 44); [|discriminate].
    destruct (skip_ws r3) as [|q r4]; [discriminate|].
    destruct (q =? 34); [|discriminate].
    destruct (scan_members fuel r4) as [pr|] eqn:Hmem; [|discriminate].
    rewrite (IHmembers _ _ Hmem). exact Hscan.
Qed.

Lemma scan_value_fuel_le fuel fuel' s x :
  (fuel <= fuel')%nat -> scan_value fuel s = Some x -> scan_value fuel' s = Some x.
Proof.
  induction 1 as [|fuel' _ IH]; [auto|].
  intros Hscan. apply (proj1 (scan_value_more_fuel fuel')). apply IH, Hscan.
Qed.

(** *** A text cut short *)

(** The text of a [dict], cut anywhere before its end, is not JSON. *)
Lemma loads_cut items s1 t :
  json_ok (JDict items) ->
  dumps (JDict items) = s1 ++ t -> t <> [] ->
  loads s1 = None.
Proof.
  intros Hok Hcut Ht.
  destruct (loads s1) as [v'|] eqn:Hloads; [exfalso|reflexivity].
  unfold loads in Hloads.
  destruct (scan_value (S (length s1)) (skip_ws s1)) as [[x r]|] eqn:Hscan;
    [|discriminate].
  cbn [mbind option_bind] in Hloads.
  destruct (skip_ws r) as [|? ?] eqn:Hr; [|discriminate].
  assert (Hhead : exists s0, s1 = 123 :: s0).
  { destruct s1 as [|c s0]; [rewrite scan_value_nil in Hscan; discriminate|].
    exists s0. f_equal. unfold dumps in Hcut. destruct items as [|kv items].
    - change (dump_at 0 (JDict [])) with [123; 125] in Hcut.
      cbn [app] in Hcut. congruence.
    - cbn [dump_at app] in Hcut. congruence. }
  destruct Hhead as (s0 & ->).
  assert (Hskip : skip_ws (123 :: s0) = 123 :: s0) by reflexivity.
  rewrite Hskip in Hscan.
  assert (Hdict : forall n, x <> JInt n).
  { intros n ->. rewrite scan_value_S in Hscan. cbn [N.eqb Pos.eqb] in Hscan.
    destruct (skip_ws s0) as [|c' r']; [discriminate|].
    destruct (c' =? 125); [discriminate|].
    destruct (c' =? 34); [|discriminate].
    destruct (scan_members _ r') as [[pairs r'']|];
      cbn [mbind option_bind] in Hscan; discriminate. }
  pose proof (proj1 (scan_value_app _ t) _ _ _ Hscan (or_intror Hdict)) as Hmore.
  rewrite <- Hcut in Hmore.
  set (fuel := S (length (123 :: s0))) in *.
  assert (Hback : scan_value (fuel + size (JDict items))%nat
                    (dump_at 0 (JDict items) ++ [])
                  = Some (JDict items, [])).
  { apply scan_value_dump; [exact Hok|lia|exact I]. }
  rewrite app_nil_r in Hback.
  assert (Hle : (fuel <= fuel + size (JDict items))%nat) by lia.
  apply (scan_value_fuel_le _ _ _ _ Hle) in Hmore.
  unfold dumps in Hmore. rewrite Hback in Hmore. injection Hmore as _ Hrest.
  destruct r; [destruct t; [congruence|discriminate]|discriminate].
Qed.

End MoreJsonFacts.

(* ===================================================================== *)
(** ** More about [AyahFetcher.run]                                       *)
(* ===================================================================== *)

Section MoreFetcherFacts.
Import Py Fetcher.

Variable repr_str : pystr -> pystr.
Variable max_length : json.
Variable w : world.

(** Every attempt issues its request, whatever comes of it. *)
Lemma attempt_requests k :
  requests (fst (attempt repr_str max_length w k)) = [api_url (randint w k)].
Proof.
  destruct (attempt_cases repr_str w k) as [(a & p & r & Hv)|Hv].
  - rewrite (attempt_verse repr_str max_length w _ _ _ _ Hv).
    destruct (int_le _ max_length) as [[|]|]; reflexivity.
  - destruct (attempt_no_verse repr_str max_length w _ Hv) as [-> | ->]; reflexivity.
Qed.

Lemma loop_requests fuel : forall k,
  exists n, (n <= fuel)%nat
    /\ requests (fst (loop repr_str max_length w fuel k))
       = map (fun j => api_url (randint w j)) (seq k n).
Proof.
  induction fuel as [|fuel IH]; intros k; [exists 0%nat; split; [lia|reflexivity]|].
  rewrite loop_S.
  destruct (snd (attempt repr_str max_length w k)) as [[|]| |];
    try (exists 1%nat; split; [lia|]; cbn [fst]; apply attempt_requests).
  destruct (IH (S k)) as (n & Hn & Hreq).
  exists (S n). split; [lia|].
  cbn [fst]. rewrite requests_app, attempt_requests, Hreq. reflexivity.
Qed.

(** The requests of a run: one to the site of the connectivity check,
    then one to the verse API for each attempt, for the number drawn
    in that attempt, and none to any other address; without network
    the first request is the only one. *)
Theorem run_requests_only_the_two_sites fuel :
  (exists n, (n <= fuel)%nat
     /\ requests (fst (run repr_str max_length w fuel))
        = google :: map (fun k => api_url (randint w k)) (seq 0 n))
  /\ (connectivity w = NoAnswer ->
      requests (fst (run repr_str max_length w fuel)) = [google]).
Proof.
  split.
  - rewrite run_unfold. destruct (connectivity w) as [|status body].
    + exists 0%nat. split; [lia|reflexivity].
    + destruct (loop_requests fuel 0) as (n & Hn & Hreq).
      exists n. split; [exact Hn|]. cbn [fst].
      change (HttpGet google 3 :: fst (loop repr_str max_length w fuel 0))
        with ([HttpGet google 3] ++ fst (loop repr_str max_length w fuel 0)).
      rewrite requests_app, Hreq. reflexivity.
  - intros Hoff. rewrite run_offline by exact Hoff. reflexivity.
Qed.

(** A bound that is no number (a [str] from a settings file written by
    hand, [None], a [list]) cannot be compared with a length: the
    first attempt raises at the comparison at the latest, the run
    returns without a signal, and no second request goes to the verse
    API. *)
Theorem bound_that_is_no_number_ends_the_run fuel :
  as_int max_length = None ->
  snd (run repr_str max_length w (S fuel)) = Value tt
  /\ emitted (fst (run repr_str max_length w (S fuel))) = []
  /\ (length (requests (fst (run repr_str max_length w (S fuel)))) <= 2)%nat.
Proof.
  intros Hbound.
  assert (Hle : forall n, int_le n max_length = None)
    by (intros n; unfold int_le; rewrite Hbound; reflexivity).
  rewrite run_unfold. destruct (connectivity w) as [|status body].
  { split; [reflexivity|]. split; [reflexivity|]. simpl. lia. }
  rewrite loop_S.
  assert (Hraised : snd (attempt repr_str max_length w 0) = Raised).
  { rewrite attempt_result.
    destruct (verse_of repr_str (answer w 0)) as [[[a p] r]|]; [|reflexivity].
    rewrite Hle. reflexivity. }
  assert (Hnone : emitted (fst (attempt repr_str max_length w 0)) = []).
  { rewrite attempt_emitted.
    destruct (verse_of repr_str (answer w 0)) as [[[a p] r]|]; [|reflexivity].
    rewrite Hle. reflexivity. }
  rewrite Hraised. cbn [fst snd].
  split; [reflexivity|]. split; [rewrite emitted_get; exact Hnone|].
  change (HttpGet google 3 :: fst (attempt repr_str max_length w 0))
    with ([HttpGet google 3] ++ fst (attempt repr_str max_length w 0)).
  rewrite requests_app, attempt_requests. simpl. lia.
Qed.

End MoreFetcherFacts.

(* ===================================================================== *)
(** ** More about the application                                         *)
(* ===================================================================== *)

Section MoreAppFacts.
Import Py App Window.

Ltac step_H :=
  repeat first
    [ rewrite bind_eq | rewrite modify_eq | rewrite get_eq | rewrite ret_eq
    | rewrite or_raise_eq | rewrite deref_eq | rewrite config_item_eq
    | rewrite config_get_eq ].

(** *** Valid settings *)

Lemma int_within_spec lo hi v :
  int_within lo hi v = true -> exists n, v = Some (JInt n) /\ lo <= n <= hi.
Proof.
  destruct v as [[| |n| | |]|]; try discriminate. cbn [int_within].
  intros Hn. apply andb_true_iff in Hn as [Hlo Hhi].
  apply Z.leb_le in Hlo, Hhi. eauto.
Qed.

Lemma int_within_intro lo hi n : lo <= n <= hi -> int_within lo hi (Some (JInt n)) = true.
Proof. intros Hn. apply andb_true_iff. split; apply Z.leb_le; lia. Qed.

Lemma name_among_spec names v :
  name_among names v = true ->
  exists name, v = Some (JStr (text name)) /\ In name names.
Proof.
  destruct v as [[| | |s| |]|]; try discriminate. cbn [name_among].
  intros Hs. apply existsb_exists in Hs as (name & Hin & Heq).
  apply bool_decide_eq_true in Heq as <-. eauto.
Qed.

Lemma is_flag_spec v : is_flag v = true -> exists b, v = Some (JBool b).
Proof. destruct v as [[|b| | | |]|]; try discriminate. eauto. Qed.

(** Valid settings, item by item. *)
Lemma settings_valid_spec c :
  settings_valid c = true ->
  exists items theme minutes lang seconds length auto,
    c = JDict items
    /\ assoc (text "theme") items = Some (JStr (text theme))
    /\ In theme ["light"; "dark"]
    /\ assoc (text "interval_minutes") items = Some (JInt minutes)
    /\ 1 <= minutes <= 1440
    /\ assoc (text "language") items = Some (JStr (text lang))
    /\ In lang ["both"; "arabic"; "persian"]
    /\ assoc (text "notification_duration") items = Some (JInt seconds)
    /\ 5 <= seconds <= 60
    /\ assoc (text "max_length") items = Some (JInt length)
    /\ 100 <= length <= 500
    /\ assoc (text "auto_start") items = Some (JBool auto).
Proof.
  unfold settings_valid. intros Hvalid.
  apply andb_true_iff in Hvalid as [Hvalid Hflag].
  apply andb_true_iff in Hvalid as [Hvalid Hmax].
  apply andb_true_iff in Hvalid as [Hvalid Hduration].
  apply andb_true_iff in Hvalid as [Hvalid Hlanguage].
  apply andb_true_iff in Hvalid as [Hvalid Hinterval].
  destruct c as [| | | | |items]; try discriminate.
  cbn [getitem] in *.
  destruct (name_among_spec _ _ Hvalid) as (theme & Htheme & Hin).
  destruct (int_within_spec _ _ _ Hinterval) as (minutes & Hminutes & ?).
  destruct (name_among_spec _ _ Hlanguage) as (lang & Hlang & Hin').
  destruct (int_within_spec _ _ _ Hduration) as (seconds & Hseconds & ?).
  destruct (int_within_spec _ _ _ Hmax) as (length & Hlength & ?).
  destruct (is_flag_spec _ Hflag) as (auto & Hauto).
  exists items, theme, minutes, lang, seconds, length, auto. auto 15.
Qed.

Lemma spin_value_within lo hi n :
  -2147483648 <= lo -> hi <= 2147483647 -> lo <= n <= hi ->
  spin_value lo hi (JInt n) = Some n.
Proof.
  intros Hlo Hhi Hn. unfold spin_value, qt_int. cbn [as_int mbind option_bind].
  replace ((-2147483648 <=? n) && (n <=? 2147483647)) with true
    by (symmetry; apply andb_true_iff; split; apply Z.leb_le; lia).
  cbn [mbind option_bind]. f_equal. lia.
Qed.

Lemma index_of_theme theme :
  In theme ["light"; "dark"] ->
  exists ti,
    index_of [("light", 0); ("dark", 1)] (JStr (text theme)) = Some ti
    /\ name_of [(0, "light"); (1, "dark")] ti = Some (JStr (text theme)).
Proof. intros [<-|[<-|[]]]; eexists; split; reflexivity. Qed.

Lemma index_of_language lang :
  In lang ["both"; "arabic"; "persian"] ->
  exists li,
    index_of [("both", 0); ("arabic", 1); ("persian", 2)] (JStr (text lang)) = Some li
    /\ name_of [(0, "both"); (1, "arabic"); (2, "persian")] li = Some (JStr (text lang)).
Proof. intros [<-|[<-|[<-|[]]]]; eexists; split; reflexivity. Qed.

(** The widgets of a dialog opened on valid settings hold the
    settings. *)
Lemma init_ui_valid items theme minutes lang seconds length auto :
  assoc (text "theme") items = Some (JStr (text theme)) ->
  In theme ["light"; "dark"] ->
  assoc (text "interval_minutes") items = Some (JInt minutes) ->
  1 <= minutes <= 1440 ->
  assoc (text "language") items = Some (JStr (text lang)) ->
  In lang ["both"; "arabic"; "persian"] ->
  assoc (text "notification_duration") items = Some (JInt seconds) ->
  5 <= seconds <= 60 ->
  assoc (text "max_length") items = Some (JInt length) ->
  100 <= length <= 500 ->
  assoc (text "auto_start") items = Some (JBool auto) ->
  exists ti li,
    init_ui (JDict items)
    = Some {| theme_combo := ti; interval_spin := minutes; lang_combo := li;
              duration_spin := seconds; length_spin := length;
              autostart_check := auto |}
    /\ name_of [(0, "light"); (1, "dark")] ti = Some (JStr (text theme))
    /\ name_of [(0, "both"); (1, "arabic"); (2, "persian")] li = Some (JStr (text lang)).
Proof.
  intros Htheme Hin Hminutes ? Hlang Hin' Hseconds ? Hlength ? Hauto.
  destruct (index_of_theme _ Hin) as (ti & Hti & Hname).
  destruct (index_of_language _ Hin') as (li & Hli & Hname').
  exists ti, li. split; [|split; assumption].
  unfold init_ui. cbn [dict_get getitem].
  rewrite Htheme, Hminutes, Hlang, Hseconds, Hlength, Hauto.
  cbn [mbind option_bind].
  repeat (first [rewrite Hti | rewrite Hli | rewrite spin_value_within by lia];
          cbn [mbind option_bind]).
  destruct auto; reflexivity.
Qed.

Lemma assoc_set_same key x items :
  assoc key items = Some x -> assoc_set key x items = items.
Proof.
  induction items as [|[k v] items IH]; [discriminate|].
  cbn [assoc assoc_set]. destruct (decide (k = key)) as [->|Hne].
  - intros [= ->]. reflexivity.
  - intros Hx. rewrite IH by exact Hx. reflexivity.
Qed.

Lemma saved_items_theme w theme lang items :
  assoc (text "theme") (saved_items w theme lang items) = Some theme.
Proof.
  unfold saved_items.
  rewrite !(assoc_set_ne _ (text "theme")) by discriminate.
  apply assoc_set_eq.
Qed.

Lemma saved_items_language w theme lang items :
  assoc (text "language") (saved_items w theme lang items) = Some lang.
Proof.
  unfold saved_items.
  rewrite !(assoc_set_ne _ (text "language")) by discriminate.
  apply assoc_set_eq.
Qed.

Lemma saved_items_duration w theme lang items :
  assoc (text "notification_duration") (saved_items w theme lang items)
  = Some (JInt (duration_spin w)).
Proof.
  unfold saved_items.
  rewrite !(assoc_set_ne _ (text "notification_duration")) by discriminate.
  apply assoc_set_eq.
Qed.

Lemma saved_items_length w theme lang items :
  assoc (text "max_length") (saved_items w theme lang items)
  = Some (JInt (length_spin w)).
Proof.
  unfold saved_items.
  rewrite !(assoc_set_ne _ (text "max_length")) by discriminate.
  apply assoc_set_eq.
Qed.

Lemma saved_items_auto w theme lang items :
  assoc (text "auto_start") (saved_items w theme lang items)
  = Some (JBool (autostart_check w)).
Proof. unfold saved_items. apply assoc_set_eq. Qed.

Lemma name_of_theme_cases i theme :
  name_of [(0, "light"); (1, "dark")] i = Some theme ->
  (i = 0 /\ theme = JStr (text "light")) \/ (i = 1 /\ theme = JStr (text "dark")).
Proof.
  unfold name_of. cbn [find fst].
  destruct (Z.eqb_spec 0 i) as [<-|_]; [intros [= <-]; auto|].
  destruct (Z.eqb_spec 1 i) as [<-|_]; [intros [= <-]; auto|discriminate].
Qed.

Lemma name_of_language_cases i lang :
  name_of [(0, "both"); (1, "arabic"); (2, "persian")] i = Some lang ->
  (i = 0 /\ lang = JStr (text "both"))
  \/ (i = 1 /\ lang = JStr (text "arabic"))
  \/ (i = 2 /\ lang = JStr (text "persian")).
Proof.
  unfold name_of. cbn [find fst].
  destruct (Z.eqb_spec 0 i) as [<-|_]; [intros [= <-]; auto|].
  destruct (Z.eqb_spec 1 i) as [<-|_]; [intros [= <-]; auto|].
  destruct (Z.eqb_spec 2 i) as [<-|_]; [intros [= <-]; auto|discriminate].
Qed.

(** What [save_settings] writes is valid, whatever was there. *)
Lemma saved_items_valid w theme lang items :
  widgets_ok w ->
  name_of [(0, "light"); (1, "dark")] (theme_combo w) = Some theme ->
  name_of [(0, "both"); (1, "arabic"); (2, "persian")] (lang_combo w) = Some lang ->
  settings_valid (JDict (saved_items w theme lang items)) = true.
Proof.
  intros (_ & Hminutes & _ & Hseconds & Hlength) Htheme Hlang.
  unfold settings_valid. cbn [getitem].
  rewrite saved_items_theme, saved_items_interval, saved_items_language,
    saved_items_duration, saved_items_length, saved_items_auto.
  rewrite !int_within_intro by assumption.
  destruct (name_of_theme_cases _ _ Htheme) as [[_ ->]|[_ ->]];
    destruct (name_of_language_cases _ _ Hlang) as [[_ ->]|[[_ ->]|[_ ->]]];
    reflexivity.
Qed.

(** A dialog left with Save Settings that returned was opened on a
    [dict] that fills the widgets. *)
Lemma show_settings_returned edits d st st' :
  show_settings edits SaveSettings d st = (st', Some tt) ->
  exists items w0,
    store st !! config st = Some (JDict items) /\ init_ui (JDict items) = Some w0.
Proof.
  intros Hsave.
  pose proof (show_settings_unopened edits SaveSettings d st) as Hun.
  rewrite Hsave in Hun.
  destruct (store st !! config st) as [[|?|?|?|?|items]|] eqn:Hc;
    try solve [destruct Hun as [[=] _]; intros ? ? [=]].
  destruct (init_ui (JDict items)) as [w0|] eqn:Hinit;
    [eauto|destruct Hun as [[=] _]; intros ? ? [= <-]; congruence].
Qed.

(** Whatever the user does in the dialog and whatever the
    configuration held before, the configuration after Save Settings
    holds the six settings with the type and within the range of their
    widget: a theme and a language among the names of the tables, an
    interval from 1 to 1440 minutes, a duration from 5 to 60 seconds,
    a length from 100 to 500 characters, and a [bool]. *)
Theorem saved_settings_are_valid edits d st st' :
  show_settings edits SaveSettings d st = (st', Some tt) ->
  exists c, store st' !! config st' = Some c /\ settings_valid c = true.
Proof.
  intros Hsave.
  destruct (show_settings_returned _ _ _ _ Hsave) as (items & w0 & Hc & Hinit).
  destruct (show_settings_save edits d st items w0 Hc Hinit)
    as (theme & lang & st'' & Htheme & Hlang & Heq & Hcfg & Hstore & _).
  rewrite Hsave in Heq. injection Heq as <-.
  eexists. rewrite Hcfg, Hstore. split; [apply lookup_insert_eq|].
  apply saved_items_valid; [|exact Htheme|exact Hlang].
  apply edits_ok. eapply init_ui_ok. exact Hinit.
Qed.

(** *** No slot raises on valid settings *)

Lemma qt_int_within z : -2147483648 <= z <= 2147483647 -> qt_int z = Some z.
Proof.
  intros Hz. unfold qt_int.
  replace ((-2147483648 <=? z) && (z <=? 2147483647)) with true; [reflexivity|].
  symmetry. apply andb_true_iff. split; apply Z.leb_le; lia.
Qed.

(** [display_ayah] on a configuration that has what the window needs. *)
Lemma display_ayah_eq a p r st c duration seconds lang th :
  store st !! config st = Some c ->
  getitem c (text "notification_duration") = Some duration ->
  as_int duration = Some seconds ->
  -2147483648 <= seconds * 1000 <= 2147483647 ->
  getitem c (text "language") = Some lang ->
  dict_get c (text "theme") (JStr (text "light")) = Some th ->
  display_ayah a p r st
  = (with_notification
       (Some {| arabic := a; persian := p; reference := r;
                close_after := seconds * 1000; language := lang; theme := th;
                visible := true |}) st,
     Some tt).
Proof.
  intros Hc Hduration Hseconds Hfits Hlang Hth.
  unfold display_ayah. step_H. cbn [store config with_notification].
  rewrite Hc. cbn [mbind option_bind]. rewrite Hduration.
  step_H. cbn [store config with_notification].
  rewrite Hc. cbn [mbind option_bind]. rewrite Hlang.
  step_H. cbn [store config with_notification].
  rewrite Hc. cbn [mbind option_bind]. rewrite Hth.
  step_H. unfold BeautifulNotification. rewrite Hseconds. cbn [mbind option_bind].
  rewrite qt_int_within by exact Hfits. cbn [mbind option_bind].
  reflexivity.
Qed.












(** *** The dialog and the configuration *)

(** Opening the dialog on valid settings and leaving it with Save
    Settings without touching a widget keeps every item of the
    configuration, also those the dialog does not know, in their
    order: the new configuration is a copy equal to the old one, and
    it is what goes to the disk. *)
Theorem unedited_settings_are_kept d st :
  config_valid st ->
  exists st' c,
    handle (Settings [] SaveSettings d) st = (st', Some tt)
    /\ store st !! config st = Some c
    /\ config st' <> config st
    /\ store st' !! config st' = Some c
    /\ files st' = disk_after d (Json.dumps c) (files st).
Proof.
  intros (c & Hc & Hvalid).
  destruct (settings_valid_spec c Hvalid)
    as (items & theme & minutes & lang & seconds & length & auto & -> & Htheme & Hin
        & Hminutes & ? & Hlang & Hin' & Hseconds & ? & Hlength & ? & Hauto).
  destruct (init_ui_valid items theme minutes lang seconds length auto)
    as (ti & li & Hinit & Hti & Hli); try assumption.
  destruct (show_settings_save [] d st items _ Hc Hinit)
    as (theme' & lang' & st' & Htheme' & Hlang' & Heq & Hcfg & Hstore & Hfiles & _).
  cbn [fold_left theme_combo lang_combo] in Htheme', Hlang'.
  rewrite Hti in Htheme'. rewrite Hli in Hlang'.
  injection Htheme' as <-. injection Hlang' as <-.
  assert (Hsame : saved_items
                    {| theme_combo := ti; interval_spin := minutes; lang_combo := li;
                       duration_spin := seconds; length_spin := length;
                       autostart_check := auto |}
                    (JStr (text theme)) (JStr (text lang)) items = items).
  { unfold saved_items.
    cbn [interval_spin duration_spin length_spin autostart_check].
    rewrite (assoc_set_same _ _ _ Htheme), (assoc_set_same _ _ _ Hminutes),
      (assoc_set_same _ _ _ Hlang), (assoc_set_same _ _ _ Hseconds),
      (assoc_set_same _ _ _ Hlength), (assoc_set_same _ _ _ Hauto).
    reflexivity. }
  cbn [fold_left] in Hstore, Hfiles. rewrite Hsame in Hstore, Hfiles.
  exists st', (JDict items). cbn [handle].
  split; [exact Heq|]. split; [exact Hc|].
  split; [rewrite Hcfg; eapply fresh_other; exact Hc|].
  split; [rewrite Hcfg, Hstore; apply lookup_insert_eq|exact Hfiles].
Qed.

Lemma name_among_false_index table names v :
  names = map fst table ->
  name_among names (Some v) = false ->
  index_of table v = None \/ index_of table v = Some 0.
Proof.
  intros -> Hnot. destruct v as [| | |s| |]; cbn [index_of]; auto.
  right. f_equal.
  destruct (find _ table) as [kv|] eqn:Hfind; [|reflexivity].
  apply find_some in Hfind as [Hin Heq].
  cbn [name_among] in Hnot.
  assert (Hyes : existsb (fun name => bool_decide (text name = s)) (map fst table) = true).
  { apply existsb_exists. exists (fst kv). split; [apply in_map, Hin|exact Heq]. }
  congruence.
Qed.

(** The widgets [init_ui] fills, one by one. *)
Lemma init_ui_fields c w0 :
  init_ui c = Some w0 ->
  exists theme minutes lang seconds length auto,
    dict_get c (text "theme") (JStr (text "light")) = Some theme
    /\ index_of [("light", 0); ("dark", 1)] theme = Some (theme_combo w0)
    /\ getitem c (text "interval_minutes") = Some minutes
    /\ spin_value 1 1440 minutes = Some (interval_spin w0)
    /\ getitem c (text "language") = Some lang
    /\ index_of [("both", 0); ("arabic", 1); ("persian", 2)] lang = Some (lang_combo w0)
    /\ getitem c (text "notification_duration") = Some seconds
    /\ spin_value 5 60 seconds = Some (duration_spin w0)
    /\ getitem c (text "max_length") = Some length
    /\ spin_value 100 500 length = Some (length_spin w0)
    /\ getitem c (text "auto_start") = Some auto
    /\ qt_bool auto = Some (autostart_check w0).
Proof.
  unfold init_ui.
  destruct (dict_get c (text "theme") (JStr (text "light"))) as [theme|] eqn:E1;
    [|discriminate]. cbn [mbind option_bind].
  destruct (index_of _ theme) as [ti|] eqn:E2; [|discriminate]. cbn [mbind option_bind].
  destruct (getitem c (text "interval_minutes")) as [minutes|] eqn:E3; [|discriminate].
  cbn [mbind option_bind].
  destruct (spin_value 1 1440 minutes) as [interval|] eqn:E4; [|discriminate].
  cbn [mbind option_bind].
  destruct (getitem c (text "language")) as [lang|] eqn:E5; [|discriminate].
  cbn [mbind option_bind].
  destruct (index_of _ lang) as [li|] eqn:E6; [|discriminate]. cbn [mbind option_bind].
  destruct (getitem c (text "notification_duration")) as [seconds|] eqn:E7; [|discriminate].
  cbn [mbind option_bind].
  destruct (spin_value 5 60 seconds) as [duration|] eqn:E8; [|discriminate].
  cbn [mbind option_bind].
  destruct (getitem c (text "max_length")) as [length|] eqn:E9; [|discriminate].
  cbn [mbind option_bind].
  destruct (spin_value 100 500 length) as [len|] eqn:E10; [|discriminate].
  cbn [mbind option_bind].
  destruct (getitem c (text "auto_start")) as [auto|] eqn:E11; [|discriminate].
  cbn [mbind option_bind].
  destruct (qt_bool auto) as [checked|] eqn:E12; [|discriminate]. cbn [mbind option_bind].
  intros [= <-]. exists theme, minutes, lang, seconds, length, auto.
  cbn [theme_combo interval_spin lang_combo duration_spin length_spin autostart_check].
  repeat split; assumption.
Qed.

(** Save Settings without an edit brings a configuration written by
    hand into the ranges of the widgets: a language or a theme that
    is none of the names of the tables is saved as the first name
    (["both"], ["light"]), and a number outside the range of its spin
    box as the nearest end of the range. *)
Theorem unedited_save_normalises d st st' c :
  store st !! config st = Some c ->
  show_settings [] SaveSettings d st = (st', Some tt) ->
  exists c',
    store st' !! config st' = Some c'
    /\ (name_among ["both"; "arabic"; "persian"] (getitem c (text "language")) = false ->
        getitem c' (text "language") = Some (JStr (text "both")))
    /\ (name_among ["light"; "dark"] (getitem c (text "theme")) = false ->
        getitem c' (text "theme") = Some (JStr (text "light")))
    /\ (forall n, getitem c (text "interval_minutes") = Some (JInt n) ->
          getitem c' (text "interval_minutes") = Some (JInt (clamp 1 1440 n)))
    /\ (forall n, getitem c (text "notification_duration") = Some (JInt n) ->
          getitem c' (text "notification_duration") = Some (JInt (clamp 5 60 n)))
    /\ (forall n, getitem c (text "max_length") = Some (JInt n) ->
          getitem c' (text "max_length") = Some (JInt (clamp 100 500 n))).
Proof.
  intros Hc Hsave.
  destruct (show_settings_returned _ _ _ _ Hsave) as (items & w0 & Hc' & Hinit).
  assert (c = JDict items) as -> by congruence.
  destruct (show_settings_save [] d st items w0 Hc' Hinit)
    as (theme' & lang' & st'' & Htheme' & Hlang' & Heq & Hcfg & Hstore & _).
  rewrite Hsave in Heq. injection Heq as <-.
  cbn [fold_left] in Htheme', Hlang', Hstore.
  destruct (init_ui_fields _ _ Hinit)
    as (theme & minutes & lang & seconds & length & auto & Htheme & Hti & Hminutes & Hspin1
        & Hlang & Hli & Hseconds & Hspin2 & Hlength & Hspin3 & _).
  eexists. split; [rewrite Hcfg, Hstore; apply lookup_insert_eq|].
  cbn [getitem]. rewrite saved_items_language, saved_items_theme,
    saved_items_interval, saved_items_duration, saved_items_length.
  assert (Hclamp : forall lo hi n v,
            spin_value lo hi (JInt n) = Some v -> v = clamp lo hi n).
  { intros lo hi n v. unfold spin_value. cbn [as_int mbind option_bind].
    destruct (qt_int n) as [n'|] eqn:Hn; [|discriminate].
    apply qt_int_some in Hn as ->. cbn [mbind option_bind]. intros [= <-]. reflexivity. }
  split; [|split; [|split; [|split]]].
  - intros Hnot. cbn [getitem] in Hlang, Hnot. rewrite Hlang in Hnot.
    destruct (name_among_false_index
                [("both", 0); ("arabic", 1); ("persian", 2)] _ lang eq_refl Hnot)
      as [Hnone|Hzero]; [congruence|].
    rewrite Hzero in Hli. injection Hli as Hli. rewrite <- Hli in Hlang'.
    injection Hlang' as <-. reflexivity.
  - intros Hnot. cbn [getitem dict_get] in Htheme, Hnot.
    assert (Hindex : index_of [("light", 0); ("dark", 1)] theme = Some 0).
    { destruct (assoc (text "theme") items) as [x|].
      - injection Htheme as ->.
        destruct (name_among_false_index
                    [("light", 0); ("dark", 1)] _ theme eq_refl Hnot)
          as [Hnone|Hzero]; [congruence|exact Hzero].
      - injection Htheme as <-. reflexivity. }
    rewrite Hindex in Hti. injection Hti as Hti. rewrite <- Hti in Htheme'.
    injection Htheme' as <-. reflexivity.
  - intros n Hn. cbn [getitem] in Hminutes. rewrite Hn in Hminutes.
    injection Hminutes as <-. rewrite (Hclamp _ _ _ _ Hspin1). reflexivity.
  - intros n Hn. cbn [getitem] in Hseconds. rewrite Hn in Hseconds.
    injection Hseconds as <-. rewrite (Hclamp _ _ _ _ Hspin2). reflexivity.
  - intros n Hn. cbn [getitem] in Hlength. rewrite Hn in Hlength.
    injection Hlength as <-. rewrite (Hclamp _ _ _ _ Hspin3). reflexivity.
Qed.

(** *** Settings that lack a key *)

Lemma init_ui_needs_key c key :
  In key ["interval_minutes"; "language"; "notification_duration"; "max_length";
          "auto_start"] ->
  getitem c (text key) = None ->
  init_ui c = None.
Proof.
  intros Hin Hkey.
  destruct (init_ui c) as [w0|] eqn:Hinit; [|reflexivity].
  destruct (init_ui_fields _ _ Hinit)
    as (theme & minutes & lang & seconds & length & auto & _ & _ & Hminutes & _
        & Hlang & _ & Hseconds & _ & Hlength & _ & Hauto & _).
  destruct Hin as [<-|[<-|[<-|[<-|[<-|[]]]]]]; congruence.
Qed.

(** A configuration that lacks one of the five keys [init_ui]
    subscripts (as a settings file written by hand may) cannot be
    repaired in the dialog: Settings raises before the dialog is
    shown, whatever the user would do in it, and the configuration,
    the files, the timer and the menu stay as they are. *)
Theorem settings_cannot_open_without_key key edits b d st c :
  In key ["interval_minutes"; "language"; "notification_duration"; "max_length";
          "auto_start"] ->
  store st !! config st = Some c ->
  getitem c (text key) = None ->
  snd (handle (Settings edits b d) st) = None
  /\ config (fst (handle (Settings edits b d) st)) = config st
  /\ store (fst (handle (Settings edits b d) st)) !! config st = Some c
  /\ files (fst (handle (Settings edits b d) st)) = files st
  /\ timer (fst (handle (Settings edits b d) st)) = timer st
  /\ start_action (fst (handle (Settings edits b d) st)) = start_action st
  /\ stop_action (fst (handle (Settings edits b d) st)) = stop_action st.
Proof.
  intros Hin Hc Hkey. cbn [handle].
  destruct (show_settings_unopened edits b d st) as [Hraise Hstate].
  { intros items w0 Hc' Hinit.
    assert (c = JDict items) as -> by congruence.
    rewrite (init_ui_needs_key _ _ Hin Hkey) in Hinit. discriminate. }
  split; [exact Hraise|].
  destruct Hstate as [-> | (c' & Hc' & ->)]; [auto 10|].
  cbn [config store files timer start_action stop_action with_store].
  repeat split; try reflexivity.
  rewrite lookup_insert_ne; [exact Hc|]. eapply fresh_other. exact Hc.
Qed.

Lemma assoc_app_new key x items :
  assoc key items = None -> assoc key (items ++ [(key, x)]) = Some x.
Proof.
  induction items as [|[k v] items IH]; cbn [assoc app].
  - intros _. rewrite decide_True by reflexivity. reflexivity.
  - destruct (decide (k = key)); [discriminate|exact IH].
Qed.

Lemma assoc_app_other key key' x items :
  key' <> key -> assoc key (items ++ [(key', x)]) = assoc key items.
Proof.
  intros Hne. induction items as [|[k v] items IH]; cbn [assoc app].
  - rewrite decide_False by exact Hne. reflexivity.
  - destruct (decide (k = key)); [reflexivity|exact IH].
Qed.

(** The theme is the one setting that may be missing: a configuration
    without the key fills the dialog, and makes the window of a verse,
    exactly as the same configuration with the theme ["light"]. *)
Theorem missing_theme_is_light items a p r st :
  assoc (text "theme") items = None ->
  store st !! config st = Some (JDict items) ->
  let st_light :=
    with_store <[config st := JDict (items ++ [(text "theme", JStr (text "light"))])]> st in
  init_ui (JDict items)
  = init_ui (JDict (items ++ [(text "theme", JStr (text "light"))]))
  /\ snd (display_ayah a p r st) = snd (display_ayah a p r st_light)
  /\ current_notification (fst (display_ayah a p r st))
     = current_notification (fst (display_ayah a p r st_light)).
Proof.
  intros Htheme Hc st_light.
  assert (Hlight : store st_light !! config st_light
                   = Some (JDict (items ++ [(text "theme", JStr (text "light"))])))
    by apply lookup_insert_eq.
  split.
  - unfold init_ui. cbn [dict_get getitem].
    rewrite Htheme, assoc_app_new by exact Htheme.
    rewrite !assoc_app_other by discriminate. reflexivity.
  - assert (Hnew : assoc (text "theme") (items ++ [(text "theme", JStr (text "light"))])
                   = Some (JStr (text "light")))
      by (apply assoc_app_new; exact Htheme).
    unfold display_ayah. step_H. subst st_light.
    cbn [store config with_notification current_notification with_store].
    rewrite lookup_insert_eq, Hc. cbn [mbind option_bind getitem dict_get].
    rewrite assoc_app_other by discriminate.
    destruct (assoc (text "notification_duration") items) as [duration|];
      [|split; reflexivity].
    step_H. cbn [store config with_notification with_store].
    rewrite lookup_insert_eq, Hc. cbn [mbind option_bind getitem dict_get].
    rewrite assoc_app_other by discriminate.
    destruct (assoc (text "language") items) as [lang|]; [|split; reflexivity].
    step_H. cbn [store config with_notification with_store].
    rewrite lookup_insert_eq, Hc. cbn [mbind option_bind getitem dict_get].
    rewrite Htheme, Hnew.
    step_H.
    destruct (BeautifulNotification a p r duration lang (JStr (text "light")));
      split; reflexivity.
Qed.

(** *** The disk, the balloons, the window *)

(** Whether the write of [save_config] succeeds, is refused or is cut
    short makes no difference to the running application: Settings
    returns or raises alike, and leaves the same configuration, timer,
    menu and windows; only the files differ, and a refused write
    leaves them as they were.  Nothing tells the user that the
    settings in use are not the ones on the disk. *)
Theorem disk_failure_is_not_noticed edits b d d' st :
  snd (handle (Settings edits b d) st) = snd (handle (Settings edits b d') st)
  /\ in_memory (fst (handle (Settings edits b d) st))
     = in_memory (fst (handle (Settings edits b d') st))
  /\ files (fst (handle (Settings edits b Refused) st)) = files st.
Proof.
  cbn [handle].
  assert (Hsame : forall x y : state,
    store x = store y -> config x = config y -> timer x = timer y ->
    start_action x = start_action y -> stop_action x = stop_action y ->
    current_notification x = current_notification y -> tray x = tray y ->
    fetcher x = fetcher y -> threads x = threads y ->
    in_memory x = in_memory y).
  { intros [] []. cbn. intros. subst. reflexivity. }
  destruct b; [|split; [reflexivity|split; [reflexivity|]]].
  - destruct (store st !! config st) as [[|?|?|?|?|items]|] eqn:Hc;
      try solve [unfold show_settings;
                 repeat first [rewrite bind_eq | rewrite get_eq
                              | rewrite SettingsDialog_eq];
                 rewrite ?Hc; split; [reflexivity|split; reflexivity]].
    destruct (init_ui (JDict items)) as [w0|] eqn:Hinit;
      [|unfold show_settings;
        repeat first [rewrite bind_eq | rewrite get_eq | rewrite SettingsDialog_eq];
        rewrite ?Hc, ?Hinit; split; [reflexivity|split; reflexivity]].
    destruct (show_settings_save edits d st items w0 Hc Hinit)
      as (theme & lang & st1 & Ht1 & Hl1 & -> & ? & ? & ? & ? & ? & ? & ? & ? & ? & ?).
    destruct (show_settings_save edits d' st items w0 Hc Hinit)
      as (theme' & lang' & st2 & Ht2 & Hl2 & -> & ? & ? & ? & ? & ? & ? & ? & ? & ? & ?).
    destruct (show_settings_save edits Refused st items w0 Hc Hinit)
      as (? & ? & st3 & _ & _ & -> & _ & _ & Hfiles & _).
    cbv zeta in *. rewrite Ht1 in Ht2. rewrite Hl1 in Hl2.
    injection Ht2 as <-. injection Hl2 as <-.
    cbn [fst snd]. split; [reflexivity|]. split; [|exact Hfiles].
    apply Hsame; congruence.
  - destruct (show_settings_cancel edits Refused st) as [-> | (c & _ & ->)]; reflexivity.
Qed.

(** A balloon of the tray icon comes from the entries Start Reminders
    and Pause Reminders of the menu and from nothing else: a start
    that returns shows one balloon with the interval of the
    configuration, a pause shows one, and the time-out, Show Ayah Now,
    a fetched verse and the settings dialog (which restarts a running
    timer) show none. *)
Theorem balloons_come_from_the_menu st :
  (forall e, e <> StartReminders -> e <> PauseReminders ->
     tray (fst (handle e st)) = tray st)
  /\ (forall st', handle StartReminders st = (st', Some tt) ->
        exists c minutes,
          store st !! config st = Some c
          /\ getitem c (text "interval_minutes") = Some minutes
          /\ tray st' = RemindersStarted minutes :: tray st)
  /\ (snd (handle StartReminders st) = None ->
      tray (fst (handle StartReminders st)) = tray st)
  /\ tray (fst (handle PauseReminders st)) = RemindersPaused :: tray st.
Proof.
  split; [|split; [|split]].
  - intros e Hstart Hpause.
    destruct e as [| | |edits b d| |a p r]; try congruence; cbn [handle].
    + unfold show_ayah_now.
      destruct (fetch_and_show_ayah_spec st) as [(c & bound & _ & _ & ->)| ->];
        reflexivity.
    + destruct b.
      * pose proof (show_settings_unopened edits SaveSettings d st) as Hun.
        destruct (store st !! config st) as [[|?|?|?|?|items]|] eqn:Hc;
          try solve [destruct Hun as [_ [-> | (c & _ & ->)]];
                     [intros ? ? [=]|reflexivity..]].
        destruct (init_ui (JDict items)) as [w0|] eqn:Hinit.
        -- destruct (show_settings_save edits d st items w0 Hc Hinit)
             as (theme & lang & st' & _ & _ & -> & _ & _ & _ & _ & _ & _ & Htray & _).
           exact Htray.
        -- destruct Hun as [_ [-> | (c & _ & ->)]];
             [intros ? ? [= <-]; congruence|reflexivity..].
      * destruct (show_settings_cancel edits d st) as [-> | (c & _ & ->)]; reflexivity.
    + destruct (fetch_and_show_ayah_spec st) as [(c & bound & _ & _ & ->)| ->];
        reflexivity.
    + destruct (display_ayah_frame a p r st) as [n ->]. reflexivity.
  - intros st' Hstart. cbn [handle] in Hstart.
    destruct (start_reminders_spec false st)
      as [(c & m & n & ms & Hc & Hm & _ & _ & Heq)|Heq];
      rewrite Heq in Hstart; [|discriminate].
    injection Hstart as <-. exists c, m. auto.
  - cbn [handle]. intros Hraise.
    destruct (start_reminders_spec false st)
      as [(c & m & n & ms & _ & _ & _ & _ & Heq)|Heq];
      rewrite Heq in *; [discriminate|reflexivity].
  - cbn [handle]. rewrite stop_reminders_spec. reflexivity.
Qed.

(** [display_ayah] either returns, and the window of the new verse is
    the one notification, on screen with the three texts it was
    given; or raises (the configuration lacks what the window needs),
    and then the notification that was on screen has been closed all
    the same and stays the current one. *)
Theorem display_ayah_replaces_the_window a p r st :
  (snd (display_ayah a p r st) = Some tt
   /\ exists n,
        current_notification (fst (display_ayah a p r st)) = Some n
        /\ visible n = true
        /\ arabic n = a /\ persian n = p /\ reference n = r)
  \/ (snd (display_ayah a p r st) = None
      /\ current_notification (fst (display_ayah a p r st))
         = close_window <$> current_notification st).
Proof.
  unfold display_ayah. step_H. cbn [store config with_notification].
  destruct (store st !! config st) as [c|] eqn:Hc; cbn [mbind option_bind];
    [|right; split; reflexivity].
  destruct (getitem c (text "notification_duration")) as [duration|];
    [|right; split; reflexivity].
  step_H. cbn [store config with_notification]. rewrite Hc. cbn [mbind option_bind].
  destruct (getitem c (text "language")) as [lang|]; [|right; split; reflexivity].
  step_H. cbn [store config with_notification]. rewrite Hc. cbn [mbind option_bind].
  destruct (dict_get c (text "theme") (JStr (text "light"))) as [th|];
    [|right; split; reflexivity].
  step_H. unfold BeautifulNotification.
  destruct (as_int duration) as [seconds|]; [|right; split; reflexivity].
  cbn [mbind option_bind].
  destruct (qt_int (seconds * 1000)) as [ms|]; [|right; split; reflexivity].
  cbn [mbind option_bind]. left. split; [reflexivity|].
  eexists. split; [reflexivity|]. repeat split; reflexivity.
Qed.

(** *** Settings that stop the application *)

(** An interval whose milliseconds do not fit the [int] argument of
    [QTimer.start] (35792 minutes and more) cannot be started:
    [start_reminders] raises before it touches the timer or the menu,
    so Start Reminders stays enabled and does nothing, every time. *)
Theorem long_interval_cannot_be_started silent st c minutes :
  store st !! config st = Some c ->
  getitem c (text "interval_minutes") = Some (JInt minutes) ->
  35792 <= minutes ->
  start_reminders silent st = (st, None).
Proof.
  intros Hc Hminutes Hlong.
  destruct (start_reminders_spec silent st)
    as [(c' & m & n & ms & Hc' & Hm & Hn & Hms & _)|Heq]; [|exact Heq].
  exfalso. assert (c' = c) as -> by congruence.
  rewrite Hminutes in Hm. injection Hm as <-. injection Hn as <-.
  unfold qt_int in Hms.
  destruct ((-2147483648 <=? minutes * 60 * 1000) && (minutes * 60 * 1000 <=? 2147483647))
    eqn:E; [|discriminate].
  apply andb_true_iff in E as [_ E]. apply Z.leb_le in E. lia.
Qed.


(** [display_ayah] on a configuration with a language: the window, if
    any, has that language and the reference it was given. *)
Lemma display_ayah_replaces_window_cases a p r st c lang :
  store st !! config st = Some c ->
  getitem c (text "language") = Some lang ->
  (exists n,
     display_ayah a p r st = (with_notification (Some n) st, Some tt)
     /\ language n = lang /\ reference n = r)
  \/ snd (display_ayah a p r st) = None.
Proof.
  intros Hc Hlang.
  unfold display_ayah. step_H. cbn [store config with_notification].
  rewrite Hc. cbn [mbind option_bind].
  destruct (getitem c (text "notification_duration")) as [duration|];
    [|right; reflexivity].
  step_H. cbn [store config with_notification]. rewrite Hc. cbn [mbind option_bind].
  rewrite Hlang.
  step_H. cbn [store config with_notification]. rewrite Hc. cbn [mbind option_bind].
  destruct (dict_get c (text "theme") (JStr (text "light"))) as [th|];
    [|right; reflexivity].
  step_H. unfold BeautifulNotification.
  destruct (as_int duration) as [seconds|]; [|right; reflexivity].
  cbn [mbind option_bind].
  destruct (qt_int (seconds * 1000)) as [ms|]; [|right; reflexivity].
  cbn [mbind option_bind]. left.
  eexists. split; [reflexivity|]. split; reflexivity.
Qed.

(** *** From the dialog to the window *)

Lemma among_name_among v names : among v names = name_among names (Some v).
Proof.
  unfold among. destruct v as [| | |s| |]; cbn [name_among];
    try (induction names as [|name names IH]; [reflexivity|exact IH]).
  induction names as [|name names IH]; [reflexivity|].
  cbn [existsb is_text]. rewrite IH. f_equal.
  apply bool_decide_ext. split; congruence.
Qed.

(** The texts on the window, by the language of the notification. *)
Lemma texts_by_language n :
  texts n
  = (if among (language n) ["both"; "arabic"] then [arabic n] else [])
    ++ (if among (language n) ["both"; "persian"] then [persian n] else [])
    ++ [reference n].
Proof.
  unfold texts, body. cbv zeta.
  destruct (among (language n) ["both"; "arabic"]);
    destruct (among (language n) ["both"; "persian"]); reflexivity.
Qed.

(** What the user chose last in the dialog before Save Settings is
    what the window of the next verse shows: the language chosen in
    the combo box decides which of the two texts stand above the
    reference (both, the Arabic one, the Persian one), the theme
    decides the colours, and the window closes after the chosen
    number of seconds, brought into the range of the spin box. *)
Theorem chosen_settings_are_shown edits i j seconds d a p r st st1 :
  0 <= i < 3 ->
  0 <= j < 2 ->
  handle (Settings (edits ++ [ChooseLanguage i; ChooseTheme j; SetDuration seconds])
            SaveSettings d) st = (st1, Some tt) ->
  exists n,
    display_ayah a p r st1 = (with_notification (Some n) st1, Some tt)
    /\ texts n = nth (Z.to_nat i) [[a; p; r]; [a; r]; [p; r]] []
    /\ palette_of (theme n)
       = palette_of (JStr (text (if j =? 1 then "dark" else "light")))
    /\ close_after n = clamp 5 60 seconds * 1000
    /\ visible n = true.
Proof.
  intros Hi Hj Hsave. cbn [handle] in Hsave.
  destruct (show_settings_returned _ _ _ _ Hsave) as (items & w0 & Hc & Hinit).
  destruct (show_settings_save
              (edits ++ [ChooseLanguage i; ChooseTheme j; SetDuration seconds])
              d st items w0 Hc Hinit)
    as (theme & lang & st' & Htheme & Hlang & Heq & Hcfg & Hstore & _).
  rewrite Hsave in Heq. injection Heq as <-.
  cbv zeta in Htheme, Hlang, Hstore.
  set (w := fold_left apply_edit
              (edits ++ [ChooseLanguage i; ChooseTheme j; SetDuration seconds]) w0) in *.
  assert (Hw : lang_combo w = i /\ theme_combo w = j
               /\ duration_spin w = clamp 5 60 seconds).
  { unfold w. rewrite fold_left_app. cbn [fold_left apply_edit].
    cbn [lang_combo theme_combo duration_spin].
    unfold in_combo.
    replace ((0 <=? i) && (i <? 3)) with true
      by (symmetry; apply andb_true_iff; split; [apply Z.leb_le|apply Z.ltb_lt]; lia).
    replace ((0 <=? j) && (j <? 2)) with true
      by (symmetry; apply andb_true_iff; split; [apply Z.leb_le|apply Z.ltb_lt]; lia).
    auto. }
  destruct Hw as (Hwl & Hwt & Hwd). rewrite Hwl in Hlang. rewrite Hwt in Htheme.
  assert (Hnew : store st1 !! config st1
                 = Some (JDict (saved_items w theme lang items)))
    by (rewrite Hcfg, Hstore; apply lookup_insert_eq).
  eexists. split.
  - eapply display_ayah_eq with (seconds := clamp 5 60 seconds).
    + exact Hnew.
    + cbn [getitem]. rewrite saved_items_duration, Hwd. reflexivity.
    + reflexivity.
    + unfold clamp. lia.
    + cbn [getitem]. apply saved_items_language.
    + cbn [dict_get]. rewrite saved_items_theme. reflexivity.
  - cbn [close_after visible App.theme].
    split; [|split; [|split; reflexivity]].
    + rewrite texts_by_language. cbn [App.language arabic persian reference].
      destruct (name_of_language_cases _ _ Hlang) as [[-> ->]|[[-> ->]|[-> ->]]];
        reflexivity.
    + destruct (name_of_theme_cases _ _ Htheme) as [[-> ->]|[-> ->]]; reflexivity.
Qed.

(** A language that is none of the three names (a settings file
    written by hand) is treated in two ways: the dialog, if it opens,
    shows the first entry, both texts; the window of a verse shows
    neither text, only the reference. *)
Theorem unknown_language_shows_no_text a p r st c lang :
  store st !! config st = Some c ->
  getitem c (text "language") = Some lang ->
  name_among ["both"; "arabic"; "persian"] (Some lang) = false ->
  (forall w0, init_ui c = Some w0 -> lang_combo w0 = 0)
  /\ (forall st', display_ayah a p r st = (st', Some tt) ->
        exists n, current_notification st' = Some n /\ texts n = [r]).
Proof.
  intros Hc Hlang Hnot. split.
  - intros w0 Hinit.
    destruct (init_ui_fields _ _ Hinit)
      as (_ & _ & lang' & _ & _ & _ & _ & _ & _ & _ & Hlang' & Hli & _).
    assert (lang' = lang) as -> by congruence.
    destruct (name_among_false_index
                [("both", 0); ("arabic", 1); ("persian", 2)] _ lang eq_refl Hnot)
      as [Hnone|Hzero]; congruence.
  - intros st' Hshow.
    destruct (display_ayah_replaces_window_cases a p r st c lang Hc Hlang)
      as [(n & Heq & Hn & Hr)|Hraise]; [|rewrite Hshow in Hraise; discriminate].
    rewrite Hshow in Heq. injection Heq as ->.
    exists n. split; [reflexivity|].
    rewrite texts_by_language, Hn, Hr.
    rewrite <- among_name_among in Hnot. unfold among in *.
    cbn [existsb] in *.
    apply orb_false_iff in Hnot as [Hboth Hnot].
    apply orb_false_iff in Hnot as [Harabic Hnot].
    apply orb_false_iff in Hnot as [Hpersian _].
    rewrite Hboth, Harabic, Hpersian. reflexivity.
Qed.

(** *** The period of the timer *)


(** *** Quitting and starting again *)

(** [__init__] when [load_config] gives valid settings. *)
Lemma init_of_loaded fs v :
  load_config (boot fs)
  = (with_store <[fresh (dom (store (boot fs))) := v]> (boot fs),
     Some (fresh (dom (store (boot fs))))) ->
  settings_valid v = true ->
  exists st2, init (boot fs) = (st2, Some tt) /\ store st2 !! config st2 = Some v.
Proof.
  intros Hload Hvalid.
  destruct (settings_valid_spec v Hvalid)
    as (items & theme & minutes & lang & seconds & length & auto & -> & _ & _
        & Hminutes & ? & _ & _ & _ & _ & _ & _ & Hauto).
  unfold init. rewrite bind_eq, Hload.
  do 4 rewrite bind_eq, modify_eq.
  rewrite bind_eq, config_item_eq.
  cbn [store config with_store with_config with_actions with_timer with_notification].
  rewrite lookup_insert_eq. cbn [mbind option_bind getitem]. rewrite Hauto.
  cbn [truthy]. destruct auto.
  - erewrite start_reminders_ok;
      [|cbn [store config with_store with_config with_actions with_timer
             with_notification]; apply lookup_insert_eq
       |exact Hminutes|reflexivity|apply qt_int_minutes; assumption].
    eexists. split; [reflexivity|]. apply lookup_insert_eq.
  - eexists. split; [reflexivity|]. apply lookup_insert_eq.
Qed.




(** *** A write cut short *)

(** When the write of Save Settings fails after some characters, the
    settings file is left with a beginning of the text, which is not
    JSON: the application goes on with the new settings, and started
    again it falls back to the defaults; the file is never taken for
    other settings than those written. *)
Theorem cut_write_falls_back_to_defaults fs st edits n st' :
  disk_decoded fs ->
  reachable fs st ->
  handle (Settings edits SaveSettings (Cut n)) st = (st', Some tt) ->
  exists c',
    store st' !! config st' = Some c'
    /\ files st' !! CONFIG_FILE = Some (Some (take n (Json.dumps c')))
    /\ ((n < length (Json.dumps c'))%nat ->
        load_config st' = copy DEFAULT_CONFIG st'
        /\ exists p2,
             main (files st') = Some p2
             /\ store (tray_app p2) !! config (tray_app p2)
                = Some (JDict DEFAULT_CONFIG_items)).
Proof.
  intros Hdisk Hreach Hsave. cbn [handle] in Hsave.
  assert (Hinv : config_reads_back st).
  { clear Hsave. induction Hreach as [st Hinit|st e _ IH _].
    - exact (init_reads_back fs st Hdisk Hinit).
    - apply handle_reads_back, IH. }
  destruct Hinv as (v & Hv & Hok).
  destruct (show_settings_returned _ _ _ _ Hsave) as (items & w0 & Hc & Hinit).
  assert (v = JDict items) as -> by congruence.
  destruct (show_settings_save edits (Cut n) st items w0 Hc Hinit)
    as (theme & lang & st'' & Htheme & Hlang & Heq & Hcfg & Hstore & Hfiles & _).
  rewrite Hsave in Heq. injection Heq as <-.
  cbv zeta in Htheme, Hlang, Hstore, Hfiles. cbn [disk_after] in Hfiles.
  set (new := saved_items (fold_left apply_edit edits w0) theme lang items) in *.
  assert (Hok' : Json.json_ok (JDict new)).
  { apply saved_items_ok;
      [exact (name_of_ok _ _ _ Htheme)|exact (name_of_ok _ _ _ Hlang)|exact Hok]. }
  exists (JDict new).
  split; [rewrite Hcfg, Hstore; apply lookup_insert_eq|].
  split; [rewrite Hfiles; apply lookup_insert_eq|].
  intros Hn.
  assert (Hnone : Json.loads (take n (Json.dumps (JDict new))) = None).
  { apply (loads_cut new _ (drop n (Json.dumps (JDict new))) Hok').
    - symmetry. apply take_drop.
    - intros Hnil. apply (f_equal length) in Hnil.
      rewrite length_drop in Hnil. cbn [length] in Hnil.
      unfold Py.pystr, Py.codepoint in *. lia. }
  split.
  - rewrite load_config_eq, Hfiles, lookup_insert_eq. cbn [mbind option_bind].
    rewrite Hnone. reflexivity.
  - destruct (init_of_loaded (files st') (JDict DEFAULT_CONFIG_items))
      as (st2 & Hinit2 & Hv2).
    + rewrite load_config_eq. cbn [files boot]. rewrite Hfiles, lookup_insert_eq.
      cbn [mbind option_bind]. rewrite Hnone. reflexivity.
    + reflexivity.
    + exists {| tray_app := st2; icon_visible := true; running := true |}.
      unfold main. rewrite Hinit2. auto.
Qed.

End MoreAppFacts.

(* ===================================================================== *)
(** ** A fetch that succeeds                                              *)
(* ===================================================================== *)

Section MoreFetchFacts.
Import Py Fetcher App.

Variable repr_str : pystr -> pystr.
Variable qt_str : json -> option pystr.

(** The calls of [display_ayah] a run leads to are those of the
    results it emitted. *)
Lemma delivery_emitted steps :
  omap (delivery qt_str) steps
  = omap (fun apr : json * json * pystr =>
            let '(a, p, r) := apr in
            a' ← qt_str a; p' ← qt_str p; Some (AyahFetched a' p' r))
         (emitted steps).
Proof.
  induction steps as [|s steps IH]; [reflexivity|].
  destruct s as [| | | |a p r]; try exact IH.
  change (emitted (Emit a p r :: steps)) with ((a, p, r) :: emitted steps).
  change (omap (delivery qt_str) (Emit a p r :: steps))
    with (match delivery qt_str (Emit a p r) with
          | Some y => y :: omap (delivery qt_str) steps
          | None => omap (delivery qt_str) steps
          end).
  rewrite IH. reflexivity.
Qed.

(** The run that is retried up to the k-th attempt, whose message is
    within the bound, emits the verse of that attempt. *)
Lemma run_emits_first_within bound w k a p r fuel :
  connectivity w <> NoAnswer ->
  (forall j, (j < k)%nat -> exceeds_bound repr_str bound w j) ->
  verse_of repr_str (answer w k) = Some (a, p, r) ->
  int_le (len (compose_message repr_str a p r)) bound = Some true ->
  (k < fuel)%nat ->
  emitted (fst (run repr_str bound w fuel)) = [(a, p, r)].
Proof.
  intros Hnet Hbefore Hv Hle Hfuel.
  rewrite run_unfold. destruct (connectivity w); [congruence|].
  replace fuel with (k + S (fuel - S k))%nat by lia.
  rewrite (loop_retries repr_str bound w k 0) by (intros j Hj; apply Hbefore; lia).
  cbn [fst snd]. rewrite Nat.add_0_l, loop_S, attempt_result, Hv, Hle.
  cbn [fst]. rewrite emitted_get.
  rewrite emitted_app, retries_emit_nothing by (intros j Hj; apply Hbefore; lia).
  rewrite attempt_emitted, Hv, Hle. reflexivity.
Qed.

(** A fetch that succeeds, from its trigger to the window: when the
    network is there, the attempts before the k-th are retried and the
    k-th yields two texts whose message is within the bound of the
    configuration, the window of exactly that verse is on the screen
    at the end, for the configured number of seconds, in the
    configured language and theme; the timer, the menu and the
    balloons are as before, and one thread was started. *)
Theorem successful_fetch_is_shown trigger st c bound duration seconds lang th
    w k a p r fuel :
  trigger = Timeout \/ trigger = ShowAyahNow ->
  store st !! config st = Some c ->
  getitem c (text "max_length") = Some bound ->
  getitem c (text "notification_duration") = Some duration ->
  as_int duration = Some seconds ->
  -2147483648 <= seconds * 1000 <= 2147483647 ->
  getitem c (text "language") = Some lang ->
  dict_get c (text "theme") (JStr (text "light")) = Some th ->
  connectivity w <> NoAnswer ->
  (forall j, (j < k)%nat -> exceeds_bound repr_str bound w j) ->
  verse_of repr_str (answer w k) = Some (JStr a, JStr p, r) ->
  int_le (len (compose_message repr_str (JStr a) (JStr p) r)) bound = Some true ->
  (k < fuel)%nat ->
  qt_str (JStr a) = Some a ->
  qt_str (JStr p) = Some p ->
  fetch_cycle repr_str qt_str trigger w fuel st
  = with_notification
      (Some {| arabic := a; persian := p; reference := r;
               close_after := seconds * 1000; language := lang; theme := th;
               visible := true |})
      (with_fetcher bound st)
  /\ timer (fetch_cycle repr_str qt_str trigger w fuel st) = timer st
  /\ tray (fetch_cycle repr_str qt_str trigger w fuel st) = tray st
  /\ threads (fetch_cycle repr_str qt_str trigger w fuel st) = S (threads st).
Proof.
  intros Htrigger Hc Hbound Hduration Hseconds Hfits Hlang Hth Hnet Hbefore Hv Hle
    Hfuel Ha Hp.
  assert (Hhandle : handle trigger st = (with_fetcher bound st, Some tt)).
  { destruct Htrigger as [-> | ->]; cbn [handle]; unfold show_ayah_now;
      unfold fetch_and_show_ayah;
      rewrite bind_eq, config_item_eq, Hc; simpl; rewrite Hbound; reflexivity. }
  assert (Hcycle : fetch_cycle repr_str qt_str trigger w fuel st
                   = fst (display_ayah a p r (with_fetcher bound st))).
  { unfold fetch_cycle. rewrite Hhandle. cbn [fetcher with_fetcher].
    rewrite delivery_emitted.
    rewrite (run_emits_first_within bound w k (JStr a) (JStr p) r fuel)
      by assumption.
    unfold omap, list_omap, handle_all. rewrite Ha. cbn [mbind option_bind].
    rewrite Hp. reflexivity. }
  rewrite Hcycle.
  rewrite (display_ayah_eq a p r (with_fetcher bound st) c duration seconds lang th)
    by assumption.
  cbn [fst]. repeat split; reflexivity.
Qed.

End MoreFetchFacts.

(* ===================================================================== *)
(** ** Cases                                                              *)
(* ===================================================================== *)

Section MoreCases.
Import Py Fetcher App Window Examples AppExamples CycleExamples.

(** The bound ["250"], a [str], and a network that answers. *)
Lemma bound_that_is_no_number_witness :
  snd (run quoted (JStr (text "250")) world_short 3) = Value tt
  /\ emitted (fst (run quoted (JStr (text "250")) world_short 3)) = []
  /\ (length (requests (fst (run quoted (JStr (text "250")) world_short 3))) <= 2)%nat.
Proof.
  apply (bound_that_is_no_number_ends_the_run quoted (JStr (text "250")) world_short 2).
  reflexivity.
Defined.

(** The dialog on the application as it started, with some edits. *)
Lemma saved_settings_are_valid_witness :
  exists c,
    store (fst (show_settings some_edits SaveSettings Stored st_started))
      !! config (fst (show_settings some_edits SaveSettings Stored st_started)) = Some c
    /\ settings_valid c = true.
Proof.
  apply (saved_settings_are_valid some_edits Stored st_started).
  vm_compute. reflexivity.
Defined.




Lemma st_valid_is_valid : config_valid st_valid.
Proof. eexists. split; [vm_compute; reflexivity|reflexivity]. Qed.

Lemma unedited_settings_witness :
  exists st' c,
    handle (Settings [] SaveSettings Stored) st_valid = (st', Some tt)
    /\ store st_valid !! config st_valid = Some c
    /\ config st' <> config st_valid
    /\ store st' !! config st' = Some c
    /\ files st' = disk_after Stored (Json.dumps c) (files st_valid).
Proof.
  apply (unedited_settings_are_kept Stored st_valid). exact st_valid_is_valid.
Defined.

(** The settings written by hand, saved without an edit. *)
Lemma unedited_save_normalises_witness :
  exists c',
    store (fst (show_settings [] SaveSettings Stored st_handwritten))
      !! config (fst (show_settings [] SaveSettings Stored st_handwritten)) = Some c'
    /\ getitem c' (text "language") = Some (JStr (text "both"))
    /\ getitem c' (text "theme") = Some (JStr (text "light"))
    /\ getitem c' (text "interval_minutes") = Some (JInt 1440).
Proof.
  destruct (unedited_save_normalises Stored st_handwritten
              (fst (show_settings [] SaveSettings Stored st_handwritten))
              handwritten_config)
    as (c' & Hc' & Hlang & Htheme & Hminutes & _).
  - vm_compute. reflexivity.
  - vm_compute. reflexivity.
  - exists c'. split; [exact Hc'|]. split; [apply Hlang; reflexivity|].
    split; [apply Htheme; reflexivity|]. apply (Hminutes 40000). reflexivity.
Defined.

(** The settings file with nothing but [auto_start]: no language. *)
Lemma settings_cannot_open_witness :
  snd (handle (Settings some_edits SaveSettings Stored) st_partial) = None
  /\ files (fst (handle (Settings some_edits SaveSettings Stored) st_partial))
     = files st_partial.
Proof.
  destruct (settings_cannot_open_without_key "language" some_edits SaveSettings Stored
              st_partial (JDict [(text "auto_start", JBool false)]))
    as (Hraise & _ & _ & Hfiles & _).
  - right. left. reflexivity.
  - vm_compute. reflexivity.
  - reflexivity.
  - split; assumption.
Defined.

Lemma missing_theme_witness :
  init_ui (JDict themeless_items)
  = init_ui (JDict (themeless_items ++ [(text "theme", JStr (text "light"))]))
  /\ current_notification (fst (display_ayah short_arabic short_persian
                                  (text "Quran 2:25") st_themeless))
     = current_notification
         (fst (display_ayah short_arabic short_persian (text "Quran 2:25")
                 (with_store
                    <[config st_themeless :=
                        JDict (themeless_items
                               ++ [(text "theme", JStr (text "light"))])]>
                    st_themeless))).
Proof.
  destruct (missing_theme_is_light themeless_items short_arabic short_persian
              (text "Quran 2:25") st_themeless)
    as (Hinit & _ & Hwindow).
  - reflexivity.
  - vm_compute. reflexivity.
  - split; [exact Hinit|exact Hwindow].
Defined.

(** The interval of 40000 minutes of the settings written by hand. *)
Lemma long_interval_witness :
  start_reminders false st_handwritten = (st_handwritten, None).
Proof.
  apply (long_interval_cannot_be_started false st_handwritten handwritten_config 40000).
  - vm_compute. reflexivity.
  - reflexivity.
  - lia.
Defined.


(** Arabic only, the dark theme and ninety seconds, chosen after the
    other edits. *)
Lemma chosen_settings_witness :
  exists n,
    display_ayah short_arabic short_persian (text "Quran 2:25")
      (fst (handle (Settings (some_edits
                              ++ [ChooseLanguage 1; ChooseTheme 1; SetDuration 90])
                      SaveSettings Stored) st_started))
    = (with_notification (Some n)
         (fst (handle (Settings (some_edits
                                 ++ [ChooseLanguage 1; ChooseTheme 1; SetDuration 90])
                         SaveSettings Stored) st_started)),
       Some tt)
    /\ texts n = [short_arabic; text "Quran 2:25"]
    /\ close_after n = 60000.
Proof.
  destruct (chosen_settings_are_shown some_edits 1 1 90 Stored short_arabic short_persian
              (text "Quran 2:25") st_started
              (fst (handle (Settings (some_edits
                                      ++ [ChooseLanguage 1; ChooseTheme 1; SetDuration 90])
                              SaveSettings Stored) st_started)))
    as (n & Hshow & Htexts & _ & Hclose & _).
  - lia.
  - lia.
  - vm_compute. reflexivity.
  - exists n. split; [exact Hshow|]. split; [exact Htexts|exact Hclose].
Defined.

(** The language ["french"] of the settings written by hand. *)
Lemma unknown_language_witness :
  (forall w0, init_ui handwritten_config = Some w0 -> lang_combo w0 = 0)
  /\ (forall st',
        display_ayah short_arabic short_persian (text "Quran 2:25") st_handwritten
        = (st', Some tt) ->
        exists n, current_notification st' = Some n /\ texts n = [text "Quran 2:25"]).
Proof.
  apply (unknown_language_shows_no_text short_arabic short_persian (text "Quran 2:25")
           st_handwritten handwritten_config (JStr (text "french"))).
  - vm_compute. reflexivity.
  - reflexivity.
  - reflexivity.
Defined.

(** The time-out on the application as it started, and the short
    verse at the first attempt. *)
Lemma successful_fetch_witness :
  fetch_cycle quoted qt_text Timeout world_short 3 st_started
  = with_notification
      (Some {| arabic := short_arabic; persian := short_persian;
               reference := text "Quran 2:25"; close_after := 25 * 1000;
               language := JStr (text "both"); theme := JStr (text "light");
               visible := true |})
      (with_fetcher (JInt 250) st_started)
  /\ timer (fetch_cycle quoted qt_text Timeout world_short 3 st_started)
     = timer st_started
  /\ tray (fetch_cycle quoted qt_text Timeout world_short 3 st_started)
     = tray st_started
  /\ threads (fetch_cycle quoted qt_text Timeout world_short 3 st_started)
     = S (threads st_started).
Proof.
  apply (successful_fetch_is_shown quoted qt_text Timeout st_started
           (JDict DEFAULT_CONFIG_items) (JInt 250) (JInt 25) 25
           (JStr (text "both")) (JStr (text "light")) world_short 0
           short_arabic short_persian (text "Quran 2:25") 3).
  - left. reflexivity.
  - vm_compute. reflexivity.
  - reflexivity.
  - reflexivity.
  - reflexivity.
  - lia.
  - reflexivity.
  - reflexivity.
  - discriminate.
  - intros j Hj. lia.
  - reflexivity.
  - reflexivity.
  - lia.
  - reflexivity.
  - reflexivity.
Defined.



(** Saved settings on a disk that fails after ten characters. *)
Lemma cut_write_witness :
  exists c',
    store (fst (handle (Settings some_edits SaveSettings (Cut 10)) st_started))
      !! config (fst (handle (Settings some_edits SaveSettings (Cut 10)) st_started))
    = Some c'
    /\ files (fst (handle (Settings some_edits SaveSettings (Cut 10)) st_started))
         !! CONFIG_FILE
       = Some (Some (take 10 (Json.dumps c')))
    /\ ((10 < length (Json.dumps c'))%nat ->
        load_config (fst (handle (Settings some_edits SaveSettings (Cut 10)) st_started))
        = copy DEFAULT_CONFIG
            (fst (handle (Settings some_edits SaveSettings (Cut 10)) st_started))
        /\ exists p2,
             main (files (fst (handle (Settings some_edits SaveSettings (Cut 10))
                                 st_started)))
             = Some p2
             /\ store (tray_app p2) !! config (tray_app p2)
                = Some (JDict DEFAULT_CONFIG_items)).
Proof.
  apply (cut_write_falls_back_to_defaults ∅ st_started some_edits 10).
  - intros content Hfile. rewrite lookup_empty in Hfile. discriminate Hfile.
  - apply reach_init. vm_compute. reflexivity.
  - vm_compute. reflexivity.
Defined.

End MoreCases.
